(** * etl-pipeline: a shallow embedding of [etl_tasks.py]

    The development follows the layout of the Python module: text helpers,
    the in-memory frame ([pandas.DataFrame]), the Transformer
    ([transform_orders_df]), the Quality Gate ([basic_data_quality_checks]),
    the Type Inferencer ([pandas_dtype_to_sqlalchemy]), the relational store
    with the staging/merge load ([load_df_to_postgres_upsert]) and the
    Orchestrator ([run_etl_from_minio_to_postgres]).

    Numbers of dtype float64 are represented by reduced rationals; integers
    of dtype int64 by [Z] (overflow is outside the model). *)

From Stdlib Require Import Ascii String QArith Qreduction Qround.
From stdpp Require Import base list strings gmap pretty.

Local Open Scope Z_scope.
Local Open Scope string_scope.

(** ** Text helpers ([str.strip], [str.lower], digits) *)

Module PyStr.

Definition is_space (a : ascii) : bool :=
  let n := Ascii.N_of_ascii a in
  ((9 <=? n) && (n <=? 13))%N || ((28 <=? n) && (n <=? 32))%N.

Fixpoint lstrip (s : string) : string :=
  match s with
  | String a r => if is_space a then lstrip r else s
  | EmptyString => EmptyString
  end.

Definition rstrip (s : string) : string :=
  String.rev (lstrip (String.rev s)).

Definition strip (s : string) : string := rstrip (lstrip s).

Definition lower_ascii (a : ascii) : ascii :=
  let n := Ascii.N_of_ascii a in
  if ((65 <=? n) && (n <=? 90))%N then Ascii.ascii_of_N (n + 32) else a.

Fixpoint lower (s : string) : string :=
  match s with
  | String a r => String (lower_ascii a) (lower r)
  | EmptyString => EmptyString
  end.

(** [needle in hay] on Python strings. *)
Fixpoint contains (needle hay : string) : bool :=
  String.prefix needle hay ||
  match hay with
  | String _ r => contains needle r
  | EmptyString => false
  end.

Definition digit_of (a : ascii) : option Z :=
  let n := Ascii.N_of_ascii a in
  if ((48 <=? n) && (n <=? 57))%N then Some (Z.of_N n - 48) else None.

(** Value of a non-empty run of decimal digits, most significant first. *)
Fixpoint digits_from (acc : Z) (s : string) : option Z :=
  match s with
  | EmptyString => Some acc
  | String a r =>
      match digit_of a with
      | Some d => digits_from (10 * acc + d) r
      | None => None
      end
  end.

Definition digits (s : string) : option Z :=
  match s with
  | EmptyString => None
  | _ => digits_from 0 s
  end.

(** Split at the first occurrence of a character. *)
Fixpoint split_at (c : ascii) (s : string) : string * option string :=
  match s with
  | EmptyString => (EmptyString, None)
  | String a r =>
      if Ascii.eqb a c then (EmptyString, Some r)
      else let '(h, t) := split_at c r in (String a h, t)
  end.

(** Zero-padded decimal rendering, as [format(n, "0{w}d")] for [n >= 0]. *)
Fixpoint zeros (n : nat) : string :=
  match n with
  | O => EmptyString
  | S k => String "0" (zeros k)
  end.

Definition zpad (w : nat) (n : Z) : string :=
  let s := pretty (Z.to_N n) in
  zeros (w - String.length s) ++ s.

End PyStr.

(** ** Frames: the fragment of [pandas] the module relies on *)

(** A civil timestamp ([pandas.Timestamp]); [ts_nanos] is the time of day. *)
Record timestamp := Timestamp {
  ts_year : Z; ts_month : Z; ts_day : Z; ts_nanos : Z
}.

(** One value of a column.  [CNull] stands for [None], [NaN] and [NaT]
    alike: the module only ever asks [pd.isna] of them. *)
Inductive cell :=
| CNull
| CInt (z : Z)
| CFloat (q : Q)
| CBool (b : bool)
| CStr (s : string)
| CTime (t : timestamp).

Inductive dtype := DInt64 | DFloat64 | DBool | DDatetime64 | DObject.

Record Series := mkSeries { s_dtype : dtype; s_values : list cell }.

(** A frame: its row labels (the index) and its named columns, in order. *)
Record DataFrame := mkFrame {
  index : list nat;
  columns : list (string * Series)
}.

(** [len(df)] *)
Definition nrows (df : DataFrame) : nat := length (index df).

Definition isna (c : cell) : bool :=
  match c with CNull => true | _ => false end.

Definition column_names (df : DataFrame) : list string := (columns df).*1.

(** [name in df.columns] *)
Definition has_column (name : string) (df : DataFrame) : bool :=
  bool_decide (name ∈ column_names df).

(** All the columns carrying a label (pandas allows repeated labels). *)
Definition columns_named (name : string) (df : DataFrame) : list Series :=
  (filter (λ p, p.1 = name) (columns df)).*2.

(** A calendar date, as PostgreSQL's [date] type holds it. *)
Record date := mkDate { d_year : Z; d_month : Z; d_day : Z }.

(** A stored value. *)
Inductive sqlval :=
| SNull
| SInt (z : Z)
| SFloat (q : Q)
| SBool (b : bool)
| SText (s : string)
| SDate (d : date).

(** What Python raises.  The [RuntimeError] of the date cast is kept
    structured: the column, the exception it was raised from, and the
    sample values its message interpolates. *)
Inductive py_error :=
| ValueError (msg : string)
| TypeError (msg : string)
| DatabaseError (msg : string)
| RuntimeError_cast (column : string) (cause : py_error) (sample_vals : list sqlval).

Inductive result (A : Type) :=
| Ok (a : A)
| Raise (e : py_error).
Arguments Ok {A} a.
Arguments Raise {A} e.

#[export] Instance result_bind : MBind result := λ A B k r,
  match r with
  | Ok a => k a
  | Raise e => Raise e
  end.

(** [df[name]]: a Series when the label occurs once; with a repeated label
    pandas hands back a frame, on which [pd.to_datetime] and
    [pd.to_numeric] raise. *)
Definition get_series (name : string) (df : DataFrame) : result Series :=
  match columns_named name df with
  | [s] => Ok s
  | [] => Raise (ValueError "KeyError")
  | _ => Raise (TypeError "arg must be a list, tuple, 1-d array, or Series")
  end.

(** [df[name] = s]: overwrite the column(s) with that label, or append. *)
Definition set_column (name : string) (s : Series) (df : DataFrame) : DataFrame :=
  if has_column name df
  then mkFrame (index df)
         (map (λ p, if decide (p.1 = name) then (name, s) else p) (columns df))
  else mkFrame (index df) (columns df ++ [(name, s)]).

(** [df.rename(columns=f)] *)
Definition rename_columns (f : string → string) (df : DataFrame) : DataFrame :=
  mkFrame (index df) (map (λ p, (f p.1, p.2)) (columns df)).

(** Keep the entries of [l] whose flag in [mask] is set. *)
Fixpoint select_mask {A} (mask : list bool) (l : list A) : list A :=
  match mask, l with
  | b :: mask', x :: l' => if b then x :: select_mask mask' l' else select_mask mask' l'
  | _, _ => []
  end.

(** Row [i] survives [dropna(subset=[name])] when every column with that
    label holds a value there. *)
Definition notna_row (keys : list Series) (i : nat) : bool :=
  forallb (λ s, negb (isna (nth i (s_values s) CNull))) keys.

Definition dropna_mask (name : string) (df : DataFrame) : list bool :=
  map (notna_row (columns_named name df)) (seq 0 (nrows df)).

(** [df.dropna(subset=[name])]: the surviving rows keep their labels. *)
Definition dropna (name : string) (df : DataFrame) : DataFrame :=
  let mask := dropna_mask name df in
  mkFrame (select_mask mask (index df))
          (map (λ p, (p.1, mkSeries (s_dtype p.2) (select_mask mask (s_values p.2))))
               (columns df)).

(** [df.reset_index(drop=True)]: labels become [0 .. len(df)-1]. *)
Definition reset_index (df : DataFrame) : DataFrame :=
  mkFrame (seq 0 (nrows df)) (columns df).

(** [df.head(0)]: the columns and their dtypes, no rows. *)
Definition head0 (df : DataFrame) : DataFrame :=
  mkFrame [] (map (λ p, (p.1, mkSeries (s_dtype p.2) [])) (columns df)).

(** ** Configuration and library behaviour taken as given *)

(** The module-level settings read from the environment. *)
Class Config := {
  TARGET_TABLE : string;
  UNIQUE_KEY : string
}.

(** The defaults of the [os.getenv] calls. *)
Definition default_config : Config :=
  {| TARGET_TABLE := "orders_clean"; UNIQUE_KEY := "order_id" |}.

(** A parsed number: pandas keeps integers and floats apart. *)
Inductive num := NInt (z : Z) | NFloat (q : Q).

(** Readers and printers that live in pandas and PostgreSQL rather than in
    the module: the numeric reader behind [pd.to_numeric], the permissive
    reader behind [pd.to_datetime], the nanosecond count of a timestamp,
    [str] of a float and of a timestamp, and the input function of
    PostgreSQL's [date] type. *)
Class Parsers := {
  str_to_number : string → option num;
  to_datetime_cell : cell → option timestamp;
  timestamp_value : timestamp → Z;
  float_str : Q → string;
  timestamp_str : timestamp → string;
  pg_date_in : string → option date
}.

(** ** Column operations used by the Transformer *)

Section Columns.
Context `{Parsers}.

(** [pd.to_datetime(s, errors="coerce")] *)
Definition to_datetime (s : Series) : Series :=
  mkSeries DDatetime64
    (map (λ c, match to_datetime_cell c with
               | Some t => CTime t
               | None => CNull
               end) (s_values s)).

(** [val.date().isoformat()] *)
Definition isoformat (t : timestamp) : string :=
  PyStr.zpad 4 (ts_year t) ++ "-" ++ PyStr.zpad 2 (ts_month t) ++ "-"
    ++ PyStr.zpad 2 (ts_day t).

(** [str(val)] *)
Definition py_str (c : cell) : string :=
  match c with
  | CNull => "None"
  | CInt z => pretty z
  | CFloat q => float_str q
  | CBool b => if b then "True" else "False"
  | CStr s => s
  | CTime t => timestamp_str t
  end.

(** The local function [to_iso_date] of [transform_orders_df].  A value
    that is not a timestamp has no [date] method: the [except] branch
    answers [str(val)]. *)
Definition to_iso_date (val : cell) : cell :=
  if isna val then CNull
  else match val with
       | CTime t => CStr (isoformat t)
       | _ => CStr (py_str val)
       end.

(** [s.apply(f)] for an [f] that answers [None] or a string: an empty
    Series comes back as it is, otherwise the results form an object
    column. *)
Definition apply (f : cell → cell) (s : Series) : Series :=
  match s_values s with
  | [] => s
  | vs => mkSeries DObject (map f vs)
  end.

(** What [pd.to_numeric(.., errors="coerce")] makes of one entry of an
    object column; [None] is NaN. *)
Definition to_numeric_cell (c : cell) : option num :=
  match c with
  | CNull => None
  | CInt z => Some (NInt z)
  | CFloat q => Some (NFloat q)
  | CBool b => Some (NInt (if b then 1 else 0))
  | CStr s => str_to_number s
  | CTime _ => None
  end.

Definition is_NInt (n : option num) : bool :=
  match n with Some (NInt _) => true | _ => false end.

Definition num_to_float (n : option num) : cell :=
  match n with
  | Some (NInt z) => CFloat (Qred (inject_Z z))
  | Some (NFloat q) => CFloat (Qred q)
  | None => CNull
  end.

Definition num_to_int (n : option num) : cell :=
  match n with
  | Some (NInt z) => CInt z
  | _ => CNull
  end.

(** [pd.to_numeric(s, errors="coerce")]: numeric and boolean columns pass
    through, timestamps become their nanosecond counts, and an object
    column is parsed entry by entry: int64 when every entry is an integer,
    float64 (with NaN for the unparseable) otherwise. *)
Definition to_numeric (s : Series) : Series :=
  match s_dtype s with
  | DInt64 | DFloat64 | DBool => s
  | DDatetime64 =>
      mkSeries DInt64
        (map (λ c, match c with
                   | CTime t => CInt (timestamp_value t)
                   | _ => CInt (- 2 ^ 63)
                   end) (s_values s))
  | DObject =>
      let ns := map to_numeric_cell (s_values s) in
      if forallb is_NInt ns
      then mkSeries DInt64 (map num_to_int ns)
      else mkSeries DFloat64 (map num_to_float ns)
  end.

(** [s.fillna(0)] / [s.fillna(0.0)]: only a float column can hold NaN, and
    the fill value takes the column's dtype. *)
Definition fillna_zero (s : Series) : Series :=
  mkSeries (s_dtype s)
    (map (λ c, if isna c
               then match s_dtype s with
                    | DFloat64 => CFloat 0
                    | DInt64 => CInt 0
                    | _ => c
                    end
               else c) (s_values s)).

(** Truncation toward zero, as numpy converts float64 to int64. *)
Definition trunc (q : Q) : Z := Z.quot (Qnum q) (Zpos (Qden q)).

Definition int_of_cell (c : cell) : cell :=
  match c with
  | CInt z => CInt z
  | CFloat q => CInt (trunc q)
  | CBool b => CInt (if b then 1 else 0)
  | _ => c
  end.

(** [s.astype(int)] on a numeric column without NaN. *)
Definition astype_int (s : Series) : Series :=
  mkSeries DInt64 (map int_of_cell (s_values s)).

(** One product of [df["quantity"] * df["price"]]. *)
Definition mul_cell (a b : cell) : cell :=
  match a, b with
  | CInt x, CInt y => CInt (x * y)
  | CInt x, CFloat q => CFloat (Qred (inject_Z x * q))
  | CInt x, CBool y => CInt (x * (if y then 1 else 0))
  | _, _ => CNull
  end.

(** The product of an int64 column with a numeric column. *)
Definition mul_series (a b : Series) : Series :=
  mkSeries (match s_dtype b with DFloat64 => DFloat64 | _ => DInt64 end)
           (zip_with mul_cell (s_values a) (s_values b)).

End Columns.

(** ** Transformer *)

Section Transform.
Context `{Config} `{Parsers}.

(** The three steps the Transformer takes when [quantity] and [price] are
    both present. *)
Definition derive_total_price (df : DataFrame) : result DataFrame :=
  q ← get_series "quantity" df;
  let df := set_column "quantity" (astype_int (fillna_zero (to_numeric q))) df in
  p ← get_series "price" df;
  let df := set_column "price" (fillna_zero (to_numeric p)) df in
  q' ← get_series "quantity" df;
  p' ← get_series "price" df;
  Ok (set_column "total_price" (mul_series q' p') df).

(** The [order_date] step: permissive parse, then ISO text or [None]. *)
Definition normalise_order_date (df : DataFrame) : result DataFrame :=
  s ← get_series "order_date" df;
  Ok (set_column "order_date" (apply to_iso_date (to_datetime s)) df).

Definition transform_orders_df (df : DataFrame) : result DataFrame :=
  let df := rename_columns (λ c, PyStr.lower (PyStr.strip c)) df in
  df ← (if has_column "order_date" df then normalise_order_date df else Ok df);
  df ← (if has_column "quantity" df && has_column "price" df
        then derive_total_price df else Ok df);
  let df := if has_column UNIQUE_KEY df then dropna UNIQUE_KEY df else df in
  Ok (reset_index df).

End Transform.

(** ** Quality Gate *)

#[export] Instance Q_eq_dec : EqDecision Q.
Proof. solve_decision. Defined.
#[export] Instance timestamp_eq_dec : EqDecision timestamp.
Proof. solve_decision. Defined.
#[export] Instance cell_eq_dec : EqDecision cell.
Proof. solve_decision. Defined.
#[export] Instance dtype_eq_dec : EqDecision dtype.
Proof. solve_decision. Defined.

Definition REQUIRED_COLUMNS : list string :=
  ["order_id"; "user_id"; "product_id"; "quantity"; "price"; "order_date"].

(** [repr] of a list of column labels. *)
Definition repr_list (l : list string) : string :=
  "[" ++ String.concat ", " (map (λ c, "'" ++ c ++ "'") l) ++ "]".

(** The entries of [df[name]], row by row (one value per column carrying
    the label). *)
Definition key_rows (name : string) (df : DataFrame) : list (list cell) :=
  map (λ i, map (λ s, nth i (s_values s) CNull) (columns_named name df))
      (seq 0 (nrows df)).

(** [df[name].duplicated().any()] *)
Definition duplicated_any (name : string) (df : DataFrame) : bool :=
  negb (bool_decide (NoDup (key_rows name df))).

(** [msgs.append(m)] *)
Definition append_msg (msgs : list string) (m : string) : list string :=
  (msgs ++ [m])%list.

Section QualityGate.
Context `{Config}.

Definition missing_columns (required_columns : list string) (df : DataFrame)
  : list string :=
  filter (λ c, c ∉ column_names df) required_columns.

Definition basic_data_quality_checks (df : DataFrame)
    (required_columns : list string) : list string :=
  let msgs := [] in
  let miss := missing_columns required_columns df in
  let msgs := match miss with
              | [] => msgs
              | _ => append_msg msgs ("Missing required columns: " ++ repr_list miss)
              end in
  let msgs := if (nrows df =? 0)%nat
              then append_msg msgs "No rows in dataset after download/transform."
              else msgs in
  let msgs := if has_column UNIQUE_KEY df && duplicated_any UNIQUE_KEY df
              then append_msg msgs "Duplicate values found in UNIQUE_KEY column."
              else msgs in
  msgs.

End QualityGate.

(** ** Type Inferencer *)

(** The SQLAlchemy column types the module imports and uses. *)
Inductive sqltype := Integer | Float | Boolean | Date | Text.

#[export] Instance sqltype_eq_dec : EqDecision sqltype.
Proof. solve_decision. Defined.

(** [Column(col_name, ty)] *)
Definition Column := (string * sqltype)%type.

Definition is_integer_dtype (s : Series) : bool := bool_decide (s_dtype s = DInt64).
Definition is_float_dtype (s : Series) : bool := bool_decide (s_dtype s = DFloat64).
Definition is_bool_dtype (s : Series) : bool := bool_decide (s_dtype s = DBool).
Definition is_datetime64_any_dtype (s : Series) : bool :=
  bool_decide (s_dtype s = DDatetime64).

Definition pandas_dtype_to_sqlalchemy (col_name : string) (series : Series) : Column :=
  if is_integer_dtype series then (col_name, Integer)
  else if is_float_dtype series then (col_name, Float)
  else if is_bool_dtype series then (col_name, Boolean)
  else if is_datetime64_any_dtype series then (col_name, Date)
  else (col_name, Text).

(** The dtype pandas gives a column built from plain values
    ([pd.Series(values)], and likewise the CSV/JSON readers): int64 for
    integers only, float64 for numbers with a float or a gap among them,
    bool, datetime64 for timestamps, object for strings and mixtures. *)
Definition is_CInt (c : cell) : bool := match c with CInt _ => true | _ => false end.
Definition is_number (c : cell) : bool :=
  match c with CInt _ | CFloat _ | CNull => true | _ => false end.
Definition is_CBool (c : cell) : bool := match c with CBool _ => true | _ => false end.
Definition is_time (c : cell) : bool :=
  match c with CTime _ | CNull => true | _ => false end.

Definition widen (c : cell) : cell :=
  match c with CInt z => CFloat (Qred (inject_Z z)) | _ => c end.

Definition series_of (vals : list cell) : Series :=
  match vals with
  | [] => mkSeries DObject []
  | _ =>
    if forallb is_CInt vals then mkSeries DInt64 vals
    else if forallb is_CBool vals then mkSeries DBool vals
    else if forallb is_number vals then mkSeries DFloat64 (map widen vals)
    else if forallb is_time vals then mkSeries DDatetime64 vals
    else mkSeries DObject vals
  end.

(** ** The relational store *)

#[export] Instance date_eq_dec : EqDecision date.
Proof. solve_decision. Defined.
#[export] Instance sqlval_eq_dec : EqDecision sqlval.
Proof. solve_decision. Defined.

(** A row maps column names to values. *)
Abbreviation row := (gmap string sqlval).

(** A relation: its declared columns, the column under a primary-key
    constraint (if any) and its rows in storage order.  The tables this
    module creates itself carry no constraint; a sink provisioned
    beforehand declares its unique key non-null and unique. *)
Record table := mkTable {
  t_columns : list Column;
  t_pkey : option string;
  t_rows : list row
}.

Abbreviation Database := (gmap string table).

(** A computation against the store: the store it leaves, and its result. *)
Definition DB (A : Type) : Type := Database → Database * result A.

Definition is_null (v : sqlval) : bool :=
  match v with SNull => true | _ => false end.

Definition in_int4 (z : Z) : bool := ((- 2 ^ 31 <=? z) && (z <? 2 ^ 31))%Z.

(** [inspector.has_table(name)] *)
Definition has_table (name : string) (db : Database) : bool :=
  bool_decide (is_Some (db !! name)).

(** The columns a frame gives a new table: one [Column] per frame column. *)
Definition frame_columns (df : DataFrame) : list Column :=
  map (λ p, pandas_dtype_to_sqlalchemy p.1 p.2) (columns df).

(** [CREATE TABLE name (cols)]: refused when the name is taken or a column
    name repeats. *)
Definition create_table (name : string) (cols : list Column) : DB () := λ db,
  if has_table name db
  then (db, Raise (DatabaseError "relation already exists"))
  else if bool_decide (NoDup cols.*1)
  then (<[name := mkTable cols None []]> db, Ok ())
  else (db, Raise (DatabaseError "column specified more than once")).

(** [DROP TABLE IF EXISTS name] *)
Definition drop_table_if_exists (name : string) : DB () := λ db,
  (delete name db, Ok ()).

(** [metadata.create_all(engine, tables=[table])] checks for the table
    first. *)
Definition create_table_if_not_exists (table_name : string) (df : DataFrame)
  : DB () := λ db,
  if has_table table_name db then (db, Ok ())
  else create_table table_name (frame_columns df) db.

Definition create_staging_table (staging_name : string) (df : DataFrame)
  : DB () := λ db,
  let '(db, _) := drop_table_if_exists staging_name db in
  create_table staging_name (frame_columns df) db.

(** Sequencing of two store computations; the second runs only when the
    first returned. *)
Definition and_then {A B} (m : DB A) (k : A → DB B) : DB B := λ db,
  match m db with
  | (db', Ok a) => k a db'
  | (db', Raise e) => (db', Raise e)
  end.

Notation "m1 ;;; m2" := (and_then m1 (λ _, m2))
  (at level 100, m2 at level 200, right associativity).

(** [SELECT name FROM tbl]: one value per row. *)
Definition column_values (name : string) (t : table) : list sqlval :=
  map (λ r : row, default SNull (r !! name)) (t_rows t).

(** Modelled from the spec: the DDL that provisions the sink is not among
    the sources.  The spec's Unique Key ("values must be non-null and
    unique in the sink; used as the conflict target") is taken as a
    primary key: a table honours it when the key is nowhere null and no
    value occurs twice. *)
Definition pkey_ok (pk : option string) (rows : list row) : bool :=
  match pk with
  | None => true
  | Some k =>
      let keys := map (λ r : row, default SNull (r !! k)) rows in
      forallb (λ v, negb (is_null v)) keys && bool_decide (NoDup keys)
  end.

Section Load.
Context `{Config} `{Parsers}.

(** The rows [df.to_csv(index=False)] writes, one list of cells per row. *)
Definition frame_rows (df : DataFrame) : list (list cell) :=
  map (λ i, map (λ p, nth i (s_values p.2) CNull) (columns df))
      (seq 0 (nrows df)).

Definition signed_digits (s : string) : option Z :=
  match s with
  | String "-" r => Z.opp <$> PyStr.digits r
  | _ => PyStr.digits s
  end.

(** One CSV field read by [COPY] into a column of type [ty].  A missing
    value and the empty string are both written as an empty field, which
    the CSV format reads back as NULL. *)
Definition copy_cell (ty : sqltype) (c : cell) : option sqlval :=
  match c with
  | CNull | CStr "" => Some SNull
  | _ =>
    match ty, c with
    | Text, _ => Some (SText (py_str c))
    | Integer, CInt z => if in_int4 z then Some (SInt z) else None
    | Integer, CStr s =>
        z ← signed_digits s; if in_int4 z then Some (SInt z) else None
    | Float, CInt z => Some (SFloat (Qred (inject_Z z)))
    | Float, CFloat q => Some (SFloat (Qred q))
    | Boolean, CBool b => Some (SBool b)
    | Date, CTime t => Some (SDate (mkDate (ts_year t) (ts_month t) (ts_day t)))
    | Date, CStr s => SDate <$> pg_date_in s
    | _, _ => None
    end
  end.

(** Fields are matched to the table's columns by position. *)
Definition copy_row (cols : list Column) (cells : list cell) : option row :=
  if bool_decide (length cols = length cells)
  then vs ← mapM (λ p : Column * cell, copy_cell p.1.2 p.2) (zip cols cells);
       Some (list_to_map (zip cols.*1 vs))
  else None.

(** [COPY tbl FROM STDIN WITH (FORMAT csv, HEADER true)]; a failure rolls
    the whole copy back. *)
Definition copy_df_to_table_via_copy (df : DataFrame) (table_name : string)
  : DB () := λ db,
  match db !! table_name with
  | None => (db, Raise (DatabaseError "relation does not exist"))
  | Some t =>
      match mapM (copy_row (t_columns t)) (frame_rows df) with
      | None => (db, Raise (DatabaseError "invalid input for COPY"))
      | Some rs =>
          let rows' := (t_rows t ++ rs)%list in
          if pkey_ok (t_pkey t) rows'
          then (<[table_name := mkTable (t_columns t) (t_pkey t) rows']> db, Ok ())
          else (db, Raise (DatabaseError "primary key violated"))
      end
  end.

(** The type a table declares for a column. *)
Definition column_type (c : string) (t : table) : option sqltype :=
  (list_to_map (t_columns t) : gmap string sqltype) !! c.

(** [v::date] for a value stored under type [from]. *)
Definition cast_to_date (from : sqltype) (v : sqlval) : option sqlval :=
  match from, v with
  | (Text | Date), SNull => Some SNull
  | Text, SText s => SDate <$> pg_date_in s
  | Date, SDate d => Some (SDate d)
  | _, _ => None
  end.

(** [ALTER TABLE tbl ALTER COLUMN c TYPE date USING (c::date)]: every
    stored value is converted, or the statement fails and changes
    nothing. *)
Definition alter_column_to_date (tbl c : string) : DB () := λ db,
  match db !! tbl with
  | None => (db, Raise (DatabaseError "relation does not exist"))
  | Some t =>
      match column_type c t with
      | None => (db, Raise (DatabaseError "column does not exist"))
      | Some ty =>
          match mapM (λ r : row,
                        v ← cast_to_date ty (default SNull (r !! c));
                        Some (<[c := v]> r)) (t_rows t) with
          | None => (db, Raise (DatabaseError "cannot cast to date"))
          | Some rows' =>
              let cols' := map (λ p : Column, if decide (p.1 = c) then (c, Date) else p)
                               (t_columns t) in
              (<[tbl := mkTable cols' (t_pkey t) rows']> db, Ok ())
          end
      end
  end.

(** [SELECT c FROM tbl LIMIT n], fetched. *)
Definition select_limit (tbl c : string) (n : nat) : DB (list sqlval) := λ db,
  match db !! tbl with
  | None => (db, Raise (DatabaseError "relation does not exist"))
  | Some t => (db, Ok (take n (column_values c t)))
  end.

(** The body of the loop over the date-like columns: try the cast; on
    failure fetch ten values of the column and raise.  Each statement
    takes effect as it is executed, and a failed [ALTER TABLE] leaves the
    connection usable for the [SELECT] (the connection rolls the failed
    statement back). *)
Definition cast_one (staging_table c : string) : DB () := λ db,
  match alter_column_to_date staging_table c db with
  | (db', Ok _) => (db', Ok ())
  | (db', Raise e) =>
      match select_limit staging_table c 10 db' with
      | (db'', Ok sample_vals) => (db'', Raise (RuntimeError_cast c e sample_vals))
      | (db'', Raise e') => (db'', Raise e')
      end
  end.

Fixpoint cast_each (staging_table : string) (cs : list string) : DB () :=
  match cs with
  | [] => λ db, (db, Ok ())
  | c :: cs' => cast_one staging_table c ;;; cast_each staging_table cs'
  end.

(** The columns whose name contains "date", whatever the case. *)
Definition date_cols (df : DataFrame) : list string :=
  filter (λ c, PyStr.contains "date" (PyStr.lower c) = true) (column_names df).

Definition attempt_cast_date_columns (staging_table : string) (df : DataFrame)
  : DB () :=
  cast_each staging_table (date_cols df).

(** *** Merge Engine *)

Definition pg_text (v : sqlval) : string :=
  match v with
  | SNull => ""
  | SInt z => pretty z
  | SFloat q => float_str q
  | SBool b => if b then "true" else "false"
  | SText s => s
  | SDate d => PyStr.zpad 4 (d_year d) ++ "-" ++ PyStr.zpad 2 (d_month d) ++ "-"
                 ++ PyStr.zpad 2 (d_day d)
  end.

(** Round to nearest, ties to even, as PostgreSQL converts float8 to int4. *)
Definition round_half_even (q : Q) : Z :=
  let f := Qfloor q in
  match Qcompare (q - inject_Z f) (1 # 2) with
  | Lt => f
  | Gt => (f + 1)%Z
  | Eq => if Z.even f then f else (f + 1)%Z
  end.

(** The value an [INSERT] stores in a column of type [to] when the
    expression has type [from]: the same value for equal types, the
    assignment casts among numbers and into text, an error otherwise. *)
Definition pg_assign (from to : sqltype) (v : sqlval) : option sqlval :=
  if decide (from = to) then Some v
  else match from, to, v with
       | _, Text, SNull | Integer, Float, SNull | Float, Integer, SNull => Some SNull
       | _, Text, _ => Some (SText (pg_text v))
       | Integer, Float, SInt z => Some (SFloat (Qred (inject_Z z)))
       | Float, Integer, SFloat q =>
           let z := round_half_even q in
           if in_int4 z then Some (SInt z) else None
       | _, _, _ => None
       end.

(** The row proposed for insertion (PostgreSQL's [EXCLUDED]) from one
    staging row: the listed columns, converted to the sink's types. *)
Definition excluded_row (sink stg : table) (cols : list string) (r : row)
  : option row :=
  vs ← mapM (λ c, from ← column_type c stg;
                  to ← column_type c sink;
                  v ← pg_assign from to (default SNull (r !! c));
                  Some (c, v)) cols;
  Some (list_to_map vs).

(** The tuple an insert stores: a value for every sink column, NULL where
    the statement lists none. *)
Definition inserted_row (sink_cols : list string) (ex : row) : row :=
  list_to_map (map (λ c, (c, default SNull (ex !! c))) sink_cols).

(** [SET c = EXCLUDED.c] for every listed column but the key. *)
Definition do_update (updates : list string) (ex old : row) : row :=
  foldr (λ c acc, <[c := default SNull (ex !! c)]> acc) old updates.

Definition conflicts (key : string) (ex r : row) : bool :=
  bool_decide (r !! key = Some (default SNull (ex !! key))).

(** One proposed row meets the sink: update on conflict, insert otherwise. *)
Definition upsert_row (key : string) (updates sink_cols : list string)
    (rows : list row) (ex : row) : list row :=
  if existsb (conflicts key ex) rows
  then map (λ r, if conflicts key ex r then do_update updates ex r else r) rows
  else (rows ++ [inserted_row sink_cols ex])%list.

(** The statement built in step 5:
    [INSERT INTO sink (cols) SELECT cols FROM staging
     ON CONFLICT (key) DO UPDATE SET c = EXCLUDED.c, ...]. *)
Definition upsert (table_name staging_table unique_key : string)
    (columns : list string) : DB () := λ db,
  let updates := filter (λ c, c ≠ unique_key) columns in
  match columns, updates with
  | [], _ | _, [] => (db, Raise (DatabaseError "syntax error"))
  | _, _ =>
    match db !! table_name, db !! staging_table with
    | Some sink, Some stg =>
        if negb (bool_decide (t_pkey sink = Some unique_key))
        then (db, Raise (DatabaseError
                "no unique constraint matching the ON CONFLICT specification"))
        else
          match mapM (excluded_row sink stg columns) (t_rows stg) with
          | None => (db, Raise (DatabaseError "column missing or of another type"))
          | Some exs =>
              let keys := map (λ ex : row, default SNull (ex !! unique_key)) exs in
              if negb (forallb (λ v, negb (is_null v)) keys)
              then (db, Raise (DatabaseError "null value in key column"))
              else if negb (bool_decide (NoDup keys))
              then (db, Raise (DatabaseError
                      "ON CONFLICT DO UPDATE cannot affect row a second time"))
              else
                let rows' := foldl (upsert_row unique_key updates (t_columns sink).*1)
                                   (t_rows sink) exs in
                (<[table_name := mkTable (t_columns sink) (t_pkey sink) rows']> db,
                 Ok ())
          end
    | _, _ => (db, Raise (DatabaseError "relation does not exist"))
    end
  end.

(** [with engine.begin() as conn]: the merge and the drop of the staging
    table commit together, or not at all. *)
Definition upsert_transaction (table_name staging_table unique_key : string)
    (columns : list string) : DB () := λ db,
  match (upsert table_name staging_table unique_key columns ;;;
         drop_table_if_exists staging_table) db with
  | (db', Ok u) => (db', Ok u)
  | (_, Raise e) => (db, Raise e)
  end.

Definition staging_name (table_name : string) : string :=
  table_name ++ "_staging".

(** The [except] clause logs and re-raises: the outcome is that of the
    [try] body. *)
Definition load_df_to_postgres_upsert (df : DataFrame)
    (table_name unique_key : string) : DB () :=
  (λ db, if negb (has_table table_name db)
         then create_table_if_not_exists table_name (head0 df) db
         else (db, Ok ())) ;;;
  let staging_table := staging_name table_name in
  create_staging_table staging_table df ;;;
  copy_df_to_table_via_copy df staging_table ;;;
  attempt_cast_date_columns staging_table df ;;;
  upsert_transaction table_name staging_table unique_key (column_names df).

End Load.

(** ** Orchestrator *)

(** The collaborators the Orchestrator calls and this module does not
    define the substance of: the object store behind
    [download_object_as_df], and the JSON-Schema check behind
    [validate_dataframe_schema] (the schema document is not part of the
    module). *)
Class Collaborators := {
  download_object_as_df : string → result DataFrame;
  validate_dataframe_schema : DataFrame → result (list string)
}.

(** The stages of a run, recorded as they are entered. *)
Inductive stage := StExtract | StTransform | StQuality | StValidate | StLoad.

#[export] Instance stage_eq_dec : EqDecision stage.
Proof. solve_decision. Defined.

Section Orchestrator.
Context `{Config} `{Parsers} `{Collaborators}.

Definition load_stage (perform_upsert : bool) (df_clean : DataFrame) : DB () :=
  if perform_upsert
  then load_df_to_postgres_upsert df_clean TARGET_TABLE UNIQUE_KEY
  else copy_df_to_table_via_copy df_clean TARGET_TABLE.

(** A run answers with the store it leaves, the stages it entered and its
    result. *)
Definition run_etl_from_minio_to_postgres (object_key : string)
    (perform_upsert schema_check : bool)
  : Database → Database * (list stage * result ()) := λ db,
  match download_object_as_df object_key with
  | Raise e => (db, ([StExtract], Raise e))
  | Ok df_raw =>
    match transform_orders_df df_raw with
    | Raise e => (db, ([StExtract; StTransform], Raise e))
    | Ok df_clean =>
      match basic_data_quality_checks df_clean REQUIRED_COLUMNS with
      | _ :: _ =>
          (db, ([StExtract; StTransform; StQuality],
                Raise (ValueError "Data quality checks failed.")))
      | [] =>
        let load trace :=
          let '(db', r) := load_stage perform_upsert df_clean db in
          (db', ((trace ++ [StLoad])%list, r)) in
        if schema_check
        then
          let trace := [StExtract; StTransform; StQuality; StValidate] in
          match validate_dataframe_schema df_clean with
          | Raise e => (db, (trace, Raise e))
          | Ok (_ :: _) => (db, (trace, Raise (ValueError "Schema validation failed.")))
          | Ok [] => load trace
          end
        else load [StExtract; StTransform; StQuality]
      end
    end
  end.

End Orchestrator.

(** ** A small instance of the library readers, for worked examples *)

Module Simple.

Definition leap (y : Z) : bool :=
  ((y mod 4 =? 0) && negb (y mod 100 =? 0) || (y mod 400 =? 0))%Z.

Definition days_in_month (y m : Z) : Z :=
  if (m =? 2)%Z then (if leap y then 29 else 28)
  else if ((m =? 4) || (m =? 6) || (m =? 9) || (m =? 11))%Z then 30 else 31.

(** [YYYY-MM-DD], nothing else. *)
Definition iso_date (s : string) : option date :=
  let '(ys, rest) := PyStr.split_at "-" s in
  rest ← rest;
  let '(ms, ds) := PyStr.split_at "-" rest in
  ds ← ds;
  y ← PyStr.digits ys; m ← PyStr.digits ms; d ← PyStr.digits ds;
  if bool_decide (String.length ys = 4%nat ∧ String.length ms = 2%nat
                  ∧ String.length ds = 2%nat)
     && ((1 <=? m) && (m <=? 12) && (1 <=? d) && (d <=? days_in_month y m))%Z
  then Some (mkDate y m d) else None.

(** Decimal numerals: an optional sign, digits, and an optional fraction. *)
Definition decimal (s : string) : option num :=
  let '(neg, body) := match s with
                      | String "-" r => (true, r)
                      | _ => (false, s)
                      end in
  let sign z := if neg then (- z)%Z else z in
  match PyStr.split_at "." body with
  | (ip, None) => i ← PyStr.digits ip; Some (NInt (sign i))
  | (ip, Some fp) =>
      i ← PyStr.digits ip; f ← PyStr.digits fp;
      let den := Z.to_pos (10 ^ Z.of_nat (String.length fp)) in
      Some (NFloat (Qred (Qmake (sign (i * Zpos den + f)) den)))
  end.

(** Days since 1970-01-01 of a civil date. *)
Definition days_from_civil (y m d : Z) : Z :=
  let y := if (m <=? 2)%Z then (y - 1)%Z else y in
  let era := (y / 400)%Z in
  let yoe := (y - era * 400)%Z in
  let mp := ((m + 9) mod 12)%Z in
  let doy := ((153 * mp + 2) / 5 + d - 1)%Z in
  let doe := (yoe * 365 + yoe / 4 - yoe / 100 + doy)%Z in
  (era * 146097 + doe - 719468)%Z.

Fixpoint frac_digits (fuel : nat) (r : Z) (den : Z) : string :=
  match fuel with
  | O => ""
  | S k => if (r =? 0)%Z then ""
           else pretty ((10 * r) / den)%Z ++ frac_digits k ((10 * r) mod den)%Z den
  end.

Definition decimal_str (q : Q) : string :=
  let n := Z.abs (Qnum q) in
  let den := Zpos (Qden q) in
  let fs := frac_digits 17 (n mod den)%Z den in
  (if (Qnum q <? 0)%Z then "-" else "") ++ pretty (n / den)%Z ++ "."
    ++ (if String.eqb fs "" then "0" else fs).

Definition clock_str (t : timestamp) : string :=
  let secs := (ts_nanos t / 1000000000)%Z in
  PyStr.zpad 4 (ts_year t) ++ "-" ++ PyStr.zpad 2 (ts_month t) ++ "-"
    ++ PyStr.zpad 2 (ts_day t) ++ " " ++ PyStr.zpad 2 (secs / 3600)%Z ++ ":"
    ++ PyStr.zpad 2 ((secs / 60) mod 60)%Z ++ ":" ++ PyStr.zpad 2 (secs mod 60)%Z.

#[export] Instance parsers : Parsers := {|
  str_to_number := decimal;
  to_datetime_cell c :=
    match c with
    | CTime t => Some t
    | CStr s => (λ d, Timestamp (d_year d) (d_month d) (d_day d) 0) <$> iso_date s
    | _ => None
    end;
  timestamp_value t :=
    (days_from_civil (ts_year t) (ts_month t) (ts_day t) * 86400000000000
     + ts_nanos t)%Z;
  float_str := decimal_str;
  timestamp_str := clock_str;
  pg_date_in := iso_date
|}.

End Simple.

(** ** Vocabulary of the statements below *)

(** The storage type each dtype stands for. *)
Definition sqltype_of_dtype (d : dtype) : sqltype :=
  match d with
  | DInt64 => Integer
  | DFloat64 => Float
  | DBool => Boolean
  | DDatetime64 => Date
  | DObject => Text
  end.

(** The three checks of the Quality Gate, as propositions. *)
Definition column_missing (required_columns : list string) (df : DataFrame) : Prop :=
  ∃ c, c ∈ required_columns ∧ c ∉ column_names df.

Definition key_duplicated (key : string) (df : DataFrame) : Prop :=
  key ∈ column_names df
  ∧ ∃ (i j : nat) (v : list cell),
      i ≠ j ∧ key_rows key df !! i = Some v ∧ key_rows key df !! j = Some v.

(** A column is well typed when its values fit its dtype. *)
Definition cell_conforms (d : dtype) (c : cell) : bool :=
  match d, c with
  | DInt64, CInt _ => true
  | DFloat64, (CFloat _ | CNull) => true
  | DBool, CBool _ => true
  | DDatetime64, (CTime _ | CNull) => true
  | DObject, _ => true
  | _, _ => false
  end.

Definition series_typed (s : Series) : bool :=
  forallb (cell_conforms (s_dtype s)) (s_values s).

(** The rows that survive a filter: all of them, or those a mask keeps. *)
Definition keep {A} (mask : option (list bool)) (l : list A) : list A :=
  match mask with
  | Some m => select_mask m l
  | None => l
  end.
Arguments keep : simpl never.

(** The number a value stands for in arithmetic, if it is one. *)
Definition cell_value (c : cell) : option Q :=
  match c with
  | CInt z => Some (inject_Z z)
  | CFloat x => Some x
  | CBool b => Some (if b then 1 else 0)%Q
  | _ => None
  end.

Definition num_value (n : num) : Q :=
  match n with
  | NInt z => inject_Z z
  | NFloat x => x
  end.

Section Coercions.
Context `{Parsers}.

(** The quantity a raw value is coerced to, in the spec's words: numeric
    or a typed zero, and (the column being integer) whole. *)
Definition quantity_of (c : cell) : cell :=
  CInt (match to_numeric_cell c with
        | Some (NInt z) => z
        | Some (NFloat x) => trunc x
        | None => 0
        end).

(** The price a raw value is coerced to: the number it denotes, or the
    float zero. *)
Definition price_of (c c' : cell) : Prop :=
  match to_numeric_cell c with
  | Some n => ∃ v, cell_value c' = Some v ∧ (v == num_value n)%Q
  | None => c' = CFloat 0
  end.

End Coercions.

(** A one-order frame for worked examples. *)
Definition one_order (quantity price : cell) : DataFrame :=
  mkFrame [0%nat]
    [("order_id", series_of [CInt 1]);
     ("quantity", series_of [quantity]);
     ("price", series_of [price])].

(** The values of a column of a returned frame. *)
Definition returned_column (name : string) (r : result DataFrame)
  : option (list cell) :=
  match r with
  | Ok df => match get_series name df with
             | Ok s => Some (s_values s)
             | Raise _ => None
             end
  | Raise _ => None
  end.

(** Two orders, the second with a date that is none. *)
Definition bad_date_orders : DataFrame :=
  mkFrame [0; 1]%nat
    [("order_id", series_of [CInt 1; CInt 2]);
     ("order_date", series_of [CStr "2024-01-01"; CStr "not-a-date"])].

(** The sub-stages of the upsert load, named. *)
Definition ensure_target (df : DataFrame) (table_name : string) : DB () := λ db,
  if negb (has_table table_name db)
  then create_table_if_not_exists table_name (head0 df) db
  else (db, Ok ()).

Section LoadStages.
Context `{Parsers}.

(** Staging create, bulk copy and date coercion. *)
Definition fill_staging (df : DataFrame) (staging_table : string) : DB () :=
  create_staging_table staging_table df ;;;
  copy_df_to_table_via_copy df staging_table ;;;
  attempt_cast_date_columns staging_table df.

(** Everything after the sink is known to exist. *)
Definition merge_stages (df : DataFrame) (table_name unique_key : string)
  : DB () :=
  fill_staging df (staging_name table_name) ;;;
  upsert_transaction table_name (staging_name table_name) unique_key
    (column_names df).

End LoadStages.

(** Modelled from the spec: a sink provisioned beforehand (its DDL is not
    among the sources), keyed on [order_id], holding nothing. *)
Definition provisioned_sink : Database :=
  {[ "orders_clean" :=
       mkTable [("order_id", Integer); ("order_date", Date)] (Some "order_id") [] ]}.

(** The key a proposed row carries. *)
Definition key_of (key : string) (ex : row) : sqlval := default SNull (ex !! key).

(** A stored row agrees with a proposed row on the updated columns. *)
Definition agrees (updates : list string) (ex r : row) : Prop :=
  ∀ c, c ∈ updates → r !! c = Some (default SNull (ex !! c)).

(** The proposed row has been merged: its key is stored, and every stored
    row with its key carries its values. *)
Definition merged_for (key : string) (updates : list string)
    (rows : list row) (ex : row) : Prop :=
  (∃ r, r ∈ rows ∧ r !! key = Some (key_of key ex))
  ∧ ∀ r, r ∈ rows → r !! key = Some (key_of key ex) → agrees updates ex r.

Section Stored.
Context `{Parsers}.

(** The value column [c] of staging row [r] is stored as in the sink: the
    staging value, converted to the sink column's type. *)
Definition stored_as (sink stg : table) (c : string) (r : row) (v : sqlval)
  : Prop :=
  ∃ from to,
    column_type c stg = Some from ∧ column_type c sink = Some to
    ∧ pg_assign from to (default SNull (r !! c)) = Some v.

End Stored.

(** The sink and the staging table of the spec's merge example. *)
Definition example_sink : table :=
  mkTable [("order_id", Integer); ("status", Text); ("total_price", Integer)]
    (Some "order_id")
    [ {[ "order_id" := SInt 1; "status" := SText "pending";
         "total_price" := SInt 10 ]} ].

Definition example_staging (rows : list row) : table :=
  mkTable [("order_id", Integer); ("status", Text); ("total_price", Integer)]
    None rows.

Definition delivered_order_1 : row :=
  {[ "order_id" := SInt 1; "status" := SText "delivered";
     "total_price" := SInt 12 ]}.

Definition new_order_2 : row :=
  {[ "order_id" := SInt 2; "status" := SText "new"; "total_price" := SInt 5 ]}.

Definition example_store (rows : list row) : Database :=
  {[ "orders_clean" := example_sink;
     "orders_clean_staging" := example_staging rows ]}.

(** Two raw orders as the object store hands them over. *)
Definition sample_orders : DataFrame :=
  mkFrame [0; 1]%nat
    [(" Order_ID", series_of [CInt 1; CInt 2]);
     ("user_id", series_of [CInt 7; CInt 8]);
     ("product_id", series_of [CInt 30; CInt 31]);
     ("Quantity", series_of [CInt 3; CStr "2.9"]);
     ("price", series_of [CFloat (5 # 2); CInt 4]);
     ("order_date", series_of [CStr "2024-01-01"; CStr "2024-01-02"])].

(** Modelled from the spec: a sink provisioned for them beforehand (its
    DDL is not among the sources), keyed on [order_id]. *)
Definition orders_sink : Database :=
  {[ "orders_clean" :=
       mkTable [("order_id", Integer); ("user_id", Integer);
                ("product_id", Integer); ("quantity", Integer);
                ("price", Float); ("order_date", Date);
                ("total_price", Float)]
         (Some "order_id") [] ]}.

(** The sink table of a store, under the configured name. *)
Definition sink_of `{Config} (db : Database) : option table :=
  db !! TARGET_TABLE.

(** Three raw orders, the second without a key. *)
Definition orders_with_null_key : DataFrame :=
  mkFrame [0; 1; 2]%nat
    [("order_id", series_of [CInt 1; CNull; CInt 3]);
     ("status", series_of [CStr "a"; CStr "b"; CStr "c"])].

(** A sink for the one-order frame. *)
Definition one_order_sink : Database :=
  {[ "orders_clean" :=
       mkTable [("order_id", Integer); ("quantity", Integer);
                ("price", Float); ("total_price", Float)]
         (Some "order_id") [] ]}.

(** The staging table of [bad_date_orders] after the bulk copy. *)
Definition bad_date_staging : table :=
  mkTable [("order_id", Integer); ("order_date", Text)] None
    [ {[ "order_id" := SInt 1; "order_date" := SText "2024-01-01" ]};
      {[ "order_id" := SInt 2; "order_date" := SText "not-a-date" ]} ].

(** The stages a run entered. *)
Definition stages_entered (out : Database * (list stage * result ())) : list stage :=
  fst (snd out).

(** A collaborator pair for worked examples: one object in the store, and
    a schema check that accepts everything. *)
Definition fixed_source (df : DataFrame) : Collaborators :=
  {| download_object_as_df := λ _, Ok df;
     validate_dataframe_schema := λ _, Ok [] |}.

(** A column of a table is a date column: declared [date], and holding
    dates and NULLs only. *)
Definition dated (c : string) (t : table) : Prop :=
  column_type c t = Some Date
  ∧ Forall (λ r : row, r !! c = Some SNull ∨ ∃ d, r !! c = Some (SDate d))
           (t_rows t).

(** ** Structural validation ([validate_dataframe_schema]) *)

Module Schema.

(** One error of the JSON-Schema validator: its message and the path of
    the offending field. *)
Record validation_error := mkError {
  message : string;
  path : list string
}.

(** The schema document on disk and the validator (jsonschema's
    [Draft7Validator]) are outside the module: a path either holds a
    schema or does not exist, and the validator lists the errors of a
    record. *)
Class Validator := {
  schema : Type;
  read_schema : string → option schema;
  iter_errors : schema → list (string * cell) → list validation_error
}.

(** What the module raises itself here. *)
Inductive outcome (A : Type) :=
| Returned (a : A)
| FileNotFoundError (msg : string).
Arguments Returned {A} a.
Arguments FileNotFoundError {A} msg.

(** One entry of the list [validate_dataframe_schema] returns. *)
Record schema_msg := mkMsg {
  row_index : nat;
  errors : list string;
  row : list (string * cell)
}.

(** [df.to_dict(orient="records")] *)
Definition to_dict_records (df : DataFrame) : list (list (string * cell)) :=
  map (λ i, map (λ p, (p.1, nth i (s_values p.2) CNull)) (columns df))
      (seq 0 (nrows df)).

Section Validation.
Context `{Validator}.

Definition load_json_schema (path : string) : outcome schema :=
  match read_schema path with
  | None => FileNotFoundError ("Schema file not found: " ++ path)
  | Some s => Returned s
  end.

Definition validate_row_with_schema (row : list (string * cell)) (s : schema)
  : list string :=
  map (λ err, message err ++ " (path: " ++ String.concat "/" (path err) ++ ")")
      (iter_errors s row).

(** The loop over [enumerate(rows)], from index [i] on, with the messages
    gathered so far. *)
Fixpoint validate_rows (s : schema) (sample_limit : Z) (i : nat)
    (rows : list (list (string * cell))) (msgs : list schema_msg)
  : list schema_msg :=
  match rows with
  | [] => msgs
  | row :: rest =>
      if (sample_limit <=? Z.of_nat i)%Z then msgs
      else
        let errors := validate_row_with_schema row s in
        validate_rows s sample_limit (S i) rest
          (match errors with
           | [] => msgs
           | _ => (msgs ++ [mkMsg i errors row])%list
           end)
  end.

Definition validate_dataframe_schema (df : DataFrame) (schema_path : string)
    (sample_limit : Z) : outcome (list schema_msg) :=
  match load_json_schema schema_path with
  | FileNotFoundError msg => FileNotFoundError msg
  | Returned s => Returned (validate_rows s sample_limit 0 (to_dict_records df) [])
  end.

End Validation.

End Schema.

(** ** Object store ([download_object_as_df], [upload_sample_to_minio]) *)

Module ObjectStore.

(** The S3 service as the module uses it: buckets of objects, each a key
    and its content.  The local files an upload reads are a map from
    paths to contents. *)
Abbreviation S3 := (gmap string (gmap string string)).
Abbreviation Files := (gmap string string).

Inductive error :=
| NoSuchBucket (bucket : string)
| NoSuchKey (key : string)
| BucketAlreadyOwnedByYou (bucket : string)
| FileNotFoundError (path : string)
| ParserError (msg : string).

Inductive outcome (A : Type) :=
| Returned (a : A)
| Raised (e : error).
Arguments Returned {A} a.
Arguments Raised {A} e.

(** The bucket of the deployment and pandas' two readers. *)
Class Settings := {
  MINIO_BUCKET : string;
  read_csv : string → outcome DataFrame;
  read_json : string → outcome DataFrame
}.

Definition get_object (bucket key : string) (s3 : S3) : outcome string :=
  match s3 !! bucket with
  | None => Raised (NoSuchBucket bucket)
  | Some objects =>
      match objects !! key with
      | None => Raised (NoSuchKey key)
      | Some content => Returned content
      end
  end.

Definition create_bucket (bucket : string) (s3 : S3) : S3 * outcome () :=
  match s3 !! bucket with
  | Some _ => (s3, Raised (BucketAlreadyOwnedByYou bucket))
  | None => (<[bucket := ∅]> s3, Returned ())
  end.

Definition put_object (bucket key body : string) (s3 : S3) : S3 * outcome () :=
  match s3 !! bucket with
  | None => (s3, Raised (NoSuchBucket bucket))
  | Some objects => (<[bucket := <[key := body]> objects]> s3, Returned ())
  end.

(** [s.endswith(suffix)] *)
Definition endswith (suffix s : string) : bool :=
  String.prefix (String.rev suffix) (String.rev s).

(** [os.path.basename]: what follows the last [/].  [cur] is what follows
    the last [/] seen so far, [rest] what is still to be scanned. *)
Fixpoint last_segment (cur rest : string) : string :=
  match rest with
  | EmptyString => cur
  | String c r =>
      if Ascii.eqb c "/" then last_segment r r else last_segment cur r
  end.

Definition basename (p : string) : string := last_segment p p.

Section Store.
Context `{Settings}.

Definition download_object_as_df (key : string) (s3 : S3) : outcome DataFrame :=
  match get_object MINIO_BUCKET key s3 with
  | Raised e => Raised e
  | Returned content =>
      if endswith ".csv" (PyStr.lower key) then read_csv content
      else read_json content
  end.

Definition upload_sample_to_minio (local_path : string)
    (object_key : option string) (files : Files) (s3 : S3) : S3 * outcome () :=
  let object_key :=
    match object_key with
    | None => basename local_path
    | Some k => k
    end in
  (* try: create_bucket  except Exception: pass *)
  let s3 := (create_bucket MINIO_BUCKET s3).1 in
  match files !! local_path with
  | None => (s3, Raised (FileNotFoundError local_path))
  | Some body => put_object MINIO_BUCKET object_key body s3
  end.

End Store.

(** [upload_file_to_minio] of the seeding script. *)
Definition upload_file_to_minio (local_path bucket object_key : string)
    (files : Files) (s3 : S3) : S3 * outcome () :=
  match files !! local_path with
  | None => (s3, Raised (FileNotFoundError local_path))
  | Some body =>
      let s3 := (create_bucket bucket s3).1 in
      put_object bucket object_key body s3
  end.

End ObjectStore.

(** ** Further worked examples *)


(** One order with a date the store can read. *)
Definition one_dated_order : DataFrame :=
  mkFrame [0%nat]
    [("order_id", series_of [CInt 1]);
     ("order_date", series_of [CStr "2024-01-01"])].

(** A store holding an empty, unconstrained table for [bad_date_orders]. *)
Definition plain_store : Database :=
  {[ "orders_raw" := mkTable (frame_columns bad_date_orders) None [] ]}.

(** A schema check for worked examples: one schema document, listing the
    fields that must not be null. *)
Definition example_validator : Schema.Validator :=
  {| Schema.schema := list string;
     Schema.read_schema := λ p,
       if String.eqb p "schemas/orders_schema.json" then Some ["order_id"]
       else None;
     Schema.iter_errors := λ s row,
       map (λ f, Schema.mkError "None is not of type 'integer'" [f])
         (List.filter
            (λ f, existsb (λ p : string * cell, String.eqb p.1 f && isna p.2) row)
            s) |}.

(** An object store for worked examples: the bucket of the deployment, a
    CSV reader that knows one document, and no JSON reader. *)
Definition example_settings : ObjectStore.Settings :=
  {| ObjectStore.MINIO_BUCKET := "raw-data";
     ObjectStore.read_csv := λ content,
       if String.eqb content "order_id,order_date" then
         ObjectStore.Returned (mkFrame [] [("order_id", series_of []);
                                           ("order_date", series_of [])])
       else ObjectStore.Raised (ObjectStore.ParserError content);
     ObjectStore.read_json := λ content,
       ObjectStore.Raised (ObjectStore.ParserError content) |}.

Definition example_files : ObjectStore.Files :=
  {[ "sample_data/orders_sample.csv" := "order_id,order_date" ]}.

(** * Properties *)

(** ** Type Inferencer *)

Lemma pandas_dtype_to_sqlalchemy_dtype (col_name : string) (series : Series) :
  pandas_dtype_to_sqlalchemy col_name series
  = (col_name, sqltype_of_dtype (s_dtype series)).
Proof.
  unfold pandas_dtype_to_sqlalchemy, is_integer_dtype, is_float_dtype,
    is_bool_dtype, is_datetime64_any_dtype.
  destruct (s_dtype series); reflexivity.
Qed.

(** C4, as the spec words it, fails on its own date example: a column of
    ISO date strings is an object column, and the Type Inferencer answers
    TEXT for it, not DATE. *)
Lemma C4_date_strings_counterexample :
  pandas_dtype_to_sqlalchemy "order_date"
    (series_of [CStr "2024-01-01"; CStr "2024-01-02"])
  ≠ ("order_date", Date).
Proof. vm_compute. discriminate. Qed.

(** C4 (amended): the Type Inferencer is a total function of the column's
    dtype, tried in the order int64, float64, bool, datetime64, with TEXT
    for everything else.  [1,2,3] infers INTEGER, [1.5, 2] infers FLOAT,
    booleans infer BOOLEAN, timestamps infer DATE, ["a","b"] infers TEXT,
    and so does a column of date strings such as
    ["2024-01-01","2024-01-02"]. *)
Theorem C4_type_inferencer_by_dtype :
  (∀ (col_name : string) (series : Series),
      pandas_dtype_to_sqlalchemy col_name series
      = (col_name, match s_dtype series with
                   | DInt64 => Integer
                   | DFloat64 => Float
                   | DBool => Boolean
                   | DDatetime64 => Date
                   | DObject => Text
                   end))
  ∧ pandas_dtype_to_sqlalchemy "c" (series_of [CInt 1; CInt 2; CInt 3])
    = ("c", Integer)
  ∧ pandas_dtype_to_sqlalchemy "c" (series_of [CFloat 1.5; CInt 2])
    = ("c", Float)
  ∧ pandas_dtype_to_sqlalchemy "c" (series_of [CBool true; CBool false])
    = ("c", Boolean)
  ∧ pandas_dtype_to_sqlalchemy "c"
      (series_of [CTime (Timestamp 2024 1 1 0); CTime (Timestamp 2024 1 2 0)])
    = ("c", Date)
  ∧ pandas_dtype_to_sqlalchemy "c" (series_of [CStr "a"; CStr "b"])
    = ("c", Text)
  ∧ pandas_dtype_to_sqlalchemy "c"
      (series_of [CStr "2024-01-01"; CStr "2024-01-02"])
    = ("c", Text).
Proof.
  split; [apply pandas_dtype_to_sqlalchemy_dtype |].
  repeat split; reflexivity.
Qed.

(** ** Quality Gate *)

Lemma not_NoDup_witness {A} `{EqDecision A} (l : list A) :
  ¬ NoDup l → ∃ (i j : nat) (v : A), i ≠ j ∧ l !! i = Some v ∧ l !! j = Some v.
Proof.
  induction l as [|x l IH]; intros Hnd.
  - destruct Hnd. constructor.
  - destruct (decide (x ∈ l)) as [Hin|Hout].
    + apply list_elem_of_lookup in Hin as [j Hj].
      exists 0%nat, (S j), x. by repeat split.
    + destruct IH as (i & j & v & Hne & Hi & Hj).
      { intros Hl. apply Hnd. by constructor. }
      exists (S i), (S j), v. repeat split; [lia | done | done].
Qed.

Section QualityGateFacts.
Context `{Config}.

Lemma missing_columns_spec (required_columns : list string) (df : DataFrame) :
  missing_columns required_columns df ≠ [] ↔ column_missing required_columns df.
Proof.
  unfold missing_columns, column_missing. split.
  - destruct (filter _ _) as [|c l] eqn:E; [done |]. intros _. exists c.
    assert (c ∈ filter (λ c, c ∉ column_names df) required_columns) as Hc.
    { rewrite E. left. }
    apply list_elem_of_filter in Hc as [? ?]. done.
  - intros (c & Hin & Hout) Hnil.
    assert (c ∈ filter (λ c, c ∉ column_names df) required_columns) as Hc.
    { apply list_elem_of_filter. done. }
    rewrite Hnil in Hc. inversion Hc.
Qed.

Lemma duplicated_any_spec (key : string) (df : DataFrame) :
  has_column key df && duplicated_any key df = true ↔ key_duplicated key df.
Proof.
  unfold has_column, duplicated_any, key_duplicated.
  rewrite andb_true_iff, bool_decide_eq_true, negb_true_iff, bool_decide_eq_false.
  apply and_iff_compat_l. split.
  - apply not_NoDup_witness.
  - intros (i & j & v & Hne & Hi & Hj) Hnd. apply Hne.
    by eapply NoDup_lookup.
Qed.

Lemma quality_report_nonempty (df : DataFrame) (required_columns : list string) :
  basic_data_quality_checks df required_columns ≠ []
  ↔ column_missing required_columns df ∨ nrows df = 0%nat
    ∨ key_duplicated UNIQUE_KEY df.
Proof.
  rewrite <- missing_columns_spec, <- duplicated_any_spec.
  unfold basic_data_quality_checks, append_msg.
  destruct (missing_columns required_columns df) as [|c miss];
    destruct (Nat.eqb_spec (nrows df) 0);
    destruct (has_column UNIQUE_KEY df && duplicated_any UNIQUE_KEY df);
    simpl; split; try done; try (intros _; auto; fail);
    intros [?|[?|?]]; done.
Qed.

(** Every failing check contributes its own message. *)
Lemma quality_report_length (df : DataFrame) (required_columns : list string) :
  length (basic_data_quality_checks df required_columns)
  = ((if decide (missing_columns required_columns df = []) then 0 else 1)
     + (if decide (nrows df = 0) then 1 else 0)
     + (if has_column UNIQUE_KEY df && duplicated_any UNIQUE_KEY df then 1 else 0))%nat.
Proof.
  unfold basic_data_quality_checks, append_msg.
  destruct (missing_columns required_columns df) as [|c miss];
    destruct (Nat.eqb_spec (nrows df) 0);
    destruct (has_column UNIQUE_KEY df && duplicated_any UNIQUE_KEY df);
    repeat case_decide; try done; simpl; rewrite ?length_app; simpl; lia.
Qed.

End QualityGateFacts.

Section OrchestratorFacts.
Context `{Config} `{Parsers} `{Collaborators}.

(** C5: once extraction and transformation returned, the run stops at the
    Quality Gate with the data-quality error, the store untouched and
    neither validation nor load entered, exactly when the report is
    non-empty; the report is non-empty exactly when a required column is
    missing, there is no row, or the unique-key column repeats a value;
    and each of the three checks that fails adds its own message. *)
Theorem C5_quality_gate_hard_stop
    (object_key : string) (perform_upsert schema_check : bool)
    (db : Database) (df_raw df_clean : DataFrame) :
  download_object_as_df object_key = Ok df_raw →
  transform_orders_df df_raw = Ok df_clean →
  let report := basic_data_quality_checks df_clean REQUIRED_COLUMNS in
  let out := run_etl_from_minio_to_postgres object_key perform_upsert
               schema_check db in
  (report ≠ [] ↔
     out = (db, ([StExtract; StTransform; StQuality],
                 Raise (ValueError "Data quality checks failed."))))
  ∧ (report ≠ [] →
       (StValidate ∉ stages_entered out) ∧ (StLoad ∉ stages_entered out))
  ∧ (report = [] →
       StValidate ∈ stages_entered out ∨ StLoad ∈ stages_entered out)
  ∧ (report ≠ [] ↔
       column_missing REQUIRED_COLUMNS df_clean ∨ nrows df_clean = 0%nat
       ∨ key_duplicated UNIQUE_KEY df_clean)
  ∧ length report
    = ((if decide (missing_columns REQUIRED_COLUMNS df_clean = []) then 0 else 1)
       + (if decide (nrows df_clean = 0) then 1 else 0)
       + (if has_column UNIQUE_KEY df_clean && duplicated_any UNIQUE_KEY df_clean
          then 1 else 0))%nat.
Proof.
  intros Hdl Htr report out.
  assert (report = [] →
          StValidate ∈ stages_entered out ∨ StLoad ∈ stages_entered out) as Hgo.
  { intros Hnil. subst out. unfold run_etl_from_minio_to_postgres.
    rewrite Hdl, Htr. fold report. rewrite Hnil.
    destruct schema_check.
    - left. destruct (validate_dataframe_schema df_clean) as [[|? ?]|?];
        [destruct (load_stage _ _ _) | |]; unfold stages_entered; simpl;
        apply (bool_decide_unpack _); reflexivity.
    - right. destruct (load_stage _ _ _). unfold stages_entered. simpl.
      apply (bool_decide_unpack _). reflexivity. }
  assert (report ≠ [] →
          out = (db, ([StExtract; StTransform; StQuality],
                      Raise (ValueError "Data quality checks failed.")))) as Hstop.
  { intros Hne. subst out. unfold run_etl_from_minio_to_postgres.
    rewrite Hdl, Htr. fold report. by destruct report. }
  assert ((StValidate ∉ [StExtract; StTransform; StQuality])
          ∧ (StLoad ∉ [StExtract; StTransform; StQuality])) as [HnV HnL].
  { split; apply (bool_decide_unpack _); reflexivity. }
  split; [split; [exact Hstop |] |].
  { intros Hout Hnil. destruct (Hgo Hnil) as [Hin|Hin];
      rewrite Hout in Hin; unfold stages_entered in Hin; simpl in Hin; done. }
  split.
  { intros Hne. rewrite (Hstop Hne). unfold stages_entered. simpl. done. }
  split; [exact Hgo |].
  split; [apply quality_report_nonempty | apply quality_report_length].
Qed.

End OrchestratorFacts.

(** ** Frames *)

Lemma columns_named_cons (name : string) (idx : list nat) (p : string * Series)
    (cols : list (string * Series)) :
  columns_named name (mkFrame idx (p :: cols))
  = if decide (p.1 = name) then p.2 :: columns_named name (mkFrame idx cols)
    else columns_named name (mkFrame idx cols).
Proof.
  unfold columns_named. simpl. rewrite filter_cons. simpl.
  by destruct (decide (p.1 = name)).
Qed.

(** Relabelling nothing, a column-wise map acts on the columns of a label. *)
Lemma columns_named_map (name : string) (idx idx' : list nat)
    (g : string * Series → string * Series) (cols : list (string * Series)) :
  (∀ p, (g p).1 = p.1) →
  columns_named name (mkFrame idx' (map g cols))
  = map (λ p, (g p).2) (filter (λ p, p.1 = name) cols).
Proof.
  intros Hg. induction cols as [|p cols IH]; [done |].
  simpl. rewrite columns_named_cons, IH, filter_cons, Hg.
  by destruct (decide (p.1 = name)).
Qed.

Lemma has_column_named (name : string) (df : DataFrame) :
  has_column name df = true ↔ columns_named name df ≠ [].
Proof.
  unfold has_column, column_names, columns_named.
  rewrite bool_decide_eq_true. destruct df as [idx cols]. simpl.
  induction cols as [|p cols IH]; simpl.
  - split; [intros Hin; inversion Hin | done].
  - rewrite filter_cons, elem_of_cons. destruct (decide (p.1 = name)); simpl.
    + split; [done | auto].
    + rewrite <- IH. split; [intros [?|?]; [congruence | done] | auto].
Qed.

Lemma get_series_Ok (name : string) (df : DataFrame) (s : Series) :
  get_series name df = Ok s ↔ columns_named name df = [s].
Proof.
  unfold get_series. destruct (columns_named name df) as [|x [|y l]];
    split; intros Heq; try discriminate; congruence.
Qed.

Lemma columns_named_set_other (n m : string) (s : Series) (df : DataFrame) :
  n ≠ m → columns_named n (set_column m s df) = columns_named n df.
Proof.
  intros Hne. unfold set_column. destruct (has_column m df).
  - destruct df as [idx cols]. simpl. clear -Hne.
    induction cols as [|p cols IH]; [done |].
    simpl. rewrite !columns_named_cons, IH.
    destruct (decide (p.1 = m)) as [Hpm|Hpm]; simpl; [| done].
    destruct (decide (m = n)) as [Hmn|Hmn]; [congruence |].
    destruct (decide (p.1 = n)); [congruence | done].
  - unfold columns_named. simpl. rewrite filter_app, filter_cons. simpl.
    rewrite decide_False by done. by rewrite filter_nil, app_nil_r.
Qed.

Lemma columns_named_set_same (n : string) (s : Series) (df : DataFrame) :
  columns_named n (set_column n s df)
  = if has_column n df then map (λ _, s) (columns_named n df) else [s].
Proof.
  unfold set_column. destruct (has_column n df) eqn:Hhas.
  - destruct df as [idx cols]. simpl. clear Hhas.
    induction cols as [|p cols IH]; [done |].
    simpl. rewrite !columns_named_cons, IH.
    destruct (decide (p.1 = n)) as [Hpn|Hpn]; simpl.
    + by rewrite decide_True.
    + by rewrite decide_False.
  - assert (columns_named n df = []) as Hnil.
    { destruct (columns_named n df) eqn:E; [done |].
      assert (has_column n df = true) as Hc by (apply has_column_named; congruence).
      congruence. }
    unfold columns_named in *. simpl. rewrite filter_app, fmap_app, Hnil.
    rewrite filter_cons. simpl. by rewrite decide_True.
Qed.

Lemma get_series_set_same (n : string) (s x : Series) (df : DataFrame) :
  get_series n df = Ok x → get_series n (set_column n s df) = Ok s.
Proof.
  rewrite !get_series_Ok, columns_named_set_same. intros Hx.
  assert (has_column n df = true) as -> by (apply has_column_named; congruence).
  by rewrite Hx.
Qed.

Lemma get_series_set_other (n m : string) (s : Series) (df : DataFrame) :
  n ≠ m → get_series n (set_column m s df) = get_series n df.
Proof. intros Hne. unfold get_series. by rewrite columns_named_set_other. Qed.

Lemma has_column_set_other (n m : string) (s : Series) (df : DataFrame) :
  n ≠ m → has_column n (set_column m s df) = has_column n df.
Proof.
  intros Hne. apply eq_true_iff_eq.
  by rewrite !has_column_named, columns_named_set_other.
Qed.

Lemma has_column_set_same (n : string) (s : Series) (df : DataFrame) :
  has_column n (set_column n s df) = true.
Proof.
  apply has_column_named. rewrite columns_named_set_same.
  destruct (has_column n df) eqn:Hhas; [| done].
  apply has_column_named in Hhas. by destruct (columns_named n df).
Qed.


Lemma select_mask_sublist {A} (mask : list bool) (l : list A) :
  select_mask mask l `sublist_of` l.
Proof.
  revert l. induction mask as [|b mask IH]; intros [|x l]; simpl;
    try apply sublist_nil_l.
  destruct b; [by apply sublist_skip | by apply sublist_cons].
Qed.

Lemma select_mask_zip_with {A B C} (f : A → B → C) (mask : list bool)
    (a : list A) (b : list B) :
  zip_with f (select_mask mask a) (select_mask mask b)
  = select_mask mask (zip_with f a b).
Proof.
  revert a b. induction mask as [|m mask IH]; intros [|x a] [|y b]; simpl;
    try done.
  all: destruct m; simpl; rewrite ?IH; try done.
  all: by destruct (select_mask mask a).
Qed.

(** A mask computed from positions keeps only values its test accepts. *)
Lemma select_mask_seq_Forall {A} (P : A → Prop) (f : nat → bool)
    (full : list A) (a n : nat) :
  (∀ i x, full !! i = Some x → f i = true → P x) →
  Forall P (select_mask (map f (seq a n)) (drop a full)).
Proof.
  intros Hf. revert a. induction n as [|n IH]; intros a; simpl.
  - constructor.
  - destruct (drop a full) as [|x l] eqn:E; [constructor |].
    assert (full !! a = Some x) as Hx.
    { rewrite <- (Nat.add_0_r a), <- lookup_drop, E. done. }
    assert (l = drop (S a) full) as ->.
    { replace (S a) with (a + 1)%nat by lia. by rewrite <- drop_drop, E. }
    destruct (f a) eqn:Hfa; [constructor; [by eapply Hf |] |]; apply IH.
Qed.

Lemma columns_named_reset_index (n : string) (df : DataFrame) :
  columns_named n (reset_index df) = columns_named n df.
Proof. done. Qed.

Lemma columns_named_dropna (n k : string) (df : DataFrame) :
  columns_named n (dropna k df)
  = map (λ s, mkSeries (s_dtype s) (select_mask (dropna_mask k df) (s_values s)))
        (columns_named n df).
Proof.
  unfold dropna.
  rewrite (columns_named_map n (index df) _
             (λ p, (p.1, mkSeries (s_dtype p.2)
                           (select_mask (dropna_mask k df) (s_values p.2)))))
    by (intros; reflexivity).
  unfold columns_named. by rewrite <- list_fmap_compose.
Qed.

(** No column under the key label keeps a null through [dropna]. *)
Lemma dropna_key_notna (k : string) (df : DataFrame) (s : Series) :
  s ∈ columns_named k (dropna k df) → Forall (λ c, isna c = false) (s_values s).
Proof.
  rewrite columns_named_dropna. intros Hs.
  apply list_elem_of_fmap in Hs as (s0 & -> & Hs0). simpl.
  unfold dropna_mask.
  apply (select_mask_seq_Forall _ _ (s_values s0) 0).
  intros i x Hx Hrow. unfold notna_row in Hrow.
  rewrite forallb_forall in Hrow.
  specialize (Hrow s0). rewrite <- list_elem_of_In in Hrow.
  specialize (Hrow Hs0). rewrite (nth_lookup_Some _ _ _ _ Hx) in Hrow.
  by destruct (isna x).
Qed.

(** ** Transformer *)

Section TransformFacts.
Context `{Config} `{Parsers}.

(** The last two steps of the Transformer. *)
Lemma transform_orders_df_inv (df df' : DataFrame) :
  transform_orders_df df = Ok df' →
  ∃ df1 df2,
    let df0 := rename_columns (λ c, PyStr.lower (PyStr.strip c)) df in
    (if has_column "order_date" df0 then normalise_order_date df0 else Ok df0)
    = Ok df1
    ∧ (if has_column "quantity" df1 && has_column "price" df1
       then derive_total_price df1 else Ok df1) = Ok df2
    ∧ df' = reset_index (if has_column UNIQUE_KEY df2
                         then dropna UNIQUE_KEY df2 else df2).
Proof.
  unfold transform_orders_df. intros Htr.
  destruct (if has_column "order_date" _ then _ else _) as [df1|e] eqn:E1;
    [| discriminate].
  simpl in Htr.
  destruct (if has_column "quantity" df1 && _ then _ else _) as [df2|e] eqn:E2;
    [| discriminate].
  simpl in Htr. exists df1, df2. simpl. by inversion Htr.
Qed.

(** C8: in the frame the Transformer returns, no column under the
    unique-key label holds a null, and the rows are labelled
    [0 .. n-1] without gaps. *)
Theorem C8_no_null_unique_key (df df' : DataFrame) :
  transform_orders_df df = Ok df' →
  (∀ s, s ∈ columns_named UNIQUE_KEY df' →
        Forall (λ c, isna c = false) (s_values s))
  ∧ index df' = seq 0 (nrows df').
Proof.
  intros Htr. apply transform_orders_df_inv in Htr as (df1 & df2 & _ & _ & ->).
  split.
  - intros s. rewrite columns_named_reset_index.
    destruct (has_column UNIQUE_KEY df2) eqn:Hkey.
    + apply dropna_key_notna.
    + intros Hs. assert (columns_named UNIQUE_KEY df2 ≠ []) as Hne.
      { intros Hnil. rewrite Hnil in Hs. inversion Hs. }
      apply has_column_named in Hne. congruence.
  - unfold reset_index, nrows. simpl. by rewrite length_seq.
Qed.

(** What the quantity/price step leaves behind. *)
Lemma derive_total_price_inv (df df' : DataFrame) :
  derive_total_price df = Ok df' →
  ∃ q p,
    get_series "quantity" df = Ok q ∧ get_series "price" df = Ok p
    ∧ let qs := astype_int (fillna_zero (to_numeric q)) in
      let ps := fillna_zero (to_numeric p) in
      df' = set_column "total_price" (mul_series qs ps)
              (set_column "price" ps (set_column "quantity" qs df)).
Proof.
  unfold derive_total_price. intros Hd.
  destruct (get_series "quantity" df) as [q|e] eqn:Eq; [| discriminate].
  simpl in Hd. rewrite (get_series_set_other "price" "quantity") in Hd by done.
  destruct (get_series "price" df) as [p|e] eqn:Ep; [| discriminate].
  simpl in Hd.
  rewrite (get_series_set_other "quantity" "price") in Hd by done.
  rewrite (get_series_set_same "quantity" _ q) in Hd by done. simpl in Hd.
  rewrite (get_series_set_same "price" _ p) in Hd
    by (by rewrite get_series_set_other).
  simpl in Hd. exists q, p. repeat split. by inversion Hd.
Qed.








End TransformFacts.

(** ** Numbers *)

Lemma trunc_Qeq (x y : Q) : (x == y)%Q → trunc x = trunc y.
Proof.
  unfold Qeq, trunc. destruct x as [n d], y as [n' d']. simpl. intros Heq.
  rewrite <- (Z.quot_mul_cancel_r n (Zpos d) (Zpos d')) by lia.
  rewrite <- (Z.quot_mul_cancel_r n' (Zpos d') (Zpos d)) by lia.
  rewrite Heq. f_equal. lia.
Qed.

Lemma trunc_Qred (x : Q) : trunc (Qred x) = trunc x.
Proof. apply trunc_Qeq, Qred_correct. Qed.

Lemma trunc_inject_Z (z : Z) : trunc (inject_Z z) = z.
Proof. unfold trunc. simpl. apply Z.quot_1_r. Qed.


Lemma Forall2_map_r_in {A B} (P : A → B → Prop) (f : A → B) (l : list A) :
  (∀ a, In a l → P a (f a)) → Forall2 P l (map f l).
Proof.
  induction l as [|x l IH]; intros Hf; simpl; constructor.
  - apply Hf. by left.
  - apply IH. intros a Ha. apply Hf. by right.
Qed.

Section CoercionFacts.
Context `{Parsers}.

Lemma all_NInt_cell (vs : list cell) (a : cell) :
  forallb is_NInt (map to_numeric_cell vs) = true → In a vs →
  ∃ z, to_numeric_cell a = Some (NInt z).
Proof.
  rewrite forallb_forall. intros Hall Ha.
  specialize (Hall (to_numeric_cell a) (in_map _ _ _ Ha)).
  destruct (to_numeric_cell a) as [[z|x]|]; try discriminate. by exists z.
Qed.

(** The quantity column after coercion, value by value. *)
Lemma quantity_column (q : Series) :
  series_typed q = true → s_dtype q ≠ DDatetime64 →
  s_values (astype_int (fillna_zero (to_numeric q))) = map quantity_of (s_values q).
Proof.
  destruct q as [d vs]. unfold series_typed. simpl.
  rewrite forallb_forall. intros Hty Hd.
  unfold to_numeric. simpl.
  destruct d; simpl; try done.
  - rewrite map_map. apply map_ext_in. intros a Ha.
    specialize (Hty a Ha). by destruct a.
  - rewrite map_map. apply map_ext_in. intros a Ha.
    specialize (Hty a Ha). by destruct a.
  - rewrite map_map. apply map_ext_in. intros a Ha.
    specialize (Hty a Ha). by destruct a.
  - destruct (forallb is_NInt (map to_numeric_cell vs)) eqn:E; simpl.
    + rewrite !map_map. apply map_ext_in. intros a Ha.
      destruct (all_NInt_cell vs a E Ha) as [z Hz].
      unfold quantity_of. by rewrite Hz.
    + rewrite !map_map. apply map_ext_in. intros a Ha.
      unfold quantity_of.
      destruct (to_numeric_cell a) as [[z|x]|]; simpl.
      * by rewrite trunc_Qred, trunc_inject_Z.
      * by rewrite trunc_Qred.
      * done.
Qed.

(** The price column after coercion, value by value. *)
Lemma price_column (p : Series) :
  series_typed p = true → s_dtype p ≠ DDatetime64 →
  Forall2 price_of (s_values p) (s_values (fillna_zero (to_numeric p))).
Proof.
  destruct p as [d vs]. unfold series_typed. simpl.
  rewrite forallb_forall. intros Hty Hd.
  unfold to_numeric. simpl.
  destruct d; simpl; try done.
  - apply Forall2_map_r_in. intros a Ha. specialize (Hty a Ha).
    destruct a; try done. unfold price_of. simpl. eexists. split; [done |].
    apply Qeq_refl.
  - apply Forall2_map_r_in. intros a Ha. specialize (Hty a Ha).
    destruct a; try done. unfold price_of. simpl. eexists. split; [done |].
    apply Qeq_refl.
  - apply Forall2_map_r_in. intros a Ha. specialize (Hty a Ha).
    destruct a; try done. unfold price_of. simpl. eexists. split; [done |].
    destruct b; apply Qeq_refl.
  - destruct (forallb is_NInt (map to_numeric_cell vs)) eqn:E; simpl.
    + rewrite !map_map. apply Forall2_map_r_in. intros a Ha.
      destruct (all_NInt_cell vs a E Ha) as [z Hz].
      unfold price_of. rewrite Hz. simpl. eexists. split; [done |].
      apply Qeq_refl.
    + rewrite !map_map. apply Forall2_map_r_in. intros a Ha.
      unfold price_of.
      destruct (to_numeric_cell a) as [[z|x]|]; simpl;
        try (eexists; split; [done |]; apply Qred_correct).
      done.
Qed.

End CoercionFacts.

Section TransformColumns.
Context `{Config} `{Parsers}.

(** The frame returned is the frame before the null-key filter, with the
    same rows kept in every column. *)
Lemma transform_orders_df_columns (df df' : DataFrame) :
  transform_orders_df df = Ok df' →
  ∃ df1 df2 mask,
    let df0 := rename_columns (λ c, PyStr.lower (PyStr.strip c)) df in
    (if has_column "order_date" df0 then normalise_order_date df0 else Ok df0)
    = Ok df1
    ∧ (if has_column "quantity" df1 && has_column "price" df1
       then derive_total_price df1 else Ok df1) = Ok df2
    ∧ ∀ n, columns_named n df'
           = map (λ s, mkSeries (s_dtype s) (keep mask (s_values s)))
                 (columns_named n df2).
Proof.
  intros Htr. apply transform_orders_df_inv in Htr as (df1 & df2 & H1 & H2 & ->).
  exists df1, df2.
  destruct (has_column UNIQUE_KEY df2).
  - exists (Some (dropna_mask UNIQUE_KEY df2)). repeat split; [done | done |].
    intros n. by rewrite columns_named_reset_index, columns_named_dropna.
  - exists None. repeat split; [done | done |].
    intros n. rewrite columns_named_reset_index. unfold keep.
    induction (columns_named n df2) as [|[d vs] l IH]; [done |].
    simpl. by rewrite <- IH.
Qed.

Lemma normalise_order_date_other (n : string) (df df1 : DataFrame) :
  (if has_column "order_date" df then normalise_order_date df else Ok df) = Ok df1 →
  n ≠ "order_date" → columns_named n df1 = columns_named n df.
Proof.
  intros H1 Hn. destruct (has_column "order_date" df).
  - unfold normalise_order_date in H1.
    destruct (get_series "order_date" df); [| discriminate].
    simpl in H1. inversion H1. by rewrite columns_named_set_other.
  - by inversion H1.
Qed.

(** The three columns of the quantity/price step in the frame returned. *)
Lemma transform_quantity_price (df df' : DataFrame) (q p : Series) :
  transform_orders_df df = Ok df' →
  get_series "quantity" (rename_columns (λ c, PyStr.lower (PyStr.strip c)) df)
  = Ok q →
  get_series "price" (rename_columns (λ c, PyStr.lower (PyStr.strip c)) df)
  = Ok p →
  ∃ mask,
    let qs := astype_int (fillna_zero (to_numeric q)) in
    let ps := fillna_zero (to_numeric p) in
    columns_named "quantity" df' = [mkSeries DInt64 (keep mask (s_values qs))]
    ∧ columns_named "price" df'
      = [mkSeries (s_dtype ps) (keep mask (s_values ps))]
    ∧ columns_named "total_price" df' ≠ []
    ∧ ∀ t, t ∈ columns_named "total_price" df' →
           t = mkSeries (s_dtype (mul_series qs ps))
                 (keep mask (zip_with mul_cell (s_values qs) (s_values ps))).
Proof.
  intros Htr Hq Hp.
  apply transform_orders_df_columns in Htr as (df1 & df2 & mask & H1 & H2 & Hcols).
  simpl in H1. set (df0 := rename_columns _ df) in *.
  apply get_series_Ok in Hq, Hp.
  assert (columns_named "quantity" df1 = [q]) as Hq1
    by (by rewrite (normalise_order_date_other _ _ _ H1)).
  assert (columns_named "price" df1 = [p]) as Hp1
    by (by rewrite (normalise_order_date_other _ _ _ H1)).
  assert (has_column "quantity" df1 = true) as Hhq
    by (apply has_column_named; by rewrite Hq1).
  assert (has_column "price" df1 = true) as Hhp
    by (apply has_column_named; by rewrite Hp1).
  rewrite Hhq, Hhp in H2. simpl in H2.
  apply derive_total_price_inv in H2 as (q' & p' & Hq' & Hp' & Hdf2).
  apply get_series_Ok in Hq', Hp'.
  assert (q' = q) as -> by congruence. assert (p' = p) as -> by congruence.
  simpl in Hdf2.
  set (qs := astype_int (fillna_zero (to_numeric q))) in *.
  set (ps := fillna_zero (to_numeric p)) in *.
  set (dfq := set_column "quantity" qs df1) in *.
  set (dfp := set_column "price" ps dfq) in *.
  assert (columns_named "quantity" df2 = [qs]) as Eq.
  { rewrite Hdf2. rewrite columns_named_set_other by done.
    unfold dfp. rewrite columns_named_set_other by done.
    unfold dfq. by rewrite columns_named_set_same, Hhq, Hq1. }
  assert (columns_named "price" df2 = [ps]) as Ep.
  { rewrite Hdf2. rewrite columns_named_set_other by done.
    unfold dfp. rewrite columns_named_set_same.
    unfold dfq. rewrite has_column_set_other by done.
    by rewrite Hhp, columns_named_set_other, Hp1. }
  exists mask. simpl. rewrite !Hcols, Eq, Ep. simpl.
  split; [done |]. split; [done |].
  rewrite Hdf2, columns_named_set_same.
  destruct (has_column "total_price" dfp) eqn:Ht.
  - apply has_column_named in Ht. split.
    + by destruct (columns_named "total_price" dfp).
    + intros t Ht'. apply list_elem_of_fmap in Ht' as (t0 & -> & Hin).
      by apply list_elem_of_fmap in Hin as (? & -> & _).
  - split; [done |]. intros t Ht'. simpl in Ht'.
    by apply list_elem_of_singleton in Ht'.
Qed.

End TransformColumns.

(** ** Row selection *)

Lemma keep_sublist {A} (mask : option (list bool)) (l : list A) :
  keep mask l `sublist_of` l.
Proof. destruct mask; unfold keep; [apply select_mask_sublist | done]. Qed.

Lemma keep_zip_with {A B C} (f : A → B → C) (mask : option (list bool))
    (a : list A) (b : list B) :
  zip_with f (keep mask a) (keep mask b) = keep mask (zip_with f a b).
Proof. destruct mask; unfold keep; [apply select_mask_zip_with | done]. Qed.

Lemma keep_map {A B} (f : A → B) (mask : option (list bool)) (l : list A) :
  keep mask (map f l) = map f (keep mask l).
Proof.
  destruct mask as [m|]; unfold keep; [| done]. revert l.
  induction m as [|b m IH]; intros [|x l]; simpl; try done.
  destruct b; simpl; by rewrite IH.
Qed.

Lemma keep_length {A B} (mask : option (list bool)) (a : list A) (b : list B) :
  length a = length b → length (keep mask a) = length (keep mask b).
Proof.
  destruct mask as [m|]; unfold keep; [| done]. revert a b.
  induction m as [|x m IH]; intros [|y a] [|z b] Hlen; simpl; try done.
  simpl in Hlen. destruct x; simpl; rewrite (IH a b); lia.
Qed.

Lemma keep_Forall2 {A B} (R : A → B → Prop) (mask : option (list bool))
    (a : list A) (b : list B) :
  Forall2 R a b → Forall2 R (keep mask a) (keep mask b).
Proof.
  destruct mask as [m|]; unfold keep; [| done]. intros HR. revert m.
  induction HR as [|x y a b Hxy HR IH]; intros [|c m]; simpl; try constructor.
  destruct c; [constructor; [done |] |]; apply IH.
Qed.

Lemma Forall2_snd {A B C} (R : B → C → Prop) (l : list (A * B)) (k : list C) :
  Forall2 R l.*2 k → Forall2 (λ r c, R r.2 c) l k.
Proof.
  revert k. induction l as [|r l IH]; intros k Hk; inversion Hk; subst;
    constructor; auto.
Qed.

Section QuantityPrice.
Context `{Config} `{Parsers}.

(** Row by row: the rows that survive, as pairs of raw quantity and raw
    price, and what the three columns hold for them. *)
Lemma transform_quantity_price_rows (df df' : DataFrame) (q p : Series) :
  transform_orders_df df = Ok df' →
  get_series "quantity" (rename_columns (λ c, PyStr.lower (PyStr.strip c)) df)
  = Ok q →
  get_series "price" (rename_columns (λ c, PyStr.lower (PyStr.strip c)) df)
  = Ok p →
  series_typed q = true → series_typed p = true →
  s_dtype q ≠ DDatetime64 → s_dtype p ≠ DDatetime64 →
  length (s_values q) = length (s_values p) →
  ∃ qs ps ts kept,
    columns_named "quantity" df' = [qs]
    ∧ columns_named "price" df' = [ps]
    ∧ columns_named "total_price" df' ≠ []
    ∧ (∀ t, t ∈ columns_named "total_price" df' → t = ts)
    ∧ s_dtype qs = DInt64
    ∧ kept `sublist_of` zip (s_values q) (s_values p)
    ∧ s_values qs = map (λ r, quantity_of r.1) kept
    ∧ Forall2 (λ r c', price_of r.2 c') kept (s_values ps)
    ∧ s_values ts = zip_with mul_cell (s_values qs) (s_values ps).
Proof.
  intros Htr Hq Hp Htq Htp Hdq Hdp Hlen.
  destruct (transform_quantity_price _ _ _ _ Htr Hq Hp)
    as (mask & Eq & Ep & Etne & Et).
  pose proof (quantity_column q Htq Hdq) as HQ.
  pose proof (keep_Forall2 _ mask _ _ (price_column p Htp Hdp)) as HP.
  assert (length (keep mask (s_values q)) = length (keep mask (s_values p)))
    as Hlen' by by apply keep_length.
  exists (mkSeries DInt64
            (keep mask (s_values (astype_int (fillna_zero (to_numeric q)))))),
         (mkSeries (s_dtype (fillna_zero (to_numeric p)))
            (keep mask (s_values (fillna_zero (to_numeric p))))),
         (mkSeries (s_dtype (mul_series (astype_int (fillna_zero (to_numeric q)))
                                        (fillna_zero (to_numeric p))))
            (keep mask (zip_with mul_cell
                          (s_values (astype_int (fillna_zero (to_numeric q))))
                          (s_values (fillna_zero (to_numeric p)))))),
         (keep mask (zip (s_values q) (s_values p))).
  split; [exact Eq |]. split; [exact Ep |]. split; [exact Etne |].
  split; [exact Et |]. split; [done |]. split; [apply keep_sublist |].
  cbn [s_values]. rewrite <- !keep_zip_with.
  split; [| split; [| done]].
  - rewrite HQ, keep_map.
    rewrite <- (fst_zip (keep mask (s_values q)) (keep mask (s_values p))) at 1
      by lia.
    clear. induction (zip _ _) as [|r l IH]; [done |].
    change (quantity_of r.1 :: map quantity_of l.*1
            = quantity_of r.1 :: map (λ r, quantity_of r.1) l).
    by rewrite IH.
  - rewrite <- (snd_zip (keep mask (s_values q)) (keep mask (s_values p))) in HP
      by lia.
    by apply Forall2_snd.
Qed.

End QuantityPrice.


(** C10: the quantity column returned is an integer column, and for every
    surviving row whose raw quantity reads as a non-integral number the
    quantity is that number truncated toward zero, and total_price is the
    product of the truncated quantity with the price.  quantity="2.9" with
    price 2.5 gives quantity 2 and total_price 5.0 (not 7.25). *)
Theorem C10_quantity_truncated :
  (∀ (cfg : Config) (prs : Parsers) (df df' : DataFrame) (q p : Series),
      transform_orders_df df = Ok df' →
      get_series "quantity" (rename_columns (λ c, PyStr.lower (PyStr.strip c)) df)
      = Ok q →
      get_series "price" (rename_columns (λ c, PyStr.lower (PyStr.strip c)) df)
      = Ok p →
      series_typed q = true → series_typed p = true →
      s_dtype q ≠ DDatetime64 → s_dtype p ≠ DDatetime64 →
      length (s_values q) = length (s_values p) →
      ∃ qs ps ts kept,
        columns_named "quantity" df' = [qs]
        ∧ columns_named "price" df' = [ps]
        ∧ (∀ t, t ∈ columns_named "total_price" df' → t = ts)
        ∧ s_dtype qs = DInt64
        ∧ kept `sublist_of` zip (s_values q) (s_values p)
        ∧ length kept = length (s_values qs)
        ∧ ∀ (j : nat) (c cp : cell) (x : Q),
            kept !! j = Some (c, cp) →
            to_numeric_cell c = Some (NFloat x) →
            s_values qs !! j = Some (CInt (trunc x))
            ∧ ∃ c', s_values ps !! j = Some c'
                    ∧ s_values ts !! j = Some (mul_cell (CInt (trunc x)) c'))
  ∧ @to_numeric_cell Simple.parsers (CStr "2.9")
    = Some (NFloat (29 # 10))
  ∧ returned_column "quantity"
      (@transform_orders_df default_config Simple.parsers
         (one_order (CStr "2.9") (CFloat (5 # 2))))
    = Some [CInt 2]
  ∧ returned_column "total_price"
      (@transform_orders_df default_config Simple.parsers
         (one_order (CStr "2.9") (CFloat (5 # 2))))
    = Some [CFloat 5].
Proof.
  split; [| repeat split; reflexivity].
  intros cfg prs df df' q p Htr Hq Hp Htq Htp Hdq Hdp Hlen.
  destruct (transform_quantity_price_rows df df' q p)
    as (qs & ps & ts & kept & Eq & Ep & Etne & Et & Hd & Hsub & HQ & HP & HT);
    try done.
  exists qs, ps, ts, kept. repeat (split; [done |]).
  split; [by rewrite HQ, length_map |].
  intros j c cp x Hj Hx.
  assert (s_values qs !! j = Some (CInt (trunc x))) as Hqj.
  { rewrite HQ. change (map (λ r : cell * cell, quantity_of r.1) kept)
      with ((λ r : cell * cell, quantity_of r.1) <$> kept).
    rewrite list_lookup_fmap, Hj. simpl. unfold quantity_of. by rewrite Hx. }
  split; [done |].
  destruct (Forall2_lookup_l _ _ _ _ _ HP Hj) as (c' & Hc' & _).
  exists c'. split; [done |].
  by rewrite HT, lookup_zip_with, Hqj, Hc'.
Qed.

(** ** Type Reconciler *)

Lemma prefix_spec (p s : string) :
  String.prefix p s = true ↔ ∃ post, s = p ++ post.
Proof.
  revert s. induction p as [|a p IH]; intros [|b s]; simpl.
  - split; [intros _; by exists "" | done].
  - split; [intros _; by exists (String b s) | done].
  - split; [done | by intros [? ?]].
  - destruct (ascii_dec a b) as [->|Hne].
    + rewrite IH. split; intros [post Hp]; exists post; [by rewrite Hp |].
      by inversion Hp.
    + split; [done |]. intros [post Hp]. inversion Hp. done.
Qed.

(** [needle in hay] holds exactly when [needle] occurs in [hay]. *)
Lemma contains_spec (needle hay : string) :
  PyStr.contains needle hay = true ↔ ∃ pre post, hay = pre ++ needle ++ post.
Proof.
  induction hay as [|b hay IH].
  - destruct needle as [|a needle]; simpl.
    + split; [intros _; by exists "", "" | done].
    + split; [done |]. intros (pre & post & Hp). by destruct pre.
  - cbn [PyStr.contains]. rewrite orb_true_iff, prefix_spec, IH. split.
    + intros [[post Hp]|(pre & post & Hp)].
      * by exists "", post.
      * exists (String b pre), post. simpl. by rewrite Hp.
    + intros (pre & post & Hp). destruct pre as [|c pre].
      * left. by exists post.
      * right. simpl in Hp. inversion Hp. by exists pre, post.
Qed.

Section ReconcilerFacts.
Context `{Parsers}.

(** A failed [ALTER TABLE] changes nothing. *)
Lemma alter_column_to_date_Raise (tbl c : string) (db db' : Database) (e : py_error) :
  alter_column_to_date tbl c db = (db', Raise e) → db' = db.
Proof.
  unfold alter_column_to_date. intros Ha.
  destruct (db !! tbl) as [t|]; [| by inversion Ha].
  destruct (column_type c t); [| by inversion Ha].
  destruct (mapM _ _); by inversion Ha.
Qed.

Lemma cast_each_app (tbl : string) (l1 l2 : list string) (db : Database) :
  cast_each tbl (l1 ++ l2) db
  = and_then (cast_each tbl l1) (λ _, cast_each tbl l2) db.
Proof.
  revert db. induction l1 as [|c l1 IH]; intros db; [done |].
  simpl. unfold and_then.
  destruct (cast_one tbl c db) as [db' [[]|e]]; [| done].
  by rewrite IH.
Qed.

Lemma date_cols_spec (df : DataFrame) (c : string) :
  c ∈ date_cols df
  ↔ c ∈ column_names df ∧ ∃ pre post, PyStr.lower c = pre ++ "date" ++ post.
Proof.
  unfold date_cols. rewrite list_elem_of_filter, contains_spec. tauto.
Qed.

End ReconcilerFacts.

(** C6: the date-like columns are those whose lower-cased name contains
    "date".  When the columns before [c] convert and the conversion of [c]
    fails with [e], the Type Reconciler raises an error carrying [c], the
    cause [e] and the first ten values the staging column holds at that
    point.  An order_date column holding "not-a-date" raises with
    "order_date" and a sample containing "not-a-date". *)
Theorem C6_cast_failure_payload :
  (∀ (prs : Parsers) (staging_table : string) (df : DataFrame)
     (db db1 : Database) (pre post : list string) (c : string)
     (e : py_error) (t : table),
      date_cols df = (pre ++ c :: post)%list →
      cast_each staging_table pre db = (db1, Ok ()) →
      (alter_column_to_date staging_table c db1).2 = Raise e →
      db1 !! staging_table = Some t →
      attempt_cast_date_columns staging_table df db
      = (db1, Raise (RuntimeError_cast c e (take 10 (column_values c t)))))
  ∧ (∀ (df : DataFrame) (c : string),
       c ∈ date_cols df
       ↔ c ∈ column_names df
         ∧ ∃ pre post, PyStr.lower c = pre ++ "date" ++ post)
  ∧ (@create_staging_table "orders_clean_staging" bad_date_orders ;;;
     @copy_df_to_table_via_copy Simple.parsers bad_date_orders
       "orders_clean_staging" ;;;
     @attempt_cast_date_columns Simple.parsers "orders_clean_staging"
       bad_date_orders) ∅
    = ({[ "orders_clean_staging" :=
            mkTable [("order_id", Integer); ("order_date", Text)] None
              [ {[ "order_id" := SInt 1; "order_date" := SText "2024-01-01" ]};
                {[ "order_id" := SInt 2; "order_date" := SText "not-a-date" ]} ] ]},
       Raise (RuntimeError_cast "order_date"
                (DatabaseError "cannot cast to date")
                [SText "2024-01-01"; SText "not-a-date"])).
Proof.
  split; [| split; [intros; apply date_cols_spec | by vm_compute]].
  intros prs staging_table df db db1 pre post c e t Hcols Hpre Halt Ht.
  unfold attempt_cast_date_columns. rewrite Hcols, cast_each_app.
  unfold and_then at 1. rewrite Hpre. simpl.
  unfold and_then, cast_one.
  destruct (alter_column_to_date staging_table c db1) as [db' r] eqn:Ea.
  simpl in Halt. subst r.
  apply alter_column_to_date_Raise in Ea as ->.
  unfold select_limit. by rewrite Ht.
Qed.

(** ** Staging lifecycle *)

Section StagingFacts.
Context `{Parsers}.

Lemma load_df_to_postgres_upsert_stages (df : DataFrame)
    (table_name unique_key : string) (db : Database) :
  load_df_to_postgres_upsert df table_name unique_key db
  = (ensure_target df table_name ;;;
     fill_staging df (staging_name table_name) ;;;
     upsert_transaction table_name (staging_name table_name) unique_key
       (column_names df)) db.
Proof.
  unfold load_df_to_postgres_upsert, fill_staging, ensure_target, and_then.
  destruct (if negb (has_table table_name db) then _ else _) as [db0 [[]|?]];
    [| done].
  destruct (create_staging_table _ df db0) as [db1 [[]|?]]; [| done].
  destruct (copy_df_to_table_via_copy df _ db1) as [db2 [[]|?]]; [| done].
  by destruct (attempt_cast_date_columns _ df db2) as [db3 [[]|?]].
Qed.

Lemma create_table_Ok (name : string) (cols : list Column) (db db' : Database) :
  create_table name cols db = (db', Ok ()) →
  db' = <[name := mkTable cols None []]> db.
Proof.
  unfold create_table. intros Hc.
  destruct (has_table name db); [by inversion Hc |].
  destruct (bool_decide (NoDup cols.*1)); by inversion Hc.
Qed.

(** A staging table that was created is empty and fresh, whatever an
    earlier run left under its name. *)
Lemma create_staging_table_Ok (name : string) (df : DataFrame) (db db' : Database) :
  create_staging_table name df db = (db', Ok ()) →
  db' = <[name := mkTable (frame_columns df) None []]> db.
Proof.
  unfold create_staging_table, drop_table_if_exists. intros Hc.
  apply create_table_Ok in Hc. by rewrite insert_delete_eq in Hc.
Qed.

Lemma copy_keeps_table (df : DataFrame) (n : string) (db : Database) :
  is_Some (db !! n) → is_Some ((copy_df_to_table_via_copy df n db).1 !! n).
Proof.
  unfold copy_df_to_table_via_copy. intros [t Ht]. rewrite Ht.
  destruct (mapM _ _); [destruct (pkey_ok _ _) |]; simpl;
    rewrite ?lookup_insert_eq, ?Ht; eauto.
Qed.

Lemma alter_keeps_table (n c : string) (db : Database) :
  is_Some (db !! n) → is_Some ((alter_column_to_date n c db).1 !! n).
Proof.
  unfold alter_column_to_date. intros [t Ht]. rewrite Ht.
  destruct (column_type c t); [destruct (mapM _ _) |]; simpl;
    rewrite ?lookup_insert_eq, ?Ht; eauto.
Qed.

Lemma cast_one_keeps_table (n c : string) (db : Database) :
  is_Some (db !! n) → is_Some ((cast_one n c db).1 !! n).
Proof.
  intros Hn. unfold cast_one.
  pose proof (alter_keeps_table n c db Hn) as Ha.
  destruct (alter_column_to_date n c db) as [db' [[]|e]]; [done |].
  unfold select_limit. simpl in Ha. destruct Ha as [t Ht]. rewrite Ht.
  simpl. by rewrite Ht.
Qed.

Lemma cast_each_keeps_table (n : string) (cs : list string) (db : Database) :
  is_Some (db !! n) → is_Some ((cast_each n cs db).1 !! n).
Proof.
  revert db. induction cs as [|c cs IH]; intros db Hn; [done |].
  simpl. unfold and_then.
  pose proof (cast_one_keeps_table n c db Hn) as Hc.
  destruct (cast_one n c db) as [db' [[]|e]]; [| done]. by apply IH.
Qed.

Lemma upsert_transaction_Raise (table_name staging_table unique_key : string)
    (columns : list string) (db db' : Database) (e : py_error) :
  upsert_transaction table_name staging_table unique_key columns db
  = (db', Raise e) → db' = db.
Proof.
  unfold upsert_transaction. destruct (and_then _ _ db) as [? [[]|?]];
    by inversion 1.
Qed.

Lemma upsert_transaction_Ok (table_name staging_table unique_key : string)
    (columns : list string) (db db' : Database) :
  upsert_transaction table_name staging_table unique_key columns db
  = (db', Ok ()) →
  ∃ db1, upsert table_name staging_table unique_key columns db = (db1, Ok ())
         ∧ db' = delete staging_table db1.
Proof.
  unfold upsert_transaction, and_then, drop_table_if_exists.
  destruct (upsert _ _ _ _ db) as [db1 [[]|?]]; [| by inversion 1].
  inversion 1. by exists db1.
Qed.

End StagingFacts.

(** C1, as the spec words it, fails: with a date column that does not
    convert, the load raises and the staging table it created is still in
    the store when it returns. *)
Lemma C1_staging_left_counterexample :
  let out := @load_df_to_postgres_upsert Simple.parsers bad_date_orders
               "orders_clean" "order_id" provisioned_sink in
  out.2 = Raise (RuntimeError_cast "order_date"
                   (DatabaseError "cannot cast to date")
                   [SText "2024-01-01"; SText "not-a-date"])
  ∧ has_table "orders_clean_staging" out.1 = true
  ∧ ¬ (out.1 !! staging_name "orders_clean" = None).
Proof. by vm_compute. Qed.

(** C1 (amended): a load that returns leaves no staging table behind.  A
    load that raises once the staging table exists (in the bulk copy, the
    date coercion or the merge) leaves that table in the store; the next
    load drops whatever it finds under the staging name before creating
    its own, empty one. *)
Theorem C1_staging_dropped_on_success (prs : Parsers) (df : DataFrame)
    (table_name unique_key : string) (db db' : Database) (r : result ()) :
  load_df_to_postgres_upsert df table_name unique_key db = (db', r) →
  (r = Ok () → db' !! staging_name table_name = None)
  ∧ (∀ e db0 db1,
       r = Raise e →
       ensure_target df table_name db = (db0, Ok ()) →
       create_staging_table (staging_name table_name) df db0 = (db1, Ok ()) →
       is_Some (db' !! staging_name table_name))
  ∧ (∀ dbx dby,
       create_staging_table (staging_name table_name) df dbx = (dby, Ok ()) →
       dby !! staging_name table_name
       = Some (mkTable (frame_columns df) None [])).
Proof.
  rewrite load_df_to_postgres_upsert_stages. intros Hload.
  split; [| split].
  - intros ->. unfold and_then in Hload.
    destruct (ensure_target df table_name db) as [db0 [[]|?]]; [| done].
    destruct (fill_staging df _ db0) as [db3 [[]|?]]; [| done].
    apply upsert_transaction_Ok in Hload as (db4 & _ & ->).
    apply lookup_delete_eq.
  - intros e db0 db1 -> He Hc. unfold and_then in Hload. rewrite He in Hload.
    unfold fill_staging, and_then in Hload. rewrite Hc in Hload.
    apply create_staging_table_Ok in Hc.
    assert (is_Some (db1 !! staging_name table_name)) as H1
      by (subst db1; rewrite lookup_insert_eq; eauto).
    pose proof (copy_keeps_table df _ db1 H1) as H2.
    destruct (copy_df_to_table_via_copy df _ db1) as [db2 [[]|?]];
      [| by inversion Hload; subst].
    pose proof (cast_each_keeps_table _ (date_cols df) db2 H2) as H3.
    fold (attempt_cast_date_columns (staging_name table_name) df) in H3.
    destruct (attempt_cast_date_columns _ df db2) as [db3 [[]|?]];
      [| by inversion Hload; subst].
    apply upsert_transaction_Raise in Hload. by subst.
  - intros dbx dby Hc. apply create_staging_table_Ok in Hc as ->.
    apply lookup_insert_eq.
Qed.

(** ** Merge Engine *)

Section UpsertRows.
Variable key : string.
Variables updates sink_cols : list string.
Hypothesis key_not_updated : key ∉ updates.
Hypothesis key_in_sink : key ∈ sink_cols.
Hypothesis updates_in_sink : ∀ c, c ∈ updates → c ∈ sink_cols.

Local Abbreviation k_of := (key_of key).

Lemma do_update_lookup (us : list string) (ex old : row) (c : string) :
  do_update us ex old !! c
  = if decide (c ∈ us) then Some (default SNull (ex !! c)) else old !! c.
Proof.
  induction us as [|u us IH].
  - destruct (decide (c ∈ [])) as [Hin|]; [inversion Hin | done].
  - change (do_update (u :: us) ex old)
      with (<[u := default SNull (ex !! u)]> (do_update us ex old)).
    destruct (decide (u = c)) as [->|Hne].
    + rewrite lookup_insert_eq.
      destruct (decide (c ∈ c :: us)) as [|Hout]; [done |].
      exfalso. apply Hout. left.
    + rewrite lookup_insert_ne, IH by done.
      destruct (decide (c ∈ us)) as [Hin|Hout];
        destruct (decide (c ∈ u :: us)) as [Hin'|Hout']; try done.
      * exfalso. apply Hout'. by right.
      * exfalso. apply elem_of_cons in Hin' as [?|?]; [congruence | done].
Qed.

Lemma inserted_row_lookup (cs : list string) (ex : row) (c : string) :
  c ∈ cs → inserted_row cs ex !! c = Some (default SNull (ex !! c)).
Proof.
  unfold inserted_row. induction cs as [|c0 cs IH]; intros Hc.
  - inversion Hc.
  - simpl. destruct (decide (c0 = c)) as [->|Hne].
    + apply lookup_insert_eq.
    + rewrite lookup_insert_ne by done. apply IH.
      apply elem_of_cons in Hc as [?|?]; [congruence | done].
Qed.

Lemma conflicts_spec (ex r : row) :
  conflicts key ex r = true ↔ r !! key = Some (k_of ex).
Proof. unfold conflicts, key_of. apply bool_decide_eq_true. Qed.

Lemma existsb_conflicts (rows : list row) (ex : row) :
  existsb (conflicts key ex) rows = true
  ↔ ∃ r, r ∈ rows ∧ r !! key = Some (k_of ex).
Proof.
  rewrite existsb_exists. split; intros (r & Hin & Hc); exists r.
  - by rewrite list_elem_of_In, <- conflicts_spec.
  - by rewrite <- list_elem_of_In, conflicts_spec.
Qed.

Lemma upsert_row_elem (rows : list row) (ex r' : row) :
  r' ∈ upsert_row key updates sink_cols rows ex →
  (∃ r, r ∈ rows ∧ r !! key = Some (k_of ex) ∧ r' = do_update updates ex r)
  ∨ (r' ∈ rows ∧ r' !! key ≠ Some (k_of ex))
  ∨ ((¬ ∃ r, r ∈ rows ∧ r !! key = Some (k_of ex))
     ∧ (r' ∈ rows ∨ r' = inserted_row sink_cols ex)).
Proof.
  unfold upsert_row. destruct (existsb _ rows) eqn:E.
  - intros Hin. apply list_elem_of_fmap in Hin as (r & -> & Hr).
    destruct (conflicts key ex r) eqn:Ec.
    + left. exists r. by rewrite <- conflicts_spec.
    + right. left. split; [done |]. rewrite <- conflicts_spec. congruence.
  - intros Hin. right. right. split.
    + rewrite <- existsb_conflicts. congruence.
    + apply elem_of_app in Hin as [?|Hin]; [by left | right].
      by apply list_elem_of_singleton in Hin.
Qed.

Lemma do_update_key (ex r : row) :
  do_update updates ex r !! key = r !! key.
Proof. rewrite do_update_lookup. by rewrite decide_False. Qed.

Lemma upsert_row_establishes (rows : list row) (ex : row) :
  merged_for key updates (upsert_row key updates sink_cols rows ex) ex.
Proof.
  split.
  - unfold upsert_row. destruct (existsb _ rows) eqn:E.
    + apply existsb_conflicts in E as (r & Hr & Hk).
      exists (do_update updates ex r). split; [| by rewrite do_update_key].
      apply (list_elem_of_fmap_2
               (λ r, if conflicts key ex r then do_update updates ex r else r))
        in Hr.
      apply conflicts_spec in Hk. by rewrite Hk in Hr.
    + exists (inserted_row sink_cols ex). split.
      * apply elem_of_app. right. by apply list_elem_of_singleton.
      * by apply inserted_row_lookup.
  - intros r' Hin Hk c Hc.
    apply upsert_row_elem in Hin as [(r & _ & _ & ->)|[[_ Hne]|[Hno [Hin| ->]]]].
    + rewrite do_update_lookup. by rewrite decide_True.
    + done.
    + exfalso. apply Hno. by exists r'.
    + apply inserted_row_lookup. by apply updates_in_sink.
Qed.

Lemma upsert_row_preserves (rows : list row) (ex ex' : row) :
  k_of ex' ≠ k_of ex →
  merged_for key updates rows ex →
  merged_for key updates (upsert_row key updates sink_cols rows ex') ex.
Proof.
  intros Hne [(r & Hr & Hk) Hall]. split.
  - exists r. split; [| done].
    unfold upsert_row. destruct (existsb _ rows).
    + apply (list_elem_of_fmap_2
               (λ r, if conflicts key ex' r then do_update updates ex' r else r))
        in Hr.
      destruct (conflicts key ex' r) eqn:Ec; [| done].
      apply conflicts_spec in Ec. congruence.
    + apply elem_of_app. by left.
  - intros r' Hin Hk'.
    apply upsert_row_elem in Hin
      as [(r0 & _ & Hk0 & ->)|[[Hin _]|[_ [Hin| ->]]]].
    + rewrite do_update_key in Hk'. congruence.
    + by apply Hall.
    + by apply Hall.
    + rewrite inserted_row_lookup in Hk' by done. unfold key_of in *. congruence.
Qed.

Lemma foldl_upsert_row_preserves (rows : list row) (exs : list row) (ex : row) :
  (∀ ex', ex' ∈ exs → k_of ex' ≠ k_of ex) →
  merged_for key updates rows ex →
  merged_for key updates (foldl (upsert_row key updates sink_cols) rows exs) ex.
Proof.
  revert rows. induction exs as [|ex' exs IH]; intros rows Hne Hm; [done |].
  simpl. apply IH.
  - intros ex'' Hin. apply Hne. by right.
  - apply upsert_row_preserves; [| done]. apply Hne. left.
Qed.

(** After the statement, every proposed row has been merged. *)
Lemma foldl_upsert_row_merged (rows : list row) (exs : list row) :
  NoDup (map k_of exs) →
  ∀ ex, ex ∈ exs →
        merged_for key updates (foldl (upsert_row key updates sink_cols) rows exs) ex.
Proof.
  revert rows. induction exs as [|ex0 exs IH]; intros rows Hnd ex Hin;
    [inversion Hin |].
  simpl in Hnd. apply NoDup_cons in Hnd as [Hout Hnd]. simpl.
  apply elem_of_cons in Hin as [->|Hin].
  - apply foldl_upsert_row_preserves; [| apply upsert_row_establishes].
    intros ex' Hin' Heq. apply Hout. rewrite <- Heq.
    by apply (list_elem_of_fmap_2 k_of).
  - by apply IH.
Qed.

Lemma do_update_agrees (ex r : row) :
  agrees updates ex r → do_update updates ex r = r.
Proof.
  intros Hag. apply map_eq. intros c. rewrite do_update_lookup.
  destruct (decide (c ∈ updates)); [by rewrite Hag | done].
Qed.

(** Merging a row that is merged already changes nothing. *)
Lemma upsert_row_merged (rows : list row) (ex : row) :
  merged_for key updates rows ex →
  upsert_row key updates sink_cols rows ex = rows.
Proof.
  intros [Hex Hall]. unfold upsert_row.
  apply existsb_conflicts in Hex. rewrite Hex.
  clear Hex. induction rows as [|r rows IH]; [done |].
  simpl. rewrite IH by (intros; apply Hall; [by right | done]).
  destruct (conflicts key ex r) eqn:Ec; [| done].
  apply conflicts_spec in Ec. rewrite do_update_agrees; [done |].
  apply Hall; [left | done].
Qed.

Lemma foldl_upsert_row_merged_id (rows : list row) (exs : list row) :
  (∀ ex, ex ∈ exs → merged_for key updates rows ex) →
  foldl (upsert_row key updates sink_cols) rows exs = rows.
Proof.
  induction exs as [|ex exs IH]; intros Hall; [done |].
  simpl. rewrite upsert_row_merged by (apply Hall; left).
  apply IH. intros ex' Hin. apply Hall. by right.
Qed.

(** Stored rows under other keys stay as they are. *)
Lemma foldl_upsert_row_other (rows : list row) (exs : list row) (r : row) :
  r ∈ rows → (∀ ex, ex ∈ exs → r !! key ≠ Some (k_of ex)) →
  r ∈ foldl (upsert_row key updates sink_cols) rows exs.
Proof.
  revert rows. induction exs as [|ex exs IH]; intros rows Hr Hne; [done |].
  simpl. apply IH; [| intros; apply Hne; by right].
  unfold upsert_row. destruct (existsb _ rows).
  - apply (list_elem_of_fmap_2
             (λ r, if conflicts key ex r then do_update updates ex r else r))
      in Hr.
    destruct (conflicts key ex r) eqn:Ec; [| done].
    apply conflicts_spec in Ec. exfalso. eapply Hne; [left | done].
  - apply elem_of_app. by left.
Qed.

End UpsertRows.

Section UpsertFacts.
Context `{Parsers}.

Lemma column_type_elem (c : string) (t : table) (ty : sqltype) :
  column_type c t = Some ty → c ∈ (t_columns t).*1.
Proof.
  unfold column_type. intros Hc. apply elem_of_list_to_map_2 in Hc.
  by apply (list_elem_of_fmap_2 fst) in Hc.
Qed.

Lemma pg_assign_same (ty : sqltype) (v : sqlval) : pg_assign ty ty v = Some v.
Proof. unfold pg_assign. by rewrite decide_True. Qed.

(** What a proposed row holds: for each listed column, the staging value
    as the sink stores it; and nothing else. *)
Lemma excluded_row_Some (sink stg : table) (cols : list string) (r ex : row) :
  excluded_row sink stg cols r = Some ex →
  (∀ c, c ∈ cols → ∃ v, stored_as sink stg c r v ∧ ex !! c = Some v)
  ∧ (∀ c v, ex !! c = Some v → c ∈ cols).
Proof.
  unfold excluded_row. intros Hex.
  destruct (mapM _ cols) as [vs|] eqn:Evs; [| discriminate].
  simpl in Hex. inversion Hex as [Hex']. clear Hex Hex'.
  apply mapM_Some in Evs.
  induction Evs as [|c [c' v] cols vs Hc Hall IH]; split.
  - intros c Hin. inversion Hin.
  - intros c v Hl. simpl in Hl. by rewrite lookup_empty in Hl.
  - intros c0 Hin.
    assert (c' = c ∧ stored_as sink stg c r v) as [-> Hst].
    { destruct (column_type c stg) as [from|] eqn:E1; [| discriminate].
      destruct (column_type c sink) as [to|] eqn:E2; [| discriminate].
      simpl in Hc.
      destruct (pg_assign from to (default SNull (r !! c))) as [v'|] eqn:E3;
        [| discriminate].
      simpl in Hc. inversion Hc. subst. split; [done |]. by exists from, to. }
    simpl. destruct (decide (c = c0)) as [->|Hne].
    + exists v. by rewrite lookup_insert_eq.
    + rewrite lookup_insert_ne by done. apply IH.
      apply elem_of_cons in Hin as [?|?]; [congruence | done].
  - intros c0 v0 Hl. simpl in Hl.
    assert (c' = c) as ->.
    { destruct (column_type c stg) as [from|]; [| discriminate].
      destruct (column_type c sink) as [to|]; [| discriminate].
      simpl in Hc. destruct (pg_assign _ _ _); [| discriminate].
      simpl in Hc. by inversion Hc. }
    destruct (decide (c = c0)) as [->|Hne]; [left |].
    rewrite lookup_insert_ne in Hl by done. right. by eapply IH.
Qed.

(** A merge that fails changes nothing. *)
Lemma upsert_Raise (table_name staging_table unique_key : string)
    (columns : list string) (db db' : Database) (e : py_error) :
  upsert table_name staging_table unique_key columns db = (db', Raise e) →
  db' = db.
Proof.
  unfold upsert. intros Hu.
  destruct columns as [|c0 cs]; [by inversion Hu |].
  destruct (filter _ (c0 :: cs)); [by inversion Hu |].
  destruct (db !! table_name) as [sink|]; [| by inversion Hu].
  destruct (db !! staging_table) as [stg|]; [| by inversion Hu].
  destruct (negb _); [by inversion Hu |].
  destruct (mapM _ _) as [exs|]; [| by inversion Hu].
  destruct (negb (forallb _ _)); [by inversion Hu |].
  destruct (negb (bool_decide _)); by inversion Hu.
Qed.

(** A merge that succeeds: the conditions it met and the sink it leaves. *)
Lemma upsert_Ok (table_name staging_table unique_key : string)
    (columns : list string) (db db' : Database) :
  upsert table_name staging_table unique_key columns db = (db', Ok ()) →
  ∃ sink stg exs,
    db !! table_name = Some sink ∧ db !! staging_table = Some stg
    ∧ t_pkey sink = Some unique_key
    ∧ mapM (excluded_row sink stg columns) (t_rows stg) = Some exs
    ∧ Forall (λ ex, key_of unique_key ex ≠ SNull) exs
    ∧ NoDup (map (key_of unique_key) exs)
    ∧ db' = <[table_name :=
               mkTable (t_columns sink) (t_pkey sink)
                 (foldl (upsert_row unique_key
                           (filter (λ c, c ≠ unique_key) columns)
                           (t_columns sink).*1)
                        (t_rows sink) exs)]> db.
Proof.
  unfold upsert. intros Hu.
  destruct columns as [|c0 cs]; [by inversion Hu |].
  destruct (filter _ (c0 :: cs)) as [|u us] eqn:Eu; [by inversion Hu |].
  destruct (db !! table_name) as [sink|]; [| by inversion Hu].
  destruct (db !! staging_table) as [stg|]; [| by inversion Hu].
  destruct (bool_decide (t_pkey sink = Some unique_key)) eqn:Epk;
    [| by inversion Hu].
  simpl in Hu. apply bool_decide_eq_true in Epk.
  destruct (mapM _ _) as [exs|] eqn:Eexs; [| by inversion Hu].
  destruct (forallb _ _) eqn:Enn; [| by inversion Hu]. simpl in Hu.
  destruct (bool_decide (NoDup _)) eqn:End; [| by inversion Hu]. simpl in Hu.
  apply bool_decide_eq_true in End.
  exists sink, stg, exs. repeat split; try done.
  - apply Forall_forall. intros ex Hin. rewrite forallb_forall in Enn.
    specialize (Enn (key_of unique_key ex)).
    rewrite <- list_elem_of_In in Enn.
    specialize (Enn (list_elem_of_fmap_2 (key_of unique_key) _ _ Hin)).
    intros Hnull. by rewrite Hnull in Enn.
  - by inversion Hu.
Qed.

Lemma excluded_row_key (sink stg : table) (cols : list string) (key : string)
    (r ex : row) :
  excluded_row sink stg cols r = Some ex →
  key_of key ex ≠ SNull →
  key ∈ cols ∧ ex !! key = Some (key_of key ex)
  ∧ stored_as sink stg key r (key_of key ex).
Proof.
  intros Hex Hnn. apply excluded_row_Some in Hex as [Hin Hdom].
  unfold key_of in *. destruct (ex !! key) as [k|] eqn:Ek; [| done].
  simpl in *. assert (key ∈ cols) as Hk by by eapply Hdom.
  split; [done |]. split; [done |].
  destruct (Hin key Hk) as (v & Hst & Hv). congruence.
Qed.

(** The rows of the sink after a successful merge. *)
Lemma upsert_Ok_rows (table_name staging_table unique_key : string)
    (columns : list string) (db db' : Database) (sink stg : table) :
  upsert table_name staging_table unique_key columns db = (db', Ok ()) →
  db !! table_name = Some sink → db !! staging_table = Some stg →
  ∃ exs rows',
    Forall2 (λ r ex, excluded_row sink stg columns r = Some ex
                     ∧ key_of unique_key ex ≠ SNull) (t_rows stg) exs
    ∧ t_pkey sink = Some unique_key
    ∧ rows' = foldl (upsert_row unique_key
                       (filter (λ c, c ≠ unique_key) columns)
                       (t_columns sink).*1) (t_rows sink) exs
    ∧ db' = <[table_name := mkTable (t_columns sink) (t_pkey sink) rows']> db
    ∧ (∀ ex, ex ∈ exs →
             merged_for unique_key (filter (λ c, c ≠ unique_key) columns)
               rows' ex).
Proof.
  intros Hu Hs Ht.
  apply upsert_Ok in Hu
    as (sink0 & stg0 & exs & Hs0 & Ht0 & Hpk & Hexs & Hnn & Hnd & ->).
  assert (sink0 = sink) as -> by congruence.
  assert (stg0 = stg) as -> by congruence.
  apply mapM_Some in Hexs.
  assert (Forall2 (λ r ex, excluded_row sink stg columns r = Some ex
                           ∧ key_of unique_key ex ≠ SNull) (t_rows stg) exs)
    as HF.
  { clear -Hexs Hnn. induction Hexs as [|r ex rs exs Hr _ IH]; constructor.
    - split; [done |]. by inversion Hnn.
    - apply IH. by inversion Hnn. }
  eexists exs, _. split; [done |]. split; [done |]. split; [done |].
  split; [done |].
  intros ex1 Hin.
  apply list_elem_of_lookup in Hin as Hl. destruct Hl as [i Hi].
  destruct (Forall2_lookup_r _ _ _ _ _ HF Hi) as (r & _ & Hr & Hk).
  destruct (excluded_row_key _ _ _ _ _ _ Hr Hk) as (Hkc & _ & (? & to & _ & Hto & _)).
  pose proof (excluded_row_Some _ _ _ _ _ Hr) as [Hcols _].
  apply foldl_upsert_row_merged; try done.
  - intros Hf. by apply list_elem_of_filter in Hf as [? _].
  - by eapply column_type_elem.
  - intros c Hc. apply list_elem_of_filter in Hc as [_ Hc].
    destruct (Hcols c Hc) as (v & (? & to' & _ & Hto' & _) & _).
    by eapply column_type_elem.
Qed.

End UpsertFacts.

(** C3: after a merge that succeeds, for every staging row the sink holds
    a row under that row's key, and every sink row under that key carries,
    in each listed non-key column, the staging row's value (as the sink's
    column type stores it; unchanged when the two column types agree):
    rows that met a stored key were overwritten, rows with a new key were
    inserted, and sink rows under keys the staging table does not mention
    are still there.  The sink row (1, pending, 10) merged with staging
    (1, delivered, 12) becomes (1, delivered, 12); with a further staging
    row under the new key 2 the sink holds both rows. *)
Theorem C3_merge_last_writer_wins :
  (∀ (prs : Parsers) (table_name staging_table unique_key : string)
     (columns : list string) (db db' : Database) (sink stg : table),
      upsert table_name staging_table unique_key columns db = (db', Ok ()) →
      db !! table_name = Some sink →
      db !! staging_table = Some stg →
      ∃ sink',
        db' !! table_name = Some sink'
        ∧ t_columns sink' = t_columns sink ∧ t_pkey sink' = t_pkey sink
        ∧ (∀ r, r ∈ t_rows stg →
             ∃ k, stored_as sink stg unique_key r k ∧ k ≠ SNull
                  ∧ (∃ r', r' ∈ t_rows sink' ∧ r' !! unique_key = Some k)
                  ∧ ∀ r', r' ∈ t_rows sink' → r' !! unique_key = Some k →
                          ∀ c, c ∈ columns → c ≠ unique_key →
                               ∃ v, stored_as sink stg c r v ∧ r' !! c = Some v)
        ∧ (∀ old, old ∈ t_rows sink →
             (∀ r k, r ∈ t_rows stg → stored_as sink stg unique_key r k →
                     old !! unique_key ≠ Some k) →
             old ∈ t_rows sink')
        ∧ (∀ c r v, column_type c stg = column_type c sink →
                    stored_as sink stg c r v → v = default SNull (r !! c)))
  ∧ (t_rows <$>
       (@upsert Simple.parsers "orders_clean" "orders_clean_staging" "order_id"
          ["order_id"; "status"; "total_price"]
          (example_store [delivered_order_1])).1 !! "orders_clean")
    = Some [delivered_order_1]
  ∧ (t_rows <$>
       (@upsert Simple.parsers "orders_clean" "orders_clean_staging" "order_id"
          ["order_id"; "status"; "total_price"]
          (example_store [delivered_order_1; new_order_2])).1 !! "orders_clean")
    = Some [delivered_order_1; new_order_2].
Proof.
  split; [| split; by vm_compute].
  intros prs table_name staging_table unique_key columns db db' sink stg
    Hu Hs Ht.
  destruct (upsert_Ok_rows _ _ _ _ _ _ _ _ Hu Hs Ht)
    as (exs & rows' & HF & Hpk & Hrows & -> & Hm).
  eexists. split; [apply lookup_insert_eq |].
  split; [done |]. split; [done |]. cbn [t_rows].
  split; [| split].
  - intros r Hr. apply list_elem_of_lookup in Hr as [i Hi].
    destruct (Forall2_lookup_l _ _ _ _ _ HF Hi) as (ex & Hex & Hr & Hk).
    destruct (excluded_row_key _ _ _ _ _ _ Hr Hk) as (Hkc & Hexk & Hst).
    assert (ex ∈ exs) as Hin by (by eapply list_elem_of_lookup_2).
    destruct (Hm ex Hin) as [Hsome Hall].
    exists (key_of unique_key ex). split; [done |]. split; [done |].
    split; [done |].
    intros r' Hr' Hk' c Hc Hne.
    destruct (proj1 (excluded_row_Some _ _ _ _ _ Hr) c Hc) as (v & Hv & Hexc).
    exists v. split; [done |].
    rewrite (Hall r' Hr' Hk' c); [by rewrite Hexc |].
    by apply list_elem_of_filter.
  - intros old Hold Hother. rewrite Hrows.
    apply foldl_upsert_row_other; [done |].
    intros ex Hin. apply list_elem_of_lookup in Hin as [i Hi].
    destruct (Forall2_lookup_r _ _ _ _ _ HF Hi) as (r & Hri & Hr & Hk).
    destruct (excluded_row_key _ _ _ _ _ _ Hr Hk) as (_ & _ & Hst).
    eapply Hother; [by eapply list_elem_of_lookup_2 | done].
  - intros c r v Hty (from & to & Hf & Ht' & Hv).
    assert (from = to) as -> by congruence.
    rewrite pg_assign_same in Hv. congruence.
Qed.

(** ** The load, seen from the sink *)

Lemma staging_name_ne (table_name : string) :
  table_name ≠ staging_name table_name.
Proof.
  unfold staging_name. induction table_name as [|a t IH]; [done |].
  simpl. intros Heq. inversion Heq. done.
Qed.

Section LoadFrame.
Context `{Parsers}.

(** *** Each staging step reads and writes the staging table only *)

Lemma copy_local (df : DataFrame) (n : string) (db db' : Database) :
  db !! n = db' !! n →
  (copy_df_to_table_via_copy df n db).2 = (copy_df_to_table_via_copy df n db').2
  ∧ (copy_df_to_table_via_copy df n db).1 !! n
    = (copy_df_to_table_via_copy df n db').1 !! n.
Proof.
  unfold copy_df_to_table_via_copy. intros Hn. rewrite <- Hn.
  destruct (db !! n) as [t|] eqn:Et; [| simpl; split; [done | congruence]].
  destruct (mapM _ _); [| simpl; split; [done | congruence]].
  destruct (pkey_ok _ _); simpl; [| split; [done | congruence]].
  by rewrite !lookup_insert_eq.
Qed.

Lemma copy_frame (df : DataFrame) (n m : string) (db : Database) :
  m ≠ n → (copy_df_to_table_via_copy df n db).1 !! m = db !! m.
Proof.
  unfold copy_df_to_table_via_copy. intros Hne.
  destruct (db !! n) as [t|]; [| done].
  destruct (mapM _ _); [| done].
  destruct (pkey_ok _ _); simpl; [| done].
  by rewrite lookup_insert_ne.
Qed.

Lemma alter_local (n c : string) (db db' : Database) :
  db !! n = db' !! n →
  (alter_column_to_date n c db).2 = (alter_column_to_date n c db').2
  ∧ (alter_column_to_date n c db).1 !! n = (alter_column_to_date n c db').1 !! n.
Proof.
  unfold alter_column_to_date. intros Hn. rewrite <- Hn.
  destruct (db !! n) as [t|] eqn:Et; [| simpl; split; [done | congruence]].
  destruct (column_type c t); [| simpl; split; [done | congruence]].
  destruct (mapM _ _); simpl; [| split; [done | congruence]].
  by rewrite !lookup_insert_eq.
Qed.

Lemma alter_frame (n c m : string) (db : Database) :
  m ≠ n → (alter_column_to_date n c db).1 !! m = db !! m.
Proof.
  unfold alter_column_to_date. intros Hne.
  destruct (db !! n) as [t|]; [| done].
  destruct (column_type c t); [| done].
  destruct (mapM _ _); simpl; [| done].
  by rewrite lookup_insert_ne.
Qed.

Lemma cast_one_local (n c : string) (db db' : Database) :
  db !! n = db' !! n →
  (cast_one n c db).2 = (cast_one n c db').2
  ∧ (cast_one n c db).1 !! n = (cast_one n c db').1 !! n.
Proof.
  intros Hn. unfold cast_one.
  destruct (alter_local n c db db' Hn) as [Hr Hs].
  destruct (alter_column_to_date n c db) as [d1 r1],
           (alter_column_to_date n c db') as [d2 r2].
  simpl in Hr, Hs. subst r2. destruct r1 as [[]|e]; [done |].
  unfold select_limit. rewrite <- Hs.
  destruct (d1 !! n) as [t|] eqn:Et; simpl; split; congruence.
Qed.

Lemma cast_one_frame (n c m : string) (db : Database) :
  m ≠ n → (cast_one n c db).1 !! m = db !! m.
Proof.
  intros Hne. unfold cast_one.
  pose proof (alter_frame n c m db Hne) as Ha.
  destruct (alter_column_to_date n c db) as [d1 [[]|e]]; [done |].
  unfold select_limit. by destruct (d1 !! n).
Qed.

Lemma cast_each_local (n : string) (cs : list string) (db db' : Database) :
  db !! n = db' !! n →
  (cast_each n cs db).2 = (cast_each n cs db').2
  ∧ (cast_each n cs db).1 !! n = (cast_each n cs db').1 !! n.
Proof.
  revert db db'. induction cs as [|c cs IH]; intros db db' Hn; [done |].
  simpl. unfold and_then.
  destruct (cast_one_local n c db db' Hn) as [Hr Hs].
  destruct (cast_one n c db) as [d1 r1], (cast_one n c db') as [d2 r2].
  simpl in Hr, Hs. subst r2. destruct r1 as [[]|e]; [by apply IH | done].
Qed.

Lemma cast_each_frame (n : string) (cs : list string) (m : string) (db : Database) :
  m ≠ n → (cast_each n cs db).1 !! m = db !! m.
Proof.
  intros Hne. revert db. induction cs as [|c cs IH]; intros db; [done |].
  simpl. unfold and_then.
  pose proof (cast_one_frame n c m db Hne) as Hc.
  destruct (cast_one n c db) as [d1 [[]|e]]; [| done].
  simpl in Hc. by rewrite IH.
Qed.

Lemma create_staging_table_eq (n : string) (df : DataFrame) (db : Database) :
  create_staging_table n df db
  = if bool_decide (NoDup (frame_columns df).*1)
    then (<[n := mkTable (frame_columns df) None []]> db, Ok ())
    else (delete n db, Raise (DatabaseError "column specified more than once")).
Proof.
  unfold create_staging_table, drop_table_if_exists, create_table, has_table.
  rewrite lookup_delete_eq.
  rewrite bool_decide_eq_false_2 by (by intros [? ?]).
  destruct (bool_decide _); [| done]. by rewrite insert_delete_eq.
Qed.

(** Filling the staging table leaves every other table alone. *)
Lemma fill_staging_frame (df : DataFrame) (n m : string) (db : Database) :
  m ≠ n → (fill_staging df n db).1 !! m = db !! m.
Proof.
  intros Hne. unfold fill_staging, and_then.
  rewrite create_staging_table_eq.
  destruct (bool_decide _); simpl; [| by rewrite lookup_delete_ne].
  set (db1 := <[n := _]> db).
  pose proof (copy_frame df n m db1 Hne) as Hc.
  destruct (copy_df_to_table_via_copy df n db1) as [db2 [[]|e]];
    simpl in Hc |- *.
  - unfold attempt_cast_date_columns.
    rewrite cast_each_frame by done. rewrite Hc. unfold db1.
    by rewrite lookup_insert_ne.
  - rewrite Hc. unfold db1. by rewrite lookup_insert_ne.
Qed.

(** Its outcome and the staging table it leaves depend on the frame
    alone, not on the store it starts from. *)
Lemma fill_staging_agree (df : DataFrame) (n : string) (db db' : Database) :
  (fill_staging df n db).2 = (fill_staging df n db').2
  ∧ (fill_staging df n db).1 !! n = (fill_staging df n db').1 !! n.
Proof.
  unfold fill_staging, and_then. rewrite !create_staging_table_eq.
  destruct (bool_decide _); simpl; [| by rewrite !lookup_delete_eq].
  set (db1 := <[n := _]> db). set (db1' := <[n := _]> db').
  assert (db1 !! n = db1' !! n) as H1
    by (unfold db1, db1'; by rewrite !lookup_insert_eq).
  destruct (copy_local df n db1 db1' H1) as [Hr Hs].
  destruct (copy_df_to_table_via_copy df n db1) as [d2 r2],
           (copy_df_to_table_via_copy df n db1') as [d2' r2'].
  simpl in Hr, Hs. subst r2'. destruct r2 as [[]|e]; [| done].
  by apply cast_each_local.
Qed.

Lemma upsert_local (table_name staging_table unique_key : string)
    (columns : list string) (db db' : Database) :
  db !! table_name = db' !! table_name →
  db !! staging_table = db' !! staging_table →
  (upsert table_name staging_table unique_key columns db).2
  = (upsert table_name staging_table unique_key columns db').2
  ∧ (upsert table_name staging_table unique_key columns db).1 !! table_name
    = (upsert table_name staging_table unique_key columns db').1 !! table_name.
Proof.
  unfold upsert. intros HT HS. rewrite <- HT, <- HS.
  destruct columns as [|c0 cs]; [simpl; split; [done | congruence] |].
  destruct (filter _ (c0 :: cs)); [simpl; split; [done | congruence] |].
  destruct (db !! table_name) as [sink|] eqn:Es;
    [| simpl; split; [done | congruence]].
  destruct (db !! staging_table) as [stg|] eqn:Et;
    [| simpl; split; [done | congruence]].
  destruct (negb _); [simpl; split; [done | congruence] |].
  destruct (mapM _ _) as [exs|]; [| simpl; split; [done | congruence]].
  destruct (negb (forallb _ _)); [simpl; split; [done | congruence] |].
  destruct (negb (bool_decide _)); [simpl; split; [done | congruence] |].
  simpl. by rewrite !lookup_insert_eq.
Qed.

Lemma upsert_transaction_local (table_name unique_key : string)
    (columns : list string) (db db' : Database) :
  db !! table_name = db' !! table_name →
  db !! staging_name table_name = db' !! staging_name table_name →
  (upsert_transaction table_name (staging_name table_name) unique_key columns db).2
  = (upsert_transaction table_name (staging_name table_name) unique_key
       columns db').2
  ∧ (upsert_transaction table_name (staging_name table_name) unique_key
       columns db).1 !! table_name
    = (upsert_transaction table_name (staging_name table_name) unique_key
         columns db').1 !! table_name.
Proof.
  intros HT HS. unfold upsert_transaction, and_then, drop_table_if_exists.
  destruct (upsert_local table_name (staging_name table_name) unique_key
              columns db db' HT HS) as [Hr Hs].
  destruct (upsert _ _ _ _ db) as [d1 r1], (upsert _ _ _ _ db') as [d1' r1'].
  simpl in Hr, Hs. subst r1'. destruct r1 as [[]|e]; simpl; [| done].
  pose proof (staging_name_ne table_name) as Hne.
  rewrite !lookup_delete_ne by done. done.
Qed.

(** *** The stages after the sink is ensured *)

Lemma load_df_to_postgres_upsert_merge_stages (df : DataFrame)
    (table_name unique_key : string) (db : Database) :
  load_df_to_postgres_upsert df table_name unique_key db
  = (ensure_target df table_name ;;; merge_stages df table_name unique_key) db.
Proof.
  rewrite load_df_to_postgres_upsert_stages. unfold merge_stages, and_then.
  by destruct (ensure_target df table_name db) as [db0 [[]|?]].
Qed.

Lemma merge_stages_local (df : DataFrame) (table_name unique_key : string)
    (db db' : Database) :
  db !! table_name = db' !! table_name →
  (merge_stages df table_name unique_key db).2
  = (merge_stages df table_name unique_key db').2
  ∧ (merge_stages df table_name unique_key db).1 !! table_name
    = (merge_stages df table_name unique_key db').1 !! table_name.
Proof.
  intros HT. unfold merge_stages, and_then.
  pose proof (staging_name_ne table_name) as Hne.
  destruct (fill_staging_agree df (staging_name table_name) db db') as [Hr Hs].
  pose proof (fill_staging_frame df (staging_name table_name) table_name db Hne)
    as Hf.
  pose proof (fill_staging_frame df (staging_name table_name) table_name db' Hne)
    as Hf'.
  destruct (fill_staging df _ db) as [d3 r3], (fill_staging df _ db') as [d3' r3'].
  simpl in *. subst r3'. destruct r3 as [[]|e]; simpl.
  - apply upsert_transaction_local; congruence.
  - split; [done | congruence].
Qed.

(** A failure after the sink is ensured leaves the sink untouched. *)
Lemma merge_stages_Raise (df : DataFrame) (table_name unique_key : string)
    (db db1 : Database) (e : py_error) :
  merge_stages df table_name unique_key db = (db1, Raise e) →
  db1 !! table_name = db !! table_name.
Proof.
  unfold merge_stages, and_then. intros Hm.
  pose proof (staging_name_ne table_name) as Hne.
  pose proof (fill_staging_frame df (staging_name table_name) table_name db Hne)
    as Hf.
  destruct (fill_staging df _ db) as [d3 [[]|e3]]; simpl in Hf.
  - apply upsert_transaction_Raise in Hm. by subst.
  - inversion Hm. by subst.
Qed.

(** A success: the staging table that was filled, the proposed rows, and
    the sink left behind. *)
Lemma merge_stages_Ok (df : DataFrame) (table_name unique_key : string)
    (db db1 : Database) :
  merge_stages df table_name unique_key db = (db1, Ok ()) →
  ∃ sink stg exs rows',
    db !! table_name = Some sink
    ∧ (fill_staging df (staging_name table_name) db).1
        !! staging_name table_name = Some stg
    ∧ mapM (excluded_row sink stg (column_names df)) (t_rows stg) = Some exs
    ∧ t_pkey sink = Some unique_key
    ∧ rows' = foldl (upsert_row unique_key
                       (filter (λ c, c ≠ unique_key) (column_names df))
                       (t_columns sink).*1) (t_rows sink) exs
    ∧ db1 !! table_name
      = Some (mkTable (t_columns sink) (t_pkey sink) rows')
    ∧ (∀ ex, ex ∈ exs →
             merged_for unique_key
               (filter (λ c, c ≠ unique_key) (column_names df)) rows' ex).
Proof.
  unfold merge_stages, and_then. intros Hm.
  pose proof (staging_name_ne table_name) as Hne.
  pose proof (fill_staging_frame df (staging_name table_name) table_name db Hne)
    as Hf.
  destruct (fill_staging df _ db) as [d3 [[]|e3]]; simpl in Hf; [| done].
  apply upsert_transaction_Ok in Hm as (d4 & Hu & ->).
  pose proof Hu as Hu'.
  apply upsert_Ok in Hu' as (sink & stg & exs & Hs & Ht & Hpk & Hexs & _).
  destruct (upsert_Ok_rows _ _ _ _ _ _ _ _ Hu Hs Ht)
    as (exs' & rows' & HF & _ & Hrows & -> & Hmerged).
  assert (exs' = exs) as ->.
  { apply mapM_Some in Hexs. clear -HF Hexs. revert exs Hexs.
    induction HF as [|r ex rs exs' [Hr _] _ IH]; intros exs Hexs;
      inversion Hexs; subst; [done |].
    f_equal; [congruence | by apply IH]. }
  exists sink, stg, exs, rows'. simpl.
  split; [congruence |]. split; [done |]. split; [done |]. split; [done |].
  split; [done |]. split; [| done].
  rewrite lookup_delete_ne by done. apply lookup_insert_eq.
Qed.

Lemma ensure_target_exists (df : DataFrame) (table_name : string)
    (db : Database) (t : table) :
  db !! table_name = Some t → ensure_target df table_name db = (db, Ok ()).
Proof.
  intros Ht. unfold ensure_target, has_table.
  rewrite bool_decide_eq_true_2; [done | by rewrite Ht].
Qed.

Lemma ensure_target_missing (df : DataFrame) (table_name : string) (db : Database) :
  db !! table_name = None →
  ensure_target df table_name db
  = if bool_decide (NoDup (frame_columns (head0 df)).*1)
    then (<[table_name := mkTable (frame_columns (head0 df)) None []]> db, Ok ())
    else (db, Raise (DatabaseError "column specified more than once")).
Proof.
  intros Ht. unfold ensure_target, create_table_if_not_exists, create_table,
    has_table.
  rewrite bool_decide_eq_false_2 by (rewrite Ht; by intros [? ?]). done.
Qed.

(** Without a primary key on the unique key there is no merge: the sink
    stays as it is. *)
Lemma merge_stages_no_pkey (df : DataFrame) (table_name unique_key : string)
    (db : Database) (t : table) :
  db !! table_name = Some t → t_pkey t ≠ Some unique_key →
  (merge_stages df table_name unique_key db).1 !! table_name = Some t.
Proof.
  intros Ht Hpk.
  destruct (merge_stages df table_name unique_key db) as [db1 [[]|e]] eqn:Em.
  - apply merge_stages_Ok in Em as (sink & stg & exs & rows' & Hs & _ & _ & Hpk' & _).
    congruence.
  - apply merge_stages_Raise in Em. simpl. congruence.
Qed.

(** Running the merge stages again on the store they left changes
    nothing in the sink. *)
Lemma merge_stages_twice (df : DataFrame) (table_name unique_key : string)
    (db : Database) :
  let db1 := (merge_stages df table_name unique_key db).1 in
  (merge_stages df table_name unique_key db1).1 !! table_name
  = db1 !! table_name.
Proof.
  destruct (merge_stages df table_name unique_key db) as [db1 [[]|e]] eqn:Em;
    simpl.
  - apply merge_stages_Ok in Em
      as (sink & stg & exs & rows' & Hs & Hstg & Hexs & Hpk & Hrows & H1 & Hm).
    destruct (merge_stages df table_name unique_key db1) as [db2 [[]|e2]] eqn:Em2;
      simpl; [| by apply merge_stages_Raise in Em2].
    apply merge_stages_Ok in Em2
      as (sink2 & stg2 & exs2 & rows2 & Hs2 & Hstg2 & Hexs2 & _ & Hrows2 & H2 & _).
    assert (sink2 = mkTable (t_columns sink) (t_pkey sink) rows') as ->
      by congruence.
    assert (stg2 = stg) as ->.
    { destruct (fill_staging_agree df (staging_name table_name) db1 db) as [_ Ha].
      congruence. }
    assert (exs2 = exs) as ->.
    { unfold excluded_row, column_type in *. simpl in Hexs2. congruence. }
    simpl in *. rewrite H2, H1. f_equal. f_equal. rewrite Hrows2.
    by apply foldl_upsert_row_merged_id.
  - pose proof Em as Er. apply merge_stages_Raise in Er.
    destruct (merge_stages_local df table_name unique_key db1 db Er) as [_ Hl].
    rewrite Hl, Em. done.
Qed.

Lemma load_df_to_postgres_upsert_exists (df : DataFrame)
    (table_name unique_key : string) (db : Database) (t : table) :
  db !! table_name = Some t →
  load_df_to_postgres_upsert df table_name unique_key db
  = merge_stages df table_name unique_key db.
Proof.
  intros Ht. rewrite load_df_to_postgres_upsert_merge_stages.
  unfold and_then. by rewrite (ensure_target_exists _ _ _ _ Ht).
Qed.

Lemma load_df_to_postgres_upsert_missing (df : DataFrame)
    (table_name unique_key : string) (db : Database) :
  db !! table_name = None →
  load_df_to_postgres_upsert df table_name unique_key db
  = if bool_decide (NoDup (frame_columns (head0 df)).*1)
    then merge_stages df table_name unique_key
           (<[table_name := mkTable (frame_columns (head0 df)) None []]> db)
    else (db, Raise (DatabaseError "column specified more than once")).
Proof.
  intros Ht. rewrite load_df_to_postgres_upsert_merge_stages.
  unfold and_then. rewrite (ensure_target_missing _ _ _ Ht).
  by destruct (bool_decide _).
Qed.

(** The sink after the upsert load is a fixed point of the load. *)
Lemma load_df_to_postgres_upsert_twice (df : DataFrame)
    (table_name unique_key : string) (db : Database) :
  let db1 := (load_df_to_postgres_upsert df table_name unique_key db).1 in
  (load_df_to_postgres_upsert df table_name unique_key db1).1 !! table_name
  = db1 !! table_name.
Proof.
  simpl. destruct (db !! table_name) as [t|] eqn:Et.
  - rewrite (load_df_to_postgres_upsert_exists _ _ _ db t Et).
    assert (∃ t1, (merge_stages df table_name unique_key db).1 !! table_name
                  = Some t1) as [t1 Ht1].
    { destruct (merge_stages df table_name unique_key db) as [db1 [[]|e]] eqn:Em.
      - apply merge_stages_Ok in Em
          as (sink & stg & exs & rows' & _ & _ & _ & _ & _ & H1 & _).
        eauto.
      - apply merge_stages_Raise in Em. simpl. rewrite Em. eauto. }
    rewrite (load_df_to_postgres_upsert_exists _ _ _ _ t1 Ht1).
    apply merge_stages_twice.
  - rewrite (load_df_to_postgres_upsert_missing _ _ _ db Et).
    destruct (bool_decide _) eqn:End.
    + set (t0 := mkTable (frame_columns (head0 df)) None []).
      assert ((merge_stages df table_name unique_key
                 (<[table_name := t0]> db)).1 !! table_name = Some t0) as H1.
      { apply merge_stages_no_pkey; [apply lookup_insert_eq | done]. }
      rewrite (load_df_to_postgres_upsert_exists _ _ _ _ t0 H1), H1.
      by apply merge_stages_no_pkey.
    + simpl. by rewrite (load_df_to_postgres_upsert_missing _ _ _ db Et), End.
Qed.

End LoadFrame.

(** ** Orchestrator: running twice *)

(** C2: whatever the store, the source object and the settings, the sink
    table after two runs of the pipeline in upsert mode on the same source
    is the sink table after one run: same rows, same count.  On the two
    sample orders and a provisioned sink, both runs return and the sink
    holds the same two rows after each. *)
Theorem C2_pipeline_idempotent :
  (∀ (cfg : Config) (prs : Parsers) (col : Collaborators)
     (object_key : string) (schema_check : bool) (db : Database),
      let once := (run_etl_from_minio_to_postgres object_key true
                     schema_check db).1 in
      let twice := (run_etl_from_minio_to_postgres object_key true
                      schema_check once).1 in
      sink_of twice = sink_of once
      ∧ (length ∘ t_rows) <$> sink_of twice = (length ∘ t_rows) <$> sink_of once)
  ∧ (let run := @run_etl_from_minio_to_postgres default_config Simple.parsers
                  (fixed_source sample_orders) "orders.csv" true true in
     (run orders_sink).2.2 = Ok ()
     ∧ (run (run orders_sink).1).2.2 = Ok ()
     ∧ (length ∘ t_rows) <$> (run orders_sink).1 !! "orders_clean" = Some 2%nat
     ∧ (run (run orders_sink).1).1 !! "orders_clean"
       = (run orders_sink).1 !! "orders_clean").
Proof.
  split; [| by vm_compute].
  intros cfg prs col object_key schema_check db.
  assert (sink_of (run_etl_from_minio_to_postgres object_key true schema_check
                     (run_etl_from_minio_to_postgres object_key true
                        schema_check db).1).1
          = sink_of (run_etl_from_minio_to_postgres object_key true
                       schema_check db).1) as Heq.
  { unfold run_etl_from_minio_to_postgres, sink_of.
    destruct (download_object_as_df object_key) as [df_raw|e]; [| done].
    destruct (transform_orders_df df_raw) as [df_clean|e]; [| done].
    destruct (basic_data_quality_checks df_clean REQUIRED_COLUMNS); [| done].
    unfold load_stage.
    pose proof (load_df_to_postgres_upsert_twice df_clean TARGET_TABLE
                  UNIQUE_KEY db) as Hl. simpl in Hl.
    destruct schema_check.
    - destruct (validate_dataframe_schema df_clean) as [[|m ms]|e]; [| done | done].
      destruct (load_df_to_postgres_upsert df_clean _ _ db) as [db1 r1].
      simpl in *.
      by destruct (load_df_to_postgres_upsert df_clean _ _ db1) as [db2 r2].
    - destruct (load_df_to_postgres_upsert df_clean _ _ db) as [db1 r1].
      simpl in *.
      by destruct (load_df_to_postgres_upsert df_clean _ _ db1) as [db2 r2]. }
  simpl. split; [done | by rewrite Heq].
Qed.

(** ** The statements at concrete inputs *)

Lemma C8_no_null_unique_key_witness :
  ∃ df',
    @transform_orders_df default_config Simple.parsers orders_with_null_key
    = Ok df'
    ∧ (∀ s, s ∈ columns_named "order_id" df' →
            Forall (λ c, isna c = false) (s_values s))
    ∧ index df' = seq 0 (nrows df')
    ∧ nrows df' = 2%nat.
Proof.
  eexists. split; [vm_compute; reflexivity |].
  split; [| split; [| reflexivity]].
  - apply (@C8_no_null_unique_key default_config Simple.parsers
             orders_with_null_key).
    vm_compute. reflexivity.
  - apply (@C8_no_null_unique_key default_config Simple.parsers
             orders_with_null_key).
    vm_compute. reflexivity.
Defined.


Lemma C1_staging_dropped_on_success_witness :
  ∃ db',
    @load_df_to_postgres_upsert Simple.parsers
      (one_order (CInt 3) (CFloat (5 # 2))) "orders_clean" "order_id"
      one_order_sink = (db', Ok ())
    ∧ db' !! staging_name "orders_clean" = None
    ∧ (length ∘ t_rows) <$> db' !! "orders_clean" = Some 1%nat.
Proof.
  eexists. split; [vm_compute; reflexivity |].
  split; [| vm_compute; reflexivity].
  refine (proj1 (C1_staging_dropped_on_success Simple.parsers
                   (one_order (CInt 3) (CFloat (5 # 2))) "orders_clean"
                   "order_id" one_order_sink _ (Ok ()) _) eq_refl).
  vm_compute. reflexivity.
Defined.

Lemma C3_merge_last_writer_wins_witness :
  ∃ db' sink',
    @upsert Simple.parsers "orders_clean" "orders_clean_staging" "order_id"
      ["order_id"; "status"; "total_price"]
      (example_store [delivered_order_1; new_order_2]) = (db', Ok ())
    ∧ db' !! "orders_clean" = Some sink'
    ∧ t_pkey sink' = Some "order_id"
    ∧ ∀ r, r ∈ [delivered_order_1; new_order_2] →
           ∃ k, k ≠ SNull ∧ ∃ r', r' ∈ t_rows sink' ∧ r' !! "order_id" = Some k.
Proof.
  eexists.
  destruct (proj1 C3_merge_last_writer_wins Simple.parsers
              "orders_clean" "orders_clean_staging" "order_id"
              ["order_id"; "status"; "total_price"]
              (example_store [delivered_order_1; new_order_2])
              (<[ "orders_clean" :=
                    mkTable (t_columns example_sink) (t_pkey example_sink)
                      [delivered_order_1; new_order_2] ]>
                 (example_store [delivered_order_1; new_order_2]))
              example_sink
              (example_staging [delivered_order_1; new_order_2]))
    as (sink' & Hs & _ & Hpk & Hrows & _).
  - vm_compute. reflexivity.
  - vm_compute. reflexivity.
  - vm_compute. reflexivity.
  - exists sink'. split; [vm_compute; reflexivity |]. split; [exact Hs |].
    split; [exact Hpk |].
    intros r Hr. destruct (Hrows r Hr) as (k & _ & Hk & Hex & _).
    exists k. split; [exact Hk | exact Hex].
Defined.

Lemma C5_quality_gate_hard_stop_witness :
  ∃ df_clean,
    @transform_orders_df default_config Simple.parsers orders_with_null_key
    = Ok df_clean
    ∧ @basic_data_quality_checks default_config df_clean REQUIRED_COLUMNS ≠ []
    ∧ @run_etl_from_minio_to_postgres default_config Simple.parsers
        (fixed_source orders_with_null_key) "orders.csv" true true orders_sink
      = (orders_sink,
         ([StExtract; StTransform; StQuality],
          Raise (ValueError "Data quality checks failed."))).
Proof.
  eexists. split; [vm_compute; reflexivity |].
  split; [vm_compute; discriminate |].
  refine (proj1 (proj1
    (@C5_quality_gate_hard_stop default_config Simple.parsers
       (fixed_source orders_with_null_key) "orders.csv" true true orders_sink
       orders_with_null_key _ eq_refl _)) _).
  - vm_compute. reflexivity.
  - vm_compute. discriminate.
Defined.

Lemma C6_cast_failure_payload_witness :
  @attempt_cast_date_columns Simple.parsers "orders_clean_staging"
    bad_date_orders {[ "orders_clean_staging" := bad_date_staging ]}
  = ({[ "orders_clean_staging" := bad_date_staging ]},
     Raise (RuntimeError_cast "order_date"
              (DatabaseError "cannot cast to date")
              (take 10 (column_values "order_date" bad_date_staging)))).
Proof.
  apply (proj1 C6_cast_failure_payload Simple.parsers "orders_clean_staging"
           bad_date_orders {[ "orders_clean_staging" := bad_date_staging ]}
           {[ "orders_clean_staging" := bad_date_staging ]}
           [] [] "order_date" (DatabaseError "cannot cast to date")
           bad_date_staging).
  - vm_compute. reflexivity.
  - reflexivity.
  - vm_compute. reflexivity.
  - vm_compute. reflexivity.
Defined.


Lemma C10_quantity_truncated_witness :
  ∃ df' qs,
    @transform_orders_df default_config Simple.parsers
      (one_order (CStr "2.9") (CFloat (5 # 2))) = Ok df'
    ∧ columns_named "quantity" df' = [qs]
    ∧ s_dtype qs = DInt64
    ∧ s_values qs !! 0%nat = Some (CInt (trunc (29 # 10))).
Proof.
  eexists. eexists. split; [vm_compute; reflexivity |].
  split; [vm_compute; reflexivity |].
  destruct (proj1 C10_quantity_truncated default_config
              Simple.parsers (one_order (CStr "2.9") (CFloat (5 # 2)))
              (mkFrame [0%nat]
                 [("order_id", mkSeries DInt64 [CInt 1]);
                  ("quantity", mkSeries DInt64 [CInt 2]);
                  ("price", mkSeries DFloat64 [CFloat (5 # 2)]);
                  ("total_price", mkSeries DFloat64 [CFloat 5])])
              (series_of [CStr "2.9"]) (series_of [CFloat (5 # 2)]))
    as (qs & ps & ts & kept & Hq & _ & _ & Hd & _ & _ & _).
  - vm_compute. reflexivity.
  - vm_compute. reflexivity.
  - vm_compute. reflexivity.
  - reflexivity.
  - reflexivity.
  - vm_compute. discriminate.
  - vm_compute. discriminate.
  - reflexivity.
  - vm_compute in Hq. inversion Hq. subst qs. split; reflexivity.
Defined.

(** * Further properties of the module *)

(** ** Shape of the frame the Transformer returns *)

Lemma column_names_set_column (n : string) (s : Series) (df : DataFrame) :
  column_names (set_column n s df)
  = if has_column n df then column_names df else (column_names df ++ [n])%list.
Proof.
  unfold set_column, column_names. destruct (has_column n df); simpl.
  - induction (columns df) as [|p cols IH]; [done |].
    cbn. f_equal; [by destruct (decide (p.1 = n)) | exact IH].
  - by rewrite fmap_app.
Qed.

Lemma index_set_column (n : string) (s : Series) (df : DataFrame) :
  index (set_column n s df) = index df.
Proof. unfold set_column. by destruct (has_column n df). Qed.

Lemma has_column_names (n : string) (df df' : DataFrame) :
  column_names df' = column_names df → has_column n df' = has_column n df.
Proof. unfold has_column. by intros ->. Qed.

Lemma column_names_dropna (k : string) (df : DataFrame) :
  column_names (dropna k df) = column_names df.
Proof.
  unfold dropna, column_names. simpl.
  induction (columns df) as [|p cols IH]; [done |]. cbn. f_equal. exact IH.
Qed.

Lemma select_mask_length_le {A} (mask : list bool) (l : list A) :
  (length (select_mask mask l) ≤ length l)%nat.
Proof. apply sublist_length, select_mask_sublist. Qed.

Section ShapeFacts.
Context `{Config} `{Parsers}.

Lemma normalise_order_date_shape (df df1 : DataFrame) :
  (if has_column "order_date" df then normalise_order_date df else Ok df) = Ok df1 →
  column_names df1 = column_names df ∧ index df1 = index df.
Proof.
  destruct (has_column "order_date" df) eqn:Hhas; [| by inversion 1].
  unfold normalise_order_date.
  destruct (get_series "order_date" df); [| discriminate].
  simpl. inversion 1. by rewrite column_names_set_column, Hhas, index_set_column.
Qed.

Lemma derive_total_price_shape (df df' : DataFrame) :
  derive_total_price df = Ok df' →
  column_names df'
  = (if has_column "total_price" df then column_names df
     else column_names df ++ ["total_price"])%list
  ∧ index df' = index df.
Proof.
  intros Hd. apply derive_total_price_inv in Hd as (q & p & Hq & Hp & ->).
  assert (has_column "quantity" df = true) as Hhq.
  { apply has_column_named. apply get_series_Ok in Hq. by rewrite Hq. }
  assert (has_column "price" df = true) as Hhp.
  { apply has_column_named. apply get_series_Ok in Hp. by rewrite Hp. }
  rewrite !index_set_column. split; [| done].
  rewrite column_names_set_column.
  rewrite !has_column_set_other by done.
  rewrite (column_names_set_column "price"), has_column_set_other, Hhp by done.
  by rewrite (column_names_set_column "quantity"), Hhq.
Qed.

(** X1.  The labels of the frame returned are the normalised labels of the
    frame given, in the same order, with [total_price] appended when it was
    derived and no column carried that label; and no row is added. *)
Theorem transform_orders_df_shape (df df' : DataFrame) :
  transform_orders_df df = Ok df' →
  let df0 := rename_columns (λ c, PyStr.lower (PyStr.strip c)) df in
  column_names df0 = map (λ c, PyStr.lower (PyStr.strip c)) (column_names df)
  ∧ column_names df'
    = (if has_column "quantity" df0 && has_column "price" df0
          && negb (has_column "total_price" df0)
       then column_names df0 ++ ["total_price"]
       else column_names df0)%list
  ∧ (nrows df' ≤ nrows df)%nat
  ∧ (has_column UNIQUE_KEY df' = false → nrows df' = nrows df).
Proof.
  intros Htr df0.
  apply transform_orders_df_inv in Htr as (df1 & df2 & H1 & H2 & ->).
  fold df0 in H1. apply normalise_order_date_shape in H1 as [Hn1 Hi1].
  assert (column_names df2
          = (if has_column "quantity" df0 && has_column "price" df0
                && negb (has_column "total_price" df0)
             then column_names df0 ++ ["total_price"]
             else column_names df0)%list ∧ index df2 = index df) as [Hn2 Hi2].
  { rewrite !(has_column_names _ df0 df1) in H2 by done.
    destruct (has_column "quantity" df0 && has_column "price" df0).
    - apply derive_total_price_shape in H2 as [-> ->].
      rewrite (has_column_names _ df0 df1), Hn1, Hi1 by done.
      by destruct (has_column "total_price" df0).
    - inversion H2. subst. by rewrite Hn1, Hi1. }
  split.
  { unfold df0, rename_columns, column_names. simpl.
    induction (columns df) as [|p cols IH]; [done |]. cbn. f_equal. exact IH. }
  assert (∀ d, column_names (reset_index d) = column_names d) as Hreset by done.
  split; [| split].
  - rewrite Hreset. destruct (has_column UNIQUE_KEY df2);
      by rewrite ?column_names_dropna.
  - unfold reset_index, nrows at 1. simpl. rewrite length_seq.
    destruct (has_column UNIQUE_KEY df2); unfold nrows; simpl.
    + rewrite <- Hi2. apply select_mask_length_le.
    + by rewrite Hi2.
  - intros Hno.
    assert (has_column UNIQUE_KEY (if has_column UNIQUE_KEY df2
                                   then dropna UNIQUE_KEY df2 else df2) = false)
      as Hno' by exact Hno.
    clear Hno. destruct (has_column UNIQUE_KEY df2) eqn:Hk.
    + rewrite (has_column_names _ df2) in Hno' by apply column_names_dropna.
      congruence.
    + unfold reset_index, nrows. simpl. by rewrite length_seq, Hi2.
Qed.

End ShapeFacts.

(** ** Errors of the Transformer *)

Section RaiseFacts.
Context `{Config} `{Parsers}.





End RaiseFacts.

(** ** Stages of a run *)

Section RunFacts.
Context `{Config} `{Parsers} `{Collaborators}.

(** X3.  A run enters its stages in order, and the store is the caller's until
    the load is entered: a run that stops before the load raises and
    leaves the store exactly as it was. *)
Theorem run_etl_store_untouched_before_load (object_key : string)
    (perform_upsert schema_check : bool) (db : Database) :
  let out := run_etl_from_minio_to_postgres object_key perform_upsert
               schema_check db in
  stages_entered out
    `prefix_of` (if schema_check
                 then [StExtract; StTransform; StQuality; StValidate; StLoad]
                 else [StExtract; StTransform; StQuality; StLoad])
  ∧ (StLoad ∉ stages_entered out → out.1 = db ∧ ∃ e, out.2.2 = Raise e)
  ∧ (out.2.2 = Ok () → StLoad ∈ stages_entered out).
Proof.
  cbv zeta. unfold run_etl_from_minio_to_postgres, stages_entered.
  assert (StLoad ∈ [StExtract; StTransform; StQuality; StValidate; StLoad]) as HL1
    by (apply (bool_decide_unpack _); reflexivity).
  assert (StLoad ∈ [StExtract; StTransform; StQuality; StLoad]) as HL2
    by (apply (bool_decide_unpack _); reflexivity).
  destruct (download_object_as_df object_key) as [df_raw|e]; simpl.
  2: { split; [| split; [eauto | by intros ?]].
       destruct schema_check; eexists; reflexivity. }
  destruct (transform_orders_df df_raw) as [df_clean|e]; simpl.
  2: { split; [| split; [eauto | by intros ?]].
       destruct schema_check; eexists; reflexivity. }
  destruct (basic_data_quality_checks df_clean REQUIRED_COLUMNS); simpl.
  2: { split; [| split; [eauto | by intros ?]].
       destruct schema_check; eexists; reflexivity. }
  destruct schema_check.
  - destruct (validate_dataframe_schema df_clean) as [[|m ms]|e]; simpl.
    + destruct (load_stage perform_upsert df_clean db) as [db' r]. simpl.
      split; [done |]. split; [done | done].
    + split; [eexists; reflexivity |].
      split; [eauto | by intros ?].
    + split; [eexists; reflexivity |].
      split; [eauto | by intros ?].
  - destruct (load_stage perform_upsert df_clean db) as [db' r]. simpl.
    split; [done |]. split; [done | done].
Qed.

(** X4.  The frame the load receives: every required column, at least one
    row, rows labelled without gaps, no null under the unique-key label
    and, the unique key being a required column, no key twice. *)
Theorem run_etl_load_receives_checked_frame (object_key : string)
    (perform_upsert schema_check : bool) (db : Database)
    (df_raw df_clean : DataFrame) :
  download_object_as_df object_key = Ok df_raw →
  transform_orders_df df_raw = Ok df_clean →
  StLoad ∈ stages_entered
             (run_etl_from_minio_to_postgres object_key perform_upsert
                schema_check db) →
  (∀ c, c ∈ REQUIRED_COLUMNS → c ∈ column_names df_clean)
  ∧ nrows df_clean ≠ 0%nat
  ∧ index df_clean = seq 0 (nrows df_clean)
  ∧ (∀ s, s ∈ columns_named UNIQUE_KEY df_clean →
          Forall (λ c, isna c = false) (s_values s))
  ∧ (UNIQUE_KEY ∈ REQUIRED_COLUMNS → NoDup (key_rows UNIQUE_KEY df_clean)).
Proof.
  intros Hdl Htr Hload.
  assert (basic_data_quality_checks df_clean REQUIRED_COLUMNS = []) as Hrep.
  { unfold run_etl_from_minio_to_postgres, stages_entered in Hload.
    rewrite Hdl, Htr in Hload.
    destruct (basic_data_quality_checks df_clean REQUIRED_COLUMNS); [done |].
    simpl in Hload. exfalso. revert Hload.
    change (StLoad ∉ [StExtract; StTransform; StQuality]).
    apply (bool_decide_unpack _). reflexivity. }
  assert (¬ (column_missing REQUIRED_COLUMNS df_clean ∨ nrows df_clean = 0%nat
             ∨ key_duplicated UNIQUE_KEY df_clean)) as Hno.
  { rewrite <- quality_report_nonempty, Hrep. intros Hne. by apply Hne. }
  assert (∀ c, c ∈ REQUIRED_COLUMNS → c ∈ column_names df_clean) as Hreq.
  { intros c Hc. destruct (decide (c ∈ column_names df_clean)); [done |].
    exfalso. apply Hno. left. by exists c. }
  destruct (transform_orders_df_inv _ _ Htr) as (df1 & df2 & _ & _ & Hdf).
  split; [done |]. split; [tauto |]. split.
  { rewrite Hdf. unfold reset_index, nrows. simpl. by rewrite length_seq. }
  split.
  { intros s. rewrite Hdf, columns_named_reset_index.
    destruct (has_column UNIQUE_KEY df2) eqn:Hkey; [apply dropna_key_notna |].
    intros Hs. assert (columns_named UNIQUE_KEY df2 ≠ []) as Hne
      by (intros Hnil; rewrite Hnil in Hs; inversion Hs).
    apply has_column_named in Hne. congruence. }
  intros Hk. destruct (decide (NoDup (key_rows UNIQUE_KEY df_clean))); [done |].
  exfalso. apply Hno. right. right. split; [by apply Hreq |].
  by apply not_NoDup_witness.
Qed.

End RunFacts.

(** ** The upsert load and the store *)

Section LoadFacts.
Context `{Parsers}.

(** X5.  The outcome of the upsert load and the sink it leaves depend on the
    frame and on the sink it finds, and on nothing else in the store: in
    particular a staging table left by a failed run has no influence on
    the next run. *)
Theorem load_df_to_postgres_upsert_depends_on_sink_only (df : DataFrame)
    (table_name unique_key : string) (db db' : Database) :
  db !! table_name = db' !! table_name →
  (load_df_to_postgres_upsert df table_name unique_key db).2
  = (load_df_to_postgres_upsert df table_name unique_key db').2
  ∧ (load_df_to_postgres_upsert df table_name unique_key db).1 !! table_name
    = (load_df_to_postgres_upsert df table_name unique_key db').1 !! table_name.
Proof.
  intros HT. destruct (db !! table_name) as [t|] eqn:Et.
  - rewrite (load_df_to_postgres_upsert_exists _ _ _ db t Et).
    rewrite (load_df_to_postgres_upsert_exists _ _ _ db' t) by done.
    apply merge_stages_local. congruence.
  - rewrite (load_df_to_postgres_upsert_missing _ _ _ db Et).
    rewrite (load_df_to_postgres_upsert_missing _ _ _ db') by done.
    destruct (bool_decide _); simpl.
    + apply merge_stages_local. by rewrite !lookup_insert_eq.
    + split; [done | congruence].
Qed.

Lemma merge_stages_schema (df : DataFrame) (table_name unique_key : string)
    (db : Database) (t : table) :
  db !! table_name = Some t →
  ∃ t', (merge_stages df table_name unique_key db).1 !! table_name = Some t'
        ∧ t_columns t' = t_columns t ∧ t_pkey t' = t_pkey t
        ∧ (length (t_rows t) ≤ length (t_rows t'))%nat.
Proof.
  intros Ht.
  destruct (merge_stages df table_name unique_key db) as [db1 [[]|e]] eqn:Em.
  - apply merge_stages_Ok in Em
      as (sink & stg & exs & rows' & Hs & _ & _ & _ & Hrows & H1 & _).
    assert (sink = t) as -> by congruence.
    eexists. split; [exact H1 |]. split; [done |]. split; [done |].
    simpl. rewrite Hrows. clear. generalize (t_rows t). 
    induction exs as [|ex exs IH]; intros rows; [done |].
    simpl. etrans; [| apply IH]. unfold upsert_row.
    destruct (existsb _ rows); [by rewrite length_map |].
    rewrite length_app. lia.
  - apply merge_stages_Raise in Em. exists t. simpl. rewrite Em. by split.
Qed.

(** X6.  Whatever its outcome, the load leaves an existing sink with the
    columns and the key constraint it had and never with fewer rows; and
    when it raises, the sink is exactly as it was. *)
Theorem load_df_to_postgres_upsert_keeps_sink (df : DataFrame)
    (table_name unique_key : string) (db : Database) (t : table) :
  db !! table_name = Some t →
  (∃ t', (load_df_to_postgres_upsert df table_name unique_key db).1
           !! table_name = Some t'
         ∧ t_columns t' = t_columns t ∧ t_pkey t' = t_pkey t
         ∧ (length (t_rows t) ≤ length (t_rows t'))%nat)
  ∧ (∀ e, (load_df_to_postgres_upsert df table_name unique_key db).2 = Raise e →
          (load_df_to_postgres_upsert df table_name unique_key db).1
            !! table_name = Some t).
Proof.
  intros Ht. rewrite (load_df_to_postgres_upsert_exists _ _ _ db t Ht).
  split; [by apply merge_stages_schema |].
  intros e He.
  destruct (merge_stages df table_name unique_key db) as [db1 r] eqn:Em.
  simpl in *. subst r. apply merge_stages_Raise in Em. congruence.
Qed.

Lemma merge_stages_no_pkey_Raise (df : DataFrame) (table_name unique_key : string)
    (db : Database) (t : table) :
  db !! table_name = Some t → t_pkey t ≠ Some unique_key →
  ∃ e, (merge_stages df table_name unique_key db).2 = Raise e.
Proof.
  intros Ht Hpk.
  destruct (merge_stages df table_name unique_key db) as [db1 [[]|e]] eqn:Em;
    [| eauto].
  apply merge_stages_Ok in Em as (sink & stg & exs & rows' & Hs & _ & _ & Hpk' & _).
  congruence.
Qed.

(** X7.  The load can only complete on a sink that declares its primary key
    on the unique key.  On any other sink it raises and leaves the sink as
    it was; when the sink is missing it raises too, leaving either no sink
    or the empty, unconstrained sink it created, and a retry raises
    again. *)
Theorem load_df_to_postgres_upsert_needs_keyed_sink (df : DataFrame)
    (table_name unique_key : string) (db : Database) :
  let out := load_df_to_postgres_upsert df table_name unique_key db in
  (∀ t, db !! table_name = Some t → t_pkey t ≠ Some unique_key →
        (∃ e, out.2 = Raise e) ∧ out.1 !! table_name = Some t)
  ∧ (db !! table_name = None →
     (∃ e, out.2 = Raise e)
     ∧ (out.1 !! table_name = None
        ∨ out.1 !! table_name
          = Some (mkTable (frame_columns (head0 df)) None []))
     ∧ ∃ e', (load_df_to_postgres_upsert df table_name unique_key out.1).2
             = Raise e').
Proof.
  cbv zeta. split.
  - intros t Ht Hpk. rewrite (load_df_to_postgres_upsert_exists _ _ _ db t Ht).
    split; [by eapply merge_stages_no_pkey_Raise |].
    by apply merge_stages_no_pkey.
  - intros Hnone. rewrite (load_df_to_postgres_upsert_missing _ _ _ db Hnone).
    destruct (bool_decide _) eqn:End.
    + set (t0 := mkTable (frame_columns (head0 df)) None []).
      assert (<[table_name := t0]> db !! table_name = Some t0) as H0
        by apply lookup_insert_eq.
      assert (t_pkey t0 ≠ Some unique_key) as Hpk by done.
      pose proof (merge_stages_no_pkey df table_name unique_key _ t0 H0 Hpk) as H1.
      split; [by eapply merge_stages_no_pkey_Raise |]. split; [by right |].
      rewrite (load_df_to_postgres_upsert_exists _ _ _ _ t0 H1).
      by eapply merge_stages_no_pkey_Raise.
    + simpl. split; [eauto |]. split; [by left |].
      rewrite (load_df_to_postgres_upsert_missing _ _ _ db Hnone), End. eauto.
Qed.

Lemma upsert_frame (table_name staging_table unique_key : string)
    (columns : list string) (m : string) (db : Database) :
  m ≠ table_name →
  (upsert table_name staging_table unique_key columns db).1 !! m = db !! m.
Proof.
  intros Hne.
  destruct (upsert table_name staging_table unique_key columns db)
    as [db' [[]|e]] eqn:Eu; simpl.
  - apply upsert_Ok in Eu as (sink & stg & exs & _ & _ & _ & _ & _ & _ & ->).
    by rewrite lookup_insert_ne.
  - apply upsert_Raise in Eu. by subst.
Qed.

(** X8.  The load reads and writes two tables, the sink and its staging
    table; every other table of the store is left as it was. *)
Theorem load_df_to_postgres_upsert_frame (df : DataFrame)
    (table_name unique_key : string) (m : string) (db : Database) :
  m ≠ table_name → m ≠ staging_name table_name →
  (load_df_to_postgres_upsert df table_name unique_key db).1 !! m = db !! m.
Proof.
  intros HT HS. rewrite load_df_to_postgres_upsert_merge_stages.
  unfold and_then.
  assert (∀ d, (merge_stages df table_name unique_key d).1 !! m = d !! m) as Hms.
  { intros d. unfold merge_stages, and_then.
    pose proof (fill_staging_frame df (staging_name table_name) m d HS) as Hf.
    destruct (fill_staging df _ d) as [d3 [[]|e]]; simpl in *; [| done].
    destruct (upsert_transaction _ _ _ _ d3) as [d4 [[]|e]] eqn:Et; simpl.
    - apply upsert_transaction_Ok in Et as (d5 & Hu & ->).
      rewrite lookup_delete_ne by done.
      pose proof (upsert_frame table_name (staging_name table_name) unique_key
                    (column_names df) m d3 HT) as Hu'.
      rewrite Hu in Hu'. simpl in Hu'. congruence.
    - apply upsert_transaction_Raise in Et. by subst. }
  destruct (db !! table_name) as [t|] eqn:Et.
  - rewrite (ensure_target_exists _ _ _ _ Et). apply Hms.
  - rewrite (ensure_target_missing _ _ _ Et).
    destruct (bool_decide _); simpl; [| done].
    rewrite Hms. by rewrite lookup_insert_ne.
Qed.

End LoadFacts.

(** ** Keys of the sink under a merge *)

Section MergeKeys.
Variable key : string.
Variables updates sink_cols : list string.
Hypothesis key_not_updated : key ∉ updates.
Hypothesis key_in_sink : key ∈ sink_cols.

Lemma upsert_row_keys (rows : list row) (ex : row) :
  map (λ r : row, r !! key) (upsert_row key updates sink_cols rows ex)
  = if existsb (conflicts key ex) rows
    then map (λ r : row, r !! key) rows
    else (map (λ r : row, r !! key) rows ++ [Some (key_of key ex)])%list.
Proof.
  unfold upsert_row. destruct (existsb _ rows).
  - rewrite map_map. apply map_ext. intros r.
    destruct (conflicts key ex r); [| done]. by apply do_update_key.
  - rewrite map_app. simpl. by rewrite inserted_row_lookup.
Qed.

Lemma foldl_upsert_row_keys (rows exs : list row) :
  NoDup (map (key_of key) exs) →
  ∃ ks : list sqlval,
    map (λ r : row, r !! key)
        (foldl (upsert_row key updates sink_cols) rows exs)
    = (map (λ r : row, r !! key) rows ++ map Some ks)%list
    ∧ NoDup ks
    ∧ (∀ k, k ∈ ks → k ∈ map (key_of key) exs)
    ∧ (∀ k, k ∈ ks → Some k ∉ map (λ r : row, r !! key) rows).
Proof.
  revert rows. induction exs as [|ex exs IH]; intros rows Hnd.
  - exists []. simpl. rewrite app_nil_r. repeat split; [constructor | |];
      intros k Hk; inversion Hk.
  - simpl in Hnd. apply NoDup_cons in Hnd as [Hout Hnd]. simpl.
    destruct (IH (upsert_row key updates sink_cols rows ex) Hnd)
      as (ks & Hks & Hndks & Hsub & Hdisj).
    rewrite upsert_row_keys in Hks, Hdisj.
    destruct (existsb (conflicts key ex) rows) eqn:Ec.
    + exists ks. split; [done |]. split; [done |]. split; [| done].
      intros k Hk. right. by apply Hsub.
    + exists (key_of key ex :: ks). split; [| split; [| split]].
      * rewrite Hks, <- app_assoc. done.
      * apply NoDup_cons. split; [| done]. intros Hin.
        apply (Hdisj _ Hin). apply elem_of_app. right. left.
      * intros k Hk. apply elem_of_cons in Hk as [->|Hk]; [left |].
        right. by apply Hsub.
      * intros k Hk. apply elem_of_cons in Hk as [->|Hk].
        -- intros Hin. apply list_elem_of_fmap in Hin as (r & Hr & Hin).
           assert (existsb (conflicts key ex) rows = true) as Hex.
           { apply existsb_exists. exists r. split; [by apply list_elem_of_In |].
             by apply conflicts_spec. }
           congruence.
        -- intros Hin. apply (Hdisj _ Hk). apply elem_of_app. by left.
Qed.

End MergeKeys.

Lemma pkey_ok_Some (k : string) (rows : list row) :
  pkey_ok (Some k) rows = true
  ↔ Forall (λ v, v ≠ SNull) (map (λ r : row, default SNull (r !! k)) rows)
    ∧ NoDup (map (λ r : row, default SNull (r !! k)) rows).
Proof.
  unfold pkey_ok. rewrite andb_true_iff, bool_decide_eq_true.
  apply and_iff_compat_r. rewrite forallb_forall, Forall_forall.
  split; intros Hall v Hv.
  - apply list_elem_of_In in Hv. specialize (Hall v Hv). by destruct v.
  - apply list_elem_of_In in Hv. specialize (Hall v Hv). by destruct v.
Qed.

Section MergeInvariant.
Context `{Parsers}.

(** X9.  A merge keeps what is stored under every key it finds, in place, and
    adds the rows under new keys after them: the keys of the sink are the
    keys it had, followed by pairwise distinct, non-null keys it did not
    have.  A sink that honoured its primary key honours it after the
    merge. *)
Theorem upsert_keeps_primary_key (table_name staging_table unique_key : string)
    (columns : list string) (db db' : Database) (sink : table) :
  upsert table_name staging_table unique_key columns db = (db', Ok ()) →
  db !! table_name = Some sink →
  ∃ sink' (ks : list sqlval),
    db' !! table_name = Some sink'
    ∧ map (λ r : row, r !! unique_key) (t_rows sink')
      = (map (λ r : row, r !! unique_key) (t_rows sink) ++ map Some ks)%list
    ∧ NoDup ks
    ∧ Forall (λ k, k ≠ SNull) ks
    ∧ (∀ k, k ∈ ks → Some k ∉ map (λ r : row, r !! unique_key) (t_rows sink))
    ∧ length (t_rows sink') = (length (t_rows sink) + length ks)%nat
    ∧ (pkey_ok (t_pkey sink) (t_rows sink) = true →
       pkey_ok (t_pkey sink') (t_rows sink') = true).
Proof.
  intros Hu Hs.
  pose proof Hu as Hu'.
  apply upsert_Ok in Hu'
    as (sink0 & stg & exs & Hs0 & Ht & Hpk & Hexs & Hnn & Hnd & ->).
  assert (sink0 = sink) as -> by congruence.
  set (upd := filter (λ c, c ≠ unique_key) columns) in *.
  set (rows' := foldl (upsert_row unique_key upd (t_columns sink).*1)
                      (t_rows sink) exs).
  assert (∃ ks : list sqlval,
            map (λ r : row, r !! unique_key) rows'
            = (map (λ r : row, r !! unique_key) (t_rows sink) ++ map Some ks)%list
            ∧ NoDup ks
            ∧ (∀ k, k ∈ ks → k ∈ map (key_of unique_key) exs)
            ∧ (∀ k, k ∈ ks →
                    Some k ∉ map (λ r : row, r !! unique_key) (t_rows sink)))
    as (ks & Hks & Hndks & Hsub & Hdisj).
  { destruct (decide (unique_key ∈ (t_columns sink).*1)) as [Hkin|Hkout].
    - apply foldl_upsert_row_keys; [| done | done].
      intros Hin. by apply list_elem_of_filter in Hin as [? _].
    - assert (exs = []) as Hnil.
      { destruct exs as [|ex exs']; [done |]. exfalso. apply Hkout.
        apply mapM_Some in Hexs.
        assert (∃ r, excluded_row sink stg columns r = Some ex) as [r Hr]
          by (inversion Hexs; eauto).
        assert (key_of unique_key ex ≠ SNull) as Hk by (by inversion Hnn).
        destruct (excluded_row_key _ _ _ _ _ _ Hr Hk)
          as (_ & _ & (? & to & _ & Hto & _)).
        by eapply column_type_elem. }
      exists []. unfold rows'. rewrite Hnil. simpl. rewrite app_nil_r.
      repeat split; [constructor | |]; intros k Hk; inversion Hk. }
  assert (Forall (λ k, k ≠ SNull) ks) as Hksnn.
  { apply Forall_forall. intros k Hk. apply Hsub in Hk.
    apply list_elem_of_fmap in Hk as (ex & -> & Hex).
    rewrite Forall_forall in Hnn. by apply Hnn. }
  exists (mkTable (t_columns sink) (t_pkey sink) rows'), ks.
  split; [apply lookup_insert_eq |]. split; [exact Hks |].
  split; [done |]. split; [done |]. split; [done |]. split.
  { simpl. apply (f_equal length) in Hks.
    rewrite length_app, !length_map in Hks. done. }
  simpl. rewrite Hpk, !pkey_ok_Some. intros [Hall Hnodup].
  assert (map (λ r : row, default SNull (r !! unique_key)) rows'
          = (map (λ r : row, default SNull (r !! unique_key)) (t_rows sink)
             ++ ks)%list) as Hdef.
  { transitivity (map (default SNull) (map (λ r : row, r !! unique_key) rows'));
      [by rewrite map_map |].
    rewrite Hks, map_app, !map_map. f_equal. simpl.
    clear. induction ks as [|k ks IH]; [done |]. simpl. by rewrite IH. }
  rewrite Hdef. split.
  - apply Forall_app. by split.
  - apply NoDup_app. split; [done |]. split; [| done].
    intros v Hv Hin. apply list_elem_of_fmap in Hv as (r & -> & Hr).
    apply (Hdisj _ Hin).
    assert (default SNull (r !! unique_key) ≠ SNull) as Hne.
    { rewrite Forall_forall in Hksnn. by apply Hksnn. }
    destruct (r !! unique_key) as [v|] eqn:Ev; [| done]. simpl.
    rewrite <- Ev. by apply (list_elem_of_fmap_2 (λ r : row, r !! unique_key)).
Qed.

End MergeInvariant.

(** ** Bulk copy *)

Section CopyFacts.
Context `{Parsers}.

Lemma frame_rows_length (df : DataFrame) : length (frame_rows df) = nrows df.
Proof. unfold frame_rows. by rewrite length_map, length_seq. Qed.

Lemma copy_row_dom (cols : list Column) (cells : list cell) (r : row) (c : string) :
  copy_row cols cells = Some r → is_Some (r !! c) → c ∈ cols.*1.
Proof.
  unfold copy_row. destruct (bool_decide _); [| done].
  destruct (mapM _ _) as [vs|]; [| done]. simpl. intros Hr [v Hv].
  inversion Hr. subst r. apply elem_of_list_to_map_2 in Hv.
  by apply elem_of_zip_l in Hv.
Qed.

(** What a successful bulk copy does, as an equation. *)
Lemma copy_df_to_table_via_copy_Ok (df : DataFrame) (n : string)
    (db db' : Database) :
  copy_df_to_table_via_copy df n db = (db', Ok ()) →
  ∃ t rs,
    db !! n = Some t
    ∧ mapM (copy_row (t_columns t)) (frame_rows df) = Some rs
    ∧ pkey_ok (t_pkey t) (t_rows t ++ rs) = true
    ∧ db' = <[n := mkTable (t_columns t) (t_pkey t) (t_rows t ++ rs)]> db.
Proof.
  unfold copy_df_to_table_via_copy. intros Hc.
  destruct (db !! n) as [t|]; [| by inversion Hc].
  destruct (mapM _ _) as [rs|] eqn:Ers; [| by inversion Hc].
  destruct (pkey_ok _ _) eqn:Epk; [| by inversion Hc].
  inversion Hc. subst. exists t, rs. repeat split; done.
Qed.

Lemma copy_df_to_table_via_copy_Raise (df : DataFrame) (n : string)
    (db db' : Database) (e : py_error) :
  copy_df_to_table_via_copy df n db = (db', Raise e) → db' = db.
Proof.
  unfold copy_df_to_table_via_copy. intros Hc.
  destruct (db !! n) as [t|]; [| by inversion Hc].
  destruct (mapM _ _) as [rs|]; [| by inversion Hc].
  destruct (pkey_ok _ _); by inversion Hc.
Qed.

(** X10.  The bulk copy is all or nothing.  When it raises, the store is as it
    was (and it raises when the table is missing).  When it returns, the
    table has the rows it had, in place, followed by one row per row of
    the frame, each holding values for columns of the table only, and the
    table's primary key is honoured. *)
Theorem copy_df_to_table_via_copy_all_or_nothing (df : DataFrame) (n : string)
    (db db' : Database) (r : result ()) :
  copy_df_to_table_via_copy df n db = (db', r) →
  (∀ e, r = Raise e → db' = db)
  ∧ (db !! n = None → ∃ e, r = Raise e)
  ∧ (r = Ok () →
     ∃ t rs,
       db !! n = Some t
       ∧ length rs = nrows df
       ∧ db' = <[n := mkTable (t_columns t) (t_pkey t) (t_rows t ++ rs)]> db
       ∧ pkey_ok (t_pkey t) (t_rows t ++ rs) = true
       ∧ ∀ x c, x ∈ rs → is_Some (x !! c) → c ∈ (t_columns t).*1).
Proof.
  intros Hc. split; [| split].
  - intros e ->. by eapply copy_df_to_table_via_copy_Raise.
  - intros Hn. unfold copy_df_to_table_via_copy in Hc. rewrite Hn in Hc.
    inversion Hc. eauto.
  - intros ->. apply copy_df_to_table_via_copy_Ok in Hc
      as (t & rs & Ht & Hrs & Hpk & ->).
    exists t, rs. split; [done |]. split.
    { apply length_mapM in Hrs. by rewrite <- Hrs, frame_rows_length. }
    split; [done |]. split; [done |].
    intros x c Hx Hsome. apply mapM_Some in Hrs.
    apply list_elem_of_lookup in Hx as [i Hi].
    destruct (Forall2_lookup_r _ _ _ _ _ Hrs Hi) as (cells & _ & Hrow).
    by eapply copy_row_dom.
Qed.

(** X11.  Appending is not idempotent.  After a frame with at least one row has
    been copied into a table, copying it again raises when the table has
    a primary key (and changes nothing), and stores every row of the
    frame a second time when it has none. *)
Theorem copy_df_to_table_via_copy_twice (df : DataFrame) (n : string)
    (db db1 : Database) (t : table) :
  db !! n = Some t →
  copy_df_to_table_via_copy df n db = (db1, Ok ()) →
  nrows df ≠ 0%nat →
  (t_pkey t ≠ None → ∃ e, copy_df_to_table_via_copy df n db1 = (db1, Raise e))
  ∧ (t_pkey t = None →
     ∃ rs, length rs = nrows df
           ∧ db1 !! n = Some (mkTable (t_columns t) None (t_rows t ++ rs))
           ∧ copy_df_to_table_via_copy df n db1
             = (<[n := mkTable (t_columns t) None ((t_rows t ++ rs) ++ rs)]> db1,
                Ok ())).
Proof.
  intros Ht Hc Hne.
  apply copy_df_to_table_via_copy_Ok in Hc as (t0 & rs & Ht0 & Hrs & Hpk & ->).
  assert (t0 = t) as -> by congruence.
  assert (length rs = nrows df) as Hlen.
  { apply length_mapM in Hrs. by rewrite <- Hrs, frame_rows_length. }
  unfold copy_df_to_table_via_copy. rewrite lookup_insert_eq. simpl. rewrite Hrs.
  split.
  - intros Hk. destruct (t_pkey t) as [k|] eqn:Ek; [| done].
    assert (pkey_ok (Some k) ((t_rows t ++ rs) ++ rs) = false) as ->; [| eauto].
    unfold pkey_ok. apply andb_false_intro2, bool_decide_eq_false.
    destruct rs as [|x rs]; [simpl in Hlen; congruence |].
    rewrite !map_app. intros Hnd. apply NoDup_app in Hnd as (_ & Hdisj & _).
    apply (Hdisj (default SNull (x !! k))).
    + apply elem_of_app. right. simpl. left.
    + simpl. left.
  - intros Hk. rewrite Hk. exists rs. split; [done |]. split; [done |]. done.
Qed.

End CopyFacts.

(** ** Column declarations and date coercion *)

Lemma frame_columns_names (df : DataFrame) :
  (frame_columns df).*1 = column_names df.
Proof.
  unfold frame_columns, column_names.
  induction (columns df) as [|p cols IH]; [done |].
  cbn. rewrite pandas_dtype_to_sqlalchemy_dtype. simpl. f_equal. exact IH.
Qed.

Section ReconcilerPost.
Context `{Parsers}.

Lemma cast_to_date_value (from : sqltype) (v v' : sqlval) :
  cast_to_date from v = Some v' → v' = SNull ∨ ∃ d, v' = SDate d.
Proof.
  destruct from, v; simpl; intros Hc; try discriminate;
    try (inversion Hc; eauto; fail).
  destruct (pg_date_in s); inversion Hc. eauto.
Qed.

Lemma column_type_retype (c c0 : string) (cols : list Column)
    (pk : option string) (rows rows' : list row) :
  column_type c0
    (mkTable (map (λ p : Column, if decide (p.1 = c) then (c, Date) else p) cols)
       pk rows')
  = if decide (c0 = c)
    then match column_type c (mkTable cols pk rows) with
         | Some _ => Some Date
         | None => None
         end
    else column_type c0 (mkTable cols pk rows).
Proof.
  unfold column_type. simpl. destruct (decide (c0 = c)) as [->|Hc].
  - induction cols as [|[n ty] cols IH]; simpl; [by rewrite !lookup_empty |].
    destruct (decide (n = c)) as [->|Hn]; simpl.
    + by rewrite !lookup_insert_eq.
    + by rewrite !lookup_insert_ne.
  - induction cols as [|[n ty] cols IH]; simpl; [by rewrite !lookup_empty |].
    destruct (decide (n = c)) as [->|Hn]; simpl.
    + by rewrite !lookup_insert_ne.
    + destruct (decide (n = c0)) as [->|Hn0].
      * by rewrite !lookup_insert_eq.
      * by rewrite !lookup_insert_ne.
Qed.

(** What a successful [ALTER TABLE .. TYPE date] leaves. *)
Lemma alter_column_to_date_Ok (tbl c : string) (db db' : Database) :
  alter_column_to_date tbl c db = (db', Ok ()) →
  ∃ t t',
    db !! tbl = Some t ∧ db' = <[tbl := t']> db
    ∧ (t_columns t').*1 = (t_columns t).*1 ∧ t_pkey t' = t_pkey t
    ∧ column_type c t' = Some Date
    ∧ (∀ c0, c0 ≠ c → column_type c0 t' = column_type c0 t)
    ∧ Forall2 (λ r r' : row,
                 (r' !! c = Some SNull ∨ ∃ d, r' !! c = Some (SDate d))
                 ∧ ∀ c0, c0 ≠ c → r' !! c0 = r !! c0)
              (t_rows t) (t_rows t').
Proof.
  unfold alter_column_to_date. intros Ha.
  destruct (db !! tbl) as [t|] eqn:Et; [| by inversion Ha].
  destruct (column_type c t) as [ty|] eqn:Ety; [| by inversion Ha].
  destruct (mapM _ (t_rows t)) as [rows'|] eqn:Er; [| by inversion Ha].
  inversion Ha. subst db'. eexists t, _. split; [done |]. split; [done |].
  destruct t as [cols pk rows]. simpl in *.
  split; [| split; [done | split; [| split]]].
  - clear. induction cols as [|p cols IH]; [done |]. cbn.
    f_equal; [by destruct (decide (p.1 = c)) as [<-|] | exact IH].
  - rewrite (column_type_retype c c cols pk rows rows').
    by rewrite decide_True, Ety.
  - intros c0 Hc0. rewrite (column_type_retype c c0 cols pk rows rows').
    by rewrite decide_False.
  - apply mapM_Some in Er. eapply Forall2_impl; [exact Er |].
    intros r r' Hr. simpl in Hr.
    destruct (cast_to_date ty (default SNull (r !! c))) as [v|] eqn:Ev;
      [| discriminate].
    simpl in Hr. inversion Hr. subst r'. split.
    + rewrite lookup_insert_eq.
      destruct (cast_to_date_value _ _ _ Ev) as [->|[d ->]]; eauto.
    + intros c0 Hc0. by rewrite lookup_insert_ne.
Qed.

End ReconcilerPost.

(** ** The staging table after date coercion *)

Section ReconcilerInvariant.
Context `{Parsers}.

Lemma alter_column_to_date_dated (tbl c : string) (db db' : Database) (t : table) :
  alter_column_to_date tbl c db = (db', Ok ()) →
  db !! tbl = Some t →
  ∃ t',
    db' !! tbl = Some t'
    ∧ dated c t' ∧ (∀ c0, dated c0 t → dated c0 t')
    ∧ (t_columns t').*1 = (t_columns t).*1 ∧ t_pkey t' = t_pkey t
    ∧ length (t_rows t') = length (t_rows t)
    ∧ (∀ c0, c0 ≠ c → column_type c0 t' = column_type c0 t)
    ∧ Forall2 (λ r r' : row, ∀ c0, c0 ≠ c → r' !! c0 = r !! c0)
              (t_rows t) (t_rows t').
Proof.
  intros Ha Ht.
  apply alter_column_to_date_Ok in Ha
    as (t0 & t' & Ht0 & -> & Hn & Hpk & Hty & Hoth & Hrows).
  assert (t0 = t) as -> by congruence.
  exists t'. split; [apply lookup_insert_eq |].
  assert (dated c t') as Hd.
  { split; [done |]. apply Forall_forall. intros r' Hr'.
    apply list_elem_of_lookup in Hr' as [i Hi].
    by destruct (Forall2_lookup_r _ _ _ _ _ Hrows Hi) as (r & _ & Hr & _). }
  split; [done |]. split.
  { intros c0 [Hty0 Hv0]. destruct (decide (c0 = c)) as [->|Hne]; [done |].
    split; [by rewrite Hoth |]. apply Forall_forall. intros r' Hr'.
    apply list_elem_of_lookup in Hr' as [i Hi].
    destruct (Forall2_lookup_r _ _ _ _ _ Hrows Hi) as (r & Hri & _ & Hsame).
    rewrite Hsame by done. rewrite Forall_forall in Hv0. apply Hv0.
    by eapply list_elem_of_lookup_2. }
  split; [done |]. split; [done |].
  split; [symmetry; by eapply Forall2_length |]. split; [done |].
  eapply Forall2_impl; [exact Hrows |]. by intros r r' [_ ?].
Qed.

Lemma cast_one_Ok (tbl c : string) (db db' : Database) :
  cast_one tbl c db = (db', Ok ()) → alter_column_to_date tbl c db = (db', Ok ()).
Proof.
  unfold cast_one. destruct (alter_column_to_date tbl c db) as [d [[]|e]];
    [by inversion 1 |].
  by destruct (select_limit tbl c 10 d) as [? [?|?]].
Qed.

Lemma cast_each_dated (tbl : string) (cs : list string) (db db' : Database)
    (t : table) :
  cast_each tbl cs db = (db', Ok ()) →
  db !! tbl = Some t →
  ∃ t',
    db' !! tbl = Some t'
    ∧ (∀ c, c ∈ cs → dated c t') ∧ (∀ c0, dated c0 t → dated c0 t')
    ∧ (t_columns t').*1 = (t_columns t).*1 ∧ t_pkey t' = t_pkey t
    ∧ length (t_rows t') = length (t_rows t)
    ∧ (∀ c0, c0 ∉ cs → column_type c0 t' = column_type c0 t)
    ∧ Forall2 (λ r r' : row, ∀ c0, c0 ∉ cs → r' !! c0 = r !! c0)
              (t_rows t) (t_rows t').
Proof.
  revert db t. induction cs as [|c cs IH]; intros db t Hc Ht.
  - inversion Hc. subst db'. exists t. split; [done |].
    split; [intros c Hin; inversion Hin |]. split; [done |].
    split; [done |]. split; [done |]. split; [done |]. split; [done |].
    apply Forall_Forall2_diag, Forall_true. done.
  - simpl in Hc. unfold and_then in Hc.
    destruct (cast_one tbl c db) as [db1 [[]|e]] eqn:E1; [| done].
    apply cast_one_Ok in E1.
    destruct (alter_column_to_date_dated _ _ _ _ _ E1 Ht)
      as (t1 & Ht1 & Hd1 & Hp1 & Hn1 & Hk1 & Hl1 & Ho1 & Hr1).
    destruct (IH _ _ Hc Ht1)
      as (t' & Ht' & Hd & Hp & Hn & Hk & Hl & Ho & Hr).
    exists t'. split; [done |]. split.
    { intros c0 Hin. apply elem_of_cons in Hin as [->|Hin]; [by apply Hp |].
      by apply Hd. }
    split; [intros c0 H0; by apply Hp, Hp1 |].
    split; [congruence |]. split; [congruence |]. split; [congruence |].
    split.
    { intros c0 Hout. rewrite Ho, Ho1; [done | |];
        intros Hin; apply Hout; [subst; left | by right]. }
    eapply Forall2_trans; [| exact Hr1 | exact Hr].
    intros r r1 r2 H1 H2 c0 Hout.
    rewrite H2, H1; [done | |]; intros Hin; apply Hout; [subst; left | by right].
Qed.

(** X12.  The staging table the load merges from.  When staging create, bulk
    copy and date coercion have all returned, the staging table has no
    key constraint, the columns of the frame in the frame's order, one row
    per row of the frame; every date-like column is declared [date] and
    holds dates and NULLs only, and every other column has the type
    inferred for it. *)
Theorem fill_staging_Ok_table (df : DataFrame) (staging_table : string)
    (db db' : Database) :
  fill_staging df staging_table db = (db', Ok ()) →
  ∃ t,
    db' !! staging_table = Some t
    ∧ t_pkey t = None
    ∧ (t_columns t).*1 = column_names df
    ∧ NoDup (column_names df)
    ∧ length (t_rows t) = nrows df
    ∧ (∀ c, c ∈ date_cols df → dated c t)
    ∧ (∀ c, c ∉ date_cols df →
            column_type c t
            = column_type c (mkTable (frame_columns df) None [])).
Proof.
  unfold fill_staging, and_then. rewrite create_staging_table_eq.
  destruct (bool_decide (NoDup (frame_columns df).*1)) eqn:End; [| done].
  apply bool_decide_eq_true in End. rewrite frame_columns_names in End.
  set (t0 := mkTable (frame_columns df) None []).
  destruct (copy_df_to_table_via_copy df staging_table (<[staging_table := t0]> db))
    as [db1 [[]|e]] eqn:Ec; [| done].
  apply copy_df_to_table_via_copy_Ok in Ec as (t1 & rs & Ht1 & Hrs & _ & ->).
  rewrite lookup_insert_eq in Ht1. inversion Ht1. subst t1. simpl in *.
  intros Hcast. unfold attempt_cast_date_columns in Hcast.
  destruct (cast_each_dated _ _ _ _ _ Hcast (lookup_insert_eq _ _ _))
    as (t' & Ht' & Hd & _ & Hn & Hk & Hl & Ho & _).
  exists t'. split; [done |]. split; [done |].
  split; [by rewrite Hn; simpl; rewrite frame_columns_names |].
  split; [done |]. split.
  { rewrite Hl. simpl. apply length_mapM in Hrs.
    by rewrite <- Hrs, frame_rows_length. }
  split; [done |]. intros c Hc. by rewrite Ho.
Qed.

End ReconcilerInvariant.

(** ** Structural validation *)

Section SchemaFacts.
Import Schema.
Context `{Validator}.

Lemma validate_rows_elem (s : schema) (limit : Z)
    (rows : list (list (string * cell))) (i : nat) (msgs : list schema_msg)
    (m : schema_msg) :
  m ∈ validate_rows s limit i rows msgs
  ↔ m ∈ msgs
    ∨ ∃ j rec,
        rows !! j = Some rec ∧ (Z.of_nat (i + j) < limit)%Z
        ∧ validate_row_with_schema rec s ≠ []
        ∧ m = mkMsg (i + j) (validate_row_with_schema rec s) rec.
Proof.
  revert i msgs. induction rows as [|rec0 rest IH]; intros i msgs; simpl.
  - split; [by left |]. intros [?|(j & rec & Hj & _)]; [done |]. inversion Hj.
  - destruct (Z.leb_spec limit (Z.of_nat i)) as [Hge|Hlt].
    + split; [by left |]. intros [?|(j & rec & _ & Hlim & _)]; [done | lia].
    + rewrite IH. split.
      * intros [Hin|(j & rec & Hj & Hlim & Hne & ->)].
        -- destruct (validate_row_with_schema rec0 s) as [|e es] eqn:Ev;
             [by left |].
           apply elem_of_app in Hin as [?|Hin]; [by left |].
           apply list_elem_of_singleton in Hin. right.
           exists 0%nat, rec0. rewrite Nat.add_0_r, Ev. by repeat split.
        -- right. exists (S j), rec. rewrite <- Nat.add_succ_comm.
           by repeat split.
      * intros [Hin|(j & rec & Hj & Hlim & Hne & ->)].
        -- left. destruct (validate_row_with_schema rec0 s); [done |].
           apply elem_of_app. by left.
        -- destruct j as [|j].
           ++ simpl in Hj. inversion Hj. subst rec0. left.
              destruct (validate_row_with_schema rec s) as [|e es] eqn:Ev;
                [done |].
              apply elem_of_app. right. rewrite Nat.add_0_r.
              by apply list_elem_of_singleton.
           ++ right. exists j, rec. rewrite Nat.add_succ_comm.
              by repeat split.
Qed.

Lemma validate_rows_increasing (s : schema) (limit : Z)
    (rows : list (list (string * cell))) (i : nat) (msgs : list schema_msg) :
  (∀ a b x y, msgs !! a = Some x → msgs !! b = Some y → (a < b)%nat →
              (row_index x < row_index y)%nat) →
  Forall (λ m, (row_index m < i)%nat) msgs →
  ∀ a b x y,
    validate_rows s limit i rows msgs !! a = Some x →
    validate_rows s limit i rows msgs !! b = Some y →
    (a < b)%nat → (row_index x < row_index y)%nat.
Proof.
  revert i msgs. induction rows as [|rec0 rest IH]; intros i msgs Hs Hlt;
    simpl; [done |].
  destruct (limit <=? Z.of_nat i)%Z; [done |].
  apply IH.
  - destruct (validate_row_with_schema rec0 s) as [|e es]; [done |].
    intros a b x y Ha Hb Hab.
    apply lookup_app_Some in Ha as [Ha|[Hla Ha]];
      apply lookup_app_Some in Hb as [Hb|[Hlb Hb]].
    + by eapply Hs.
    + apply list_lookup_singleton_Some in Hb as [_ <-]. simpl.
      eapply (proj1 (Forall_lookup _ _) Hlt); exact Ha.
    + apply lookup_lt_Some in Hb. lia.
    + apply list_lookup_singleton_Some in Ha as [Ha _].
      apply list_lookup_singleton_Some in Hb as [Hb _]. lia.
  - destruct (validate_row_with_schema rec0 s).
    + eapply Forall_impl; [exact Hlt |]. simpl. lia.
    + apply Forall_app. split.
      * eapply Forall_impl; [exact Hlt |]. simpl. lia.
      * repeat constructor.
Qed.

(** X13.  Structural validation looks at the first [sample_limit] records and
    at no other.  Once the schema document is read, the list returned
    holds exactly one entry for each record below the limit that the
    validator faults, carrying the record, its position and its messages,
    in increasing order of position; a record at or beyond the limit is
    never reported.  Without the schema document the call raises
    [FileNotFoundError], whatever the frame. *)
Theorem validate_dataframe_schema_sampled (df : DataFrame)
    (schema_path : string) (sample_limit : Z) :
  (read_schema schema_path = None →
   validate_dataframe_schema df schema_path sample_limit
   = FileNotFoundError ("Schema file not found: " ++ schema_path))
  ∧ (∀ s, read_schema schema_path = Some s →
       ∃ msgs,
         validate_dataframe_schema df schema_path sample_limit = Returned msgs
         ∧ (∀ m, m ∈ msgs ↔
                 ∃ i rec,
                   to_dict_records df !! i = Some rec
                   ∧ (Z.of_nat i < sample_limit)%Z
                   ∧ validate_row_with_schema rec s ≠ []
                   ∧ m = mkMsg i (validate_row_with_schema rec s) rec)
         ∧ (∀ a b x y, msgs !! a = Some x → msgs !! b = Some y →
              (a < b)%nat → (row_index x < row_index y)%nat)
         ∧ (∀ m, m ∈ msgs → (row_index m < nrows df)%nat)).
Proof.
  unfold validate_dataframe_schema, load_json_schema. split.
  - by intros ->.
  - intros s ->. eexists. split; [done |].
    assert (∀ m, m ∈ validate_rows s sample_limit 0 (to_dict_records df) []
                 ↔ ∃ i rec,
                     to_dict_records df !! i = Some rec
                     ∧ (Z.of_nat i < sample_limit)%Z
                     ∧ validate_row_with_schema rec s ≠ []
                     ∧ m = mkMsg i (validate_row_with_schema rec s) rec) as Hspec.
    { intros m. rewrite validate_rows_elem. simpl. split.
      - intros [Hin|?]; [inversion Hin | done].
      - by right. }
    split; [exact Hspec |]. split.
    + apply validate_rows_increasing; [| constructor].
      intros a b x y Ha. inversion Ha.
    + intros m Hm. apply Hspec in Hm as (i & rec & Hi & _ & _ & ->). simpl.
      apply lookup_lt_Some in Hi. unfold to_dict_records in Hi.
      by rewrite length_map, length_seq in Hi.
Qed.

End SchemaFacts.

(** ** Object store *)

Section ObjectStoreFacts.
Import ObjectStore.
Context `{Settings}.

Lemma create_bucket_lookup (bucket : string) (s3 : S3) :
  (create_bucket bucket s3).1 !! bucket = Some (default ∅ (s3 !! bucket))
  ∧ ∀ b, b ≠ bucket → (create_bucket bucket s3).1 !! b = s3 !! b.
Proof.
  unfold create_bucket. destruct (s3 !! bucket) as [objects|] eqn:E; cbn [fst].
  - by rewrite E.
  - rewrite lookup_insert_eq. split; [done |].
    intros b Hb. by rewrite lookup_insert_ne.
Qed.

Lemma contains_slash_cons (c : ascii) (s : string) :
  PyStr.contains "/" (String c s) = Ascii.eqb c "/" || PyStr.contains "/" s.
Proof.
  cbn [PyStr.contains String.prefix].
  destruct (ascii_dec "/" c) as [<-|Hc].
  - by destruct s.
  - destruct (Ascii.eqb_spec c "/") as [->|_]; done.
Qed.

Lemma contains_slash_app (a b : string) :
  PyStr.contains "/" (a ++ b) = PyStr.contains "/" a || PyStr.contains "/" b.
Proof.
  induction a as [|c a IH].
  - simpl. by destruct b.
  - change (String c a ++ b) with (String c (a ++ b)).
    rewrite !contains_slash_cons, IH. by rewrite orb_assoc.
Qed.

Lemma string_app_nil_r (s : string) : s ++ "" = s.
Proof.
  induction s as [|c s IH]; [done |].
  change (String c s ++ "") with (String c (s ++ "")). by rewrite IH.
Qed.

Lemma string_app_assoc (a b c : string) : (a ++ b) ++ c = a ++ (b ++ c).
Proof.
  induction a as [|x a IH]; [done |].
  change ((String x a ++ b) ++ c) with (String x ((a ++ b) ++ c)).
  by rewrite IH.
Qed.

Lemma last_segment_no_slash (rest pre : string) :
  PyStr.contains "/" pre = false →
  PyStr.contains "/" (last_segment (pre ++ rest) rest) = false.
Proof.
  revert pre. induction rest as [|c r IH]; intros pre Hpre.
  - simpl. by rewrite string_app_nil_r.
  - simpl last_segment. destruct (Ascii.eqb c "/") eqn:Ec.
    + by apply (IH "").
    + change (String c r) with (String c "" ++ r).
      rewrite <- string_app_assoc. apply IH.
      rewrite contains_slash_app, Hpre, contains_slash_cons, Ec. done.
Qed.

Lemma basename_no_slash (p : string) :
  PyStr.contains "/" (basename p) = false.
Proof. by apply (last_segment_no_slash p ""). Qed.

(** X14.  Uploading a readable local file and downloading its key gives what the
    reader chosen by the key's extension makes of the file's content: the
    CSV reader when the key ends in [.csv] in any letter case, the JSON
    reader otherwise.  This holds whether or not the bucket existed; the
    object's key is the file's base name unless one is given, and no
    other object or bucket changes. *)
Theorem upload_then_download (local_path : string)
    (object_key : option string) (files : Files) (s3 : S3) (body : string) :
  files !! local_path = Some body →
  let key := default (basename local_path) object_key in
  ∃ s3',
    upload_sample_to_minio local_path object_key files s3 = (s3', Returned ())
    ∧ download_object_as_df key s3'
      = (if endswith ".csv" (PyStr.lower key) then read_csv body
         else read_json body)
    ∧ (∀ k, k ≠ key →
         (default ∅ (s3' !! MINIO_BUCKET)) !! k
         = (default ∅ (s3 !! MINIO_BUCKET)) !! k)
    ∧ (∀ b, b ≠ MINIO_BUCKET → s3' !! b = s3 !! b).
Proof.
  intros Hfile key. unfold upload_sample_to_minio. rewrite Hfile.
  destruct (create_bucket_lookup MINIO_BUCKET s3) as [Hb Ho].
  unfold put_object. rewrite Hb.
  assert (match object_key with Some k => k | None => basename local_path end
          = key) as -> by (by destruct object_key).
  eexists. split; [done |]. split; [| split].
  - unfold download_object_as_df, get_object.
    by rewrite !lookup_insert_eq.
  - intros k Hk. rewrite lookup_insert_eq. simpl. by rewrite lookup_insert_ne.
  - intros b Hne. rewrite lookup_insert_ne by done. by apply Ho.
Qed.

(** X15.  A missing local file makes the upload raise [FileNotFoundError], but
    only after the bucket has been created: the store is left with the
    bucket and without the object.  The seeding script's upload checks
    the file first and leaves the store as it was. *)
Theorem upload_of_missing_file (local_path bucket key : string)
    (object_key : option string) (files : Files) (s3 : S3) :
  files !! local_path = None →
  (∃ s3',
     upload_sample_to_minio local_path object_key files s3
     = (s3', Raised (FileNotFoundError local_path))
     ∧ s3' !! MINIO_BUCKET = Some (default ∅ (s3 !! MINIO_BUCKET))
     ∧ ∀ b, b ≠ MINIO_BUCKET → s3' !! b = s3 !! b)
  ∧ upload_file_to_minio local_path bucket key files s3
    = (s3, Raised (FileNotFoundError local_path)).
Proof.
  intros Hfile. unfold upload_sample_to_minio, upload_file_to_minio.
  rewrite Hfile. split; [| done].
  destruct (create_bucket_lookup MINIO_BUCKET s3) as [Hb Ho].
  eexists. by repeat split.
Qed.

(** X16.  An upload under the default key never provides an object whose key
    holds a [/]: the default key is a base name.  Downloading such a key
    afterwards raises [NoSuchKey] unless the object was there before,
    whether the upload succeeded or not. *)
Theorem default_upload_key_has_no_directory (local_path key : string)
    (files : Files) (s3 : S3) :
  PyStr.contains "/" key = true →
  (default ∅ (s3 !! MINIO_BUCKET)) !! key = None →
  download_object_as_df key
    (upload_sample_to_minio local_path None files s3).1
  = Raised (NoSuchKey key).
Proof.
  intros Hkey Hnone. unfold upload_sample_to_minio.
  destruct (create_bucket_lookup MINIO_BUCKET s3) as [Hb _].
  unfold download_object_as_df, get_object.
  destruct (files !! local_path) as [body|]; cbn [fst].
  - unfold put_object. rewrite Hb. cbn [fst]. rewrite lookup_insert_eq.
    rewrite lookup_insert_ne; [by rewrite Hnone |].
    intros Heq. rewrite <- Heq, basename_no_slash in Hkey. done.
  - by rewrite Hb, Hnone.
Qed.

End ObjectStoreFacts.

(** ** Worked instances *)

Lemma transform_orders_df_shape_witness :
  ∃ df',
    @transform_orders_df default_config Simple.parsers sample_orders = Ok df'
    ∧ column_names df'
      = ["order_id"; "user_id"; "product_id"; "quantity"; "price";
         "order_date"; "total_price"]
    ∧ (nrows df' ≤ 2)%nat.
Proof.
  eexists. split; [vm_compute; reflexivity |].
  refine (let Hs := @transform_orders_df_shape default_config Simple.parsers
                      sample_orders _ _ in
          conj (proj1 (proj2 Hs)) (proj1 (proj2 (proj2 Hs)))).
  vm_compute. reflexivity.
Defined.


Lemma run_etl_store_untouched_before_load_witness :
  stages_entered
    (@run_etl_from_minio_to_postgres default_config Simple.parsers
       (fixed_source bad_date_orders) "sample/orders_sample.csv" true true
       provisioned_sink)
  = [StExtract; StTransform; StQuality]
  ∧ (@run_etl_from_minio_to_postgres default_config Simple.parsers
       (fixed_source bad_date_orders) "sample/orders_sample.csv" true true
       provisioned_sink).1 = provisioned_sink.
Proof.
  split; [vm_compute; reflexivity |].
  refine (proj1 (proj1 (proj2
            (@run_etl_store_untouched_before_load default_config
               Simple.parsers (fixed_source bad_date_orders)
               "sample/orders_sample.csv" true true provisioned_sink)) _)).
  apply (bool_decide_unpack _). vm_compute. reflexivity.
Defined.

Lemma run_etl_load_receives_checked_frame_witness :
  ∃ df_clean,
    @transform_orders_df default_config Simple.parsers sample_orders
    = Ok df_clean
    ∧ nrows df_clean ≠ 0%nat
    ∧ NoDup (key_rows "order_id" df_clean).
Proof.
  eexists. split; [vm_compute; reflexivity |].
  unshelve refine (let Hs := @run_etl_load_receives_checked_frame default_config
                      Simple.parsers (fixed_source sample_orders)
                      "sample/orders_sample.csv" true true orders_sink
                      sample_orders _ eq_refl _ _ in
          conj (proj1 (proj2 Hs)) (proj2 (proj2 (proj2 (proj2 Hs))) _)).
  - vm_compute. reflexivity.
  - apply (bool_decide_unpack _). vm_compute. reflexivity.
  - apply (bool_decide_unpack _). vm_compute. reflexivity.
Defined.

Lemma load_df_to_postgres_upsert_depends_on_sink_only_witness :
  (@load_df_to_postgres_upsert Simple.parsers
     (one_order (CInt 3) (CFloat (5 # 2))) "orders_clean" "order_id"
     one_order_sink).2
  = (@load_df_to_postgres_upsert Simple.parsers
       (one_order (CInt 3) (CFloat (5 # 2))) "orders_clean" "order_id"
       (<["orders_clean_staging" := bad_date_staging]> one_order_sink)).2.
Proof.
  refine (proj1 (@load_df_to_postgres_upsert_depends_on_sink_only
                   Simple.parsers (one_order (CInt 3) (CFloat (5 # 2)))
                   "orders_clean" "order_id" one_order_sink
                   (<["orders_clean_staging" := bad_date_staging]>
                      one_order_sink) _)).
  vm_compute. reflexivity.
Defined.

Lemma load_df_to_postgres_upsert_keeps_sink_witness :
  ∃ t t',
    one_order_sink !! "orders_clean" = Some t
    ∧ (@load_df_to_postgres_upsert Simple.parsers
         (one_order (CInt 3) (CFloat (5 # 2))) "orders_clean" "order_id"
         one_order_sink).1 !! "orders_clean" = Some t'
    ∧ t_columns t' = t_columns t ∧ t_pkey t' = t_pkey t
    ∧ (length (t_rows t) ≤ length (t_rows t'))%nat.
Proof.
  eexists.
  edestruct (@load_df_to_postgres_upsert_keeps_sink Simple.parsers
               (one_order (CInt 3) (CFloat (5 # 2))) "orders_clean"
               "order_id" one_order_sink) as [(t' & Ht') _].
  - vm_compute. reflexivity.
  - exists t'. split; [vm_compute; reflexivity | exact Ht'].
Defined.

Lemma load_df_to_postgres_upsert_needs_keyed_sink_witness :
  ∃ e,
    (@load_df_to_postgres_upsert Simple.parsers
       (one_order (CInt 3) (CFloat (5 # 2))) "orders_clean" "order_id" ∅).2
    = Raise e.
Proof.
  refine (proj1 (proj2 (@load_df_to_postgres_upsert_needs_keyed_sink
                          Simple.parsers (one_order (CInt 3) (CFloat (5 # 2)))
                          "orders_clean" "order_id" ∅) _)).
  vm_compute. reflexivity.
Defined.

Lemma load_df_to_postgres_upsert_frame_witness :
  (@load_df_to_postgres_upsert Simple.parsers
     (one_order (CInt 3) (CFloat (5 # 2))) "orders_clean" "order_id"
     (<["orders_raw" := bad_date_staging]> one_order_sink)).1 !! "orders_raw"
  = Some bad_date_staging.
Proof.
  refine (eq_trans
            (@load_df_to_postgres_upsert_frame Simple.parsers
               (one_order (CInt 3) (CFloat (5 # 2))) "orders_clean" "order_id"
               "orders_raw"
               (<["orders_raw" := bad_date_staging]> one_order_sink) _ _) _).
  - apply (bool_decide_unpack _). vm_compute. reflexivity.
  - apply (bool_decide_unpack _). vm_compute. reflexivity.
  - vm_compute. reflexivity.
Defined.

Lemma upsert_keeps_primary_key_witness :
  ∃ db' sink' (ks : list sqlval),
    @upsert Simple.parsers "orders_clean" "orders_clean_staging" "order_id"
      ["order_id"; "status"; "total_price"]
      (example_store [delivered_order_1; new_order_2]) = (db', Ok ())
    ∧ db' !! "orders_clean" = Some sink'
    ∧ NoDup ks
    ∧ length (t_rows sink') = (1 + length ks)%nat
    ∧ pkey_ok (t_pkey sink') (t_rows sink') = true.
Proof.
  exists (@upsert Simple.parsers "orders_clean" "orders_clean_staging"
            "order_id" ["order_id"; "status"; "total_price"]
            (example_store [delivered_order_1; new_order_2])).1.
  assert (@upsert Simple.parsers "orders_clean" "orders_clean_staging"
            "order_id" ["order_id"; "status"; "total_price"]
            (example_store [delivered_order_1; new_order_2])
          = ((@upsert Simple.parsers "orders_clean" "orders_clean_staging"
                "order_id" ["order_id"; "status"; "total_price"]
                (example_store [delivered_order_1; new_order_2])).1, Ok ()))
    as Hu by (vm_compute; reflexivity).
  destruct (@upsert_keeps_primary_key Simple.parsers
              "orders_clean" "orders_clean_staging" "order_id"
              ["order_id"; "status"; "total_price"]
              (example_store [delivered_order_1; new_order_2]) _
              example_sink Hu)
    as (sink' & ks & Hs & _ & Hnd & _ & _ & Hlen & Hpk).
  - vm_compute. reflexivity.
  - exists sink', ks. split; [exact Hu |].
    split; [exact Hs |]. split; [exact Hnd |]. split; [exact Hlen |].
    apply Hpk. vm_compute. reflexivity.
Defined.

Lemma copy_df_to_table_via_copy_all_or_nothing_witness :
  ∃ db' t rs,
    @copy_df_to_table_via_copy Simple.parsers bad_date_orders "orders_raw"
      plain_store = (db', Ok ())
    ∧ plain_store !! "orders_raw" = Some t
    ∧ length rs = 2%nat
    ∧ db' = <["orders_raw" := mkTable (t_columns t) (t_pkey t)
                                (t_rows t ++ rs)]> plain_store.
Proof.
  exists (@copy_df_to_table_via_copy Simple.parsers bad_date_orders
            "orders_raw" plain_store).1.
  assert (@copy_df_to_table_via_copy Simple.parsers bad_date_orders
            "orders_raw" plain_store
          = ((@copy_df_to_table_via_copy Simple.parsers bad_date_orders
                "orders_raw" plain_store).1, Ok ())) as Hc
    by (vm_compute; reflexivity).
  destruct (proj2 (proj2 (@copy_df_to_table_via_copy_all_or_nothing
                            Simple.parsers bad_date_orders "orders_raw"
                            plain_store _ _ Hc)) eq_refl)
    as (t & rs & Ht & Hlen & Hdb & _).
  exists t, rs. split; [exact Hc |]. split; [exact Ht |].
  split; [exact Hlen | exact Hdb].
Defined.

Lemma copy_df_to_table_via_copy_twice_witness :
  ∃ db1 rs,
    @copy_df_to_table_via_copy Simple.parsers bad_date_orders "orders_raw"
      plain_store = (db1, Ok ())
    ∧ length rs = 2%nat
    ∧ @copy_df_to_table_via_copy Simple.parsers bad_date_orders "orders_raw"
        db1
      = (<["orders_raw" := mkTable (frame_columns bad_date_orders) None
                             (([] ++ rs) ++ rs)]> db1, Ok ()).
Proof.
  exists (@copy_df_to_table_via_copy Simple.parsers bad_date_orders
            "orders_raw" plain_store).1.
  assert (@copy_df_to_table_via_copy Simple.parsers bad_date_orders
            "orders_raw" plain_store
          = ((@copy_df_to_table_via_copy Simple.parsers bad_date_orders
                "orders_raw" plain_store).1, Ok ())) as Hc
    by (vm_compute; reflexivity).
  destruct (@copy_df_to_table_via_copy_twice Simple.parsers
              bad_date_orders "orders_raw" plain_store _
              (mkTable (frame_columns bad_date_orders) None []) eq_refl Hc)
    as [_ Hnone].
  - vm_compute. discriminate.
  - destruct (Hnone eq_refl) as (rs & Hlen & _ & Hagain).
    exists rs. split; [exact Hc |]. split; [exact Hlen | exact Hagain].
Defined.

Lemma fill_staging_Ok_table_witness :
  ∃ db' t,
    @fill_staging Simple.parsers one_dated_order "orders_clean_staging" ∅
    = (db', Ok ())
    ∧ db' !! "orders_clean_staging" = Some t
    ∧ t_pkey t = None
    ∧ length (t_rows t) = 1%nat
    ∧ dated "order_date" t.
Proof.
  exists (@fill_staging Simple.parsers one_dated_order
            "orders_clean_staging" ∅).1.
  assert (@fill_staging Simple.parsers one_dated_order
            "orders_clean_staging" ∅
          = ((@fill_staging Simple.parsers one_dated_order
                "orders_clean_staging" ∅).1, Ok ())) as Hf
    by (vm_compute; reflexivity).
  destruct (@fill_staging_Ok_table Simple.parsers one_dated_order
              "orders_clean_staging" ∅ _ Hf)
    as (t & Ht & Hpk & _ & _ & Hlen & Hd & _).
  exists t. split; [exact Hf |]. split; [exact Ht |].
  split; [exact Hpk |]. split; [exact Hlen |].
  apply Hd. apply (bool_decide_unpack _). vm_compute. reflexivity.
Defined.

Lemma validate_dataframe_schema_sampled_witness :
  ∃ msgs,
    @Schema.validate_dataframe_schema example_validator orders_with_null_key
      "schemas/orders_schema.json" 1000 = Schema.Returned msgs
    ∧ (∀ m, m ∈ msgs → (Schema.row_index m < 3)%nat).
Proof.
  destruct (proj2 (@validate_dataframe_schema_sampled example_validator
                     orders_with_null_key "schemas/orders_schema.json" 1000)
              ["order_id"])
    as (msgs & Hm & _ & _ & Hlt); [vm_compute; reflexivity |].
  exists msgs. split; [exact Hm | exact Hlt].
Defined.

Lemma upload_then_download_witness :
  ∃ s3',
    @ObjectStore.upload_sample_to_minio example_settings
      "sample_data/orders_sample.csv" None example_files ∅
    = (s3', ObjectStore.Returned ())
    ∧ @ObjectStore.download_object_as_df example_settings
        "orders_sample.csv" s3'
      = ObjectStore.Returned (mkFrame [] [("order_id", series_of []);
                                          ("order_date", series_of [])]).
Proof.
  destruct (@upload_then_download example_settings
              "sample_data/orders_sample.csv" None example_files ∅
              "order_id,order_date")
    as (s3' & Hup & Hdown & _); [vm_compute; reflexivity |].
  exists s3'. split; [exact Hup | exact Hdown].
Defined.

Lemma upload_of_missing_file_witness :
  ∃ s3',
    @ObjectStore.upload_sample_to_minio example_settings
      "sample_data/orders_sample.csv" None ∅ ∅
    = (s3', ObjectStore.Raised
              (ObjectStore.FileNotFoundError "sample_data/orders_sample.csv"))
    ∧ s3' !! "raw-data" = Some ∅.
Proof.
  destruct (@upload_of_missing_file example_settings
              "sample_data/orders_sample.csv" "raw-data"
              "sample/orders_sample.csv" None ∅ ∅)
    as [(s3' & Hup & Hb & _) _]; [vm_compute; reflexivity |].
  exists s3'. split; [exact Hup | exact Hb].
Defined.

Lemma default_upload_key_has_no_directory_witness :
  @ObjectStore.download_object_as_df example_settings
    "sample/orders_sample.csv"
    (@ObjectStore.upload_sample_to_minio example_settings
       "sample_data/orders_sample.csv" None example_files ∅).1
  = ObjectStore.Raised (ObjectStore.NoSuchKey "sample/orders_sample.csv").
Proof.
  apply (@default_upload_key_has_no_directory example_settings
           "sample_data/orders_sample.csv" "sample/orders_sample.csv"
           example_files ∅).
  - vm_compute. reflexivity.
  - vm_compute. reflexivity.
Defined.
